(** * hpct-interview: the settings store, the item model and the traversal engine

    A shallow embedding of [lib/hpctinterview/lib.py] (class
    [DottedDictWrapper]) and [lib/hpctinterview/interview.py] (classes [Item]
    and [Interview]) and the properties of the design document checked
    against it.

    Python values are a tagged union, a Python [dict] is an association list
    in insertion order, exceptions are the [Raise] case of a result type, and
    the mutable objects (the settings dictionary, the item configurations of
    the document) are passed explicitly and returned updated. *)

From Stdlib Require Import String Ascii List ZArith Bool Lia DecimalString.
From Stdlib Require Import Sorting.Sorted Sorting.Permutation.
Import ListNotations.

Set Warnings "-register-all".

Open Scope string_scope.
Open Scope Z_scope.
Open Scope list_scope.

(* ================================================================== *)
(** ** Python values, exceptions and the builtins the program uses     *)
(* ================================================================== *)

Module Py.

(** Exceptions raised by the program or by the builtins it calls.
    [NotModelled] is not a Python exception: it marks an input on which the
    program leaves this embedding (floats, [repr] of containers). *)
Inductive exn : Type :=
| KeyError
| TypeError
| ValueError
| AttributeError
| NameError
| ZeroDivisionError
| OSError
| ReError
| BadItem
| RetryWalk
| PyException (msg : string)
| NotModelled.

Inductive result (A : Type) : Type :=
| Ok (a : A)
| Raise (e : exn).
Arguments Ok {A} a.
Arguments Raise {A} e.

Definition bind {A B : Type} (m : result A) (k : A -> result B) : result B :=
  match m with
  | Ok a => k a
  | Raise e => Raise e
  end.

Notation "x <- m ;; k" := (bind m (fun x => k))
  (at level 61, m at next level, right associativity).
Notation "' p <- m ;; k" := (bind m (fun x => match x with p => k end))
  (at level 61, p pattern, m at next level, right associativity).

Definition is_ok {A : Type} (m : result A) : bool :=
  match m with Ok _ => true | Raise _ => false end.

(** Values as the YAML loader and the program produce them.  A [dict] keeps
    its entries in insertion order, keys are strings. *)
Inductive value : Type :=
| VNone
| VBool (b : bool)
| VInt (z : Z)
| VStr (s : string)
| VList (l : list value)
| VDict (d : list (string * value)).

Definition dict : Type := list (string * value).

(** *** dict primitives *)

Fixpoint dict_get (d : dict) (k : string) : option value :=
  match d with
  | [] => None
  | (k', v) :: d' => if String.eqb k k' then Some v else dict_get d' k
  end.

Definition dict_mem (d : dict) (k : string) : bool :=
  match dict_get d k with Some _ => true | None => false end.

(** [d[k] = v]: an existing key keeps its position, a new key goes last. *)
Fixpoint dict_set (d : dict) (k : string) (v : value) : dict :=
  match d with
  | [] => [(k, v)]
  | (k', v') :: d' =>
      if String.eqb k k' then (k', v) :: d' else (k', v') :: dict_set d' k v
  end.

Definition dict_keys (d : dict) : list string := map fst d.

(** *** strings *)

(** [p in s] for two strings: substring test. *)
Fixpoint substringb (p s : string) : bool :=
  String.prefix p s
  || match s with
     | EmptyString => false
     | String _ s' => substringb p s'
     end.

(** [s.split(sep)] for a one-character separator: never the empty list. *)
Fixpoint split_on (sep : ascii) (s : string) : list string :=
  match s with
  | EmptyString => [EmptyString]
  | String c s' =>
      if Ascii.eqb c sep then EmptyString :: split_on sep s'
      else match split_on sep s' with
           | [] => [String c EmptyString]
           | w :: ws => String c w :: ws
           end
  end.

(** [sep.join(l)]. *)
Definition join_on (sep : ascii) (l : list string) : string :=
  String.concat (String sep EmptyString) l.

(** [s.split(sep, 1)]: [None] when [sep] does not occur (one piece),
    otherwise the text before and after its first occurrence. *)
Fixpoint split_once (sep : ascii) (s : string) : option (string * string) :=
  match s with
  | EmptyString => None
  | String c s' =>
      if Ascii.eqb c sep then Some (EmptyString, s')
      else match split_once sep s' with
           | Some (a, b) => Some (String c a, b)
           | None => None
           end
  end.

Definition is_space (c : ascii) : bool :=
  let n := nat_of_ascii c in
  ((9 <=? n) && (n <=? 13) || (28 <=? n) && (n <=? 32))%nat.

(** [s.split()]: split on runs of white space, no empty piece. *)
Fixpoint split_ws_aux (cur : string) (s : string) : list string :=
  match s with
  | EmptyString => match cur with EmptyString => [] | _ => [cur] end
  | String c s' =>
      if is_space c
      then match cur with
           | EmptyString => split_ws_aux EmptyString s'
           | _ => cur :: split_ws_aux EmptyString s'
           end
      else split_ws_aux (cur ++ String c EmptyString) s'
  end.

Definition split_ws (s : string) : list string := split_ws_aux EmptyString s.

Fixpoint lstrip (s : string) : string :=
  match s with
  | String c s' => if is_space c then lstrip s' else s
  | EmptyString => EmptyString
  end.

Fixpoint rstrip (s : string) : string :=
  match s with
  | EmptyString => EmptyString
  | String c s' =>
      match rstrip s' with
      | EmptyString => if is_space c then EmptyString else String c EmptyString
      | r => String c r
      end
  end.

Definition strip (s : string) : string := rstrip (lstrip s).

(** *** [int(x)] *)

Definition digit_of (c : ascii) : option Z :=
  let n := nat_of_ascii c in
  if ((48 <=? n) && (n <=? 57))%nat then Some (Z.of_nat (n - 48)) else None.

Inductive dstate : Type := DStart | DDigit | DUnder.

(** Decimal digits, single underscores allowed between two digits. *)
Fixpoint parse_digits (st : dstate) (acc : Z) (s : string) : option Z :=
  match s with
  | EmptyString => match st with DDigit => Some acc | _ => None end
  | String c s' =>
      match digit_of c with
      | Some d => parse_digits DDigit (10 * acc + d) s'
      | None =>
          if Ascii.eqb c "_"%char
          then match st with
               | DDigit => parse_digits DUnder acc s'
               | _ => None
               end
          else None
      end
  end.

(** The white space [int] skips around a number: tab to carriage return
    and the blank.  The separators 28 to 31, which [str.strip] removes, are
    no white space for [int]. *)
Definition is_int_space (c : ascii) : bool :=
  let n := nat_of_ascii c in
  ((9 <=? n) && (n <=? 13) || (n =? 32))%nat.

Fixpoint int_lstrip (s : string) : string :=
  match s with
  | String c s' => if is_int_space c then int_lstrip s' else s
  | EmptyString => EmptyString
  end.

Fixpoint int_rstrip (s : string) : string :=
  match s with
  | EmptyString => EmptyString
  | String c s' =>
      match int_rstrip s' with
      | EmptyString =>
          if is_int_space c then EmptyString else String c EmptyString
      | r => String c r
      end
  end.

(** [int(s)] on a string (ASCII text): surrounding white space, an optional
    sign, decimal digits. *)
Definition int_of_string (s : string) : option Z :=
  match int_rstrip (int_lstrip s) with
  | String "-"%char r => option_map Z.opp (parse_digits DStart 0 r)
  | String "+"%char r => parse_digits DStart 0 r
  | r => parse_digits DStart 0 r
  end.

Definition py_int (v : value) : result Z :=
  match v with
  | VInt z => Ok z
  | VBool b => Ok (if b then 1 else 0)
  | VStr s => match int_of_string s with
              | Some z => Ok z
              | None => Raise ValueError
              end
  | VNone | VList _ | VDict _ => Raise TypeError
  end.

(** [str(z)]. *)
Definition string_of_Z (z : Z) : string := NilZero.string_of_int (Z.to_int z).

(** [bool(v)]: truthiness. *)
Definition py_bool (v : value) : bool :=
  match v with
  | VNone => false
  | VBool b => b
  | VInt z => negb (z =? 0)
  | VStr s => negb (String.eqb s "")
  | VList l => match l with [] => false | _ => true end
  | VDict d => match d with [] => false | _ => true end
  end.

(** [f"{v}"]: the text of a scalar; the [repr] of a container is outside
    the embedding. *)
Definition py_format (v : value) : result string :=
  match v with
  | VNone => Ok "None"
  | VBool true => Ok "True"
  | VBool false => Ok "False"
  | VInt z => Ok (string_of_Z z)
  | VStr s => Ok s
  | VList _ | VDict _ => Raise NotModelled
  end.

(** [a == b]: numbers compare by value ([True == 1]), lists element-wise,
    dicts as sets of entries. *)
Fixpoint py_eq (a b : value) {struct a} : bool :=
  match a, b with
  | VNone, VNone => true
  | VBool x, VBool y => Bool.eqb x y
  | VBool x, VInt z => (if x then 1 else 0) =? z
  | VInt z, VBool y => z =? (if y then 1 else 0)
  | VInt x, VInt y => x =? y
  | VStr x, VStr y => String.eqb x y
  | VList xs, VList ys =>
      (fix go (xs ys : list value) {struct xs} : bool :=
         match xs, ys with
         | [], [] => true
         | x :: xs', y :: ys' => py_eq x y && go xs' ys'
         | _, _ => false
         end) xs ys
  | VDict d1, VDict d2 =>
      Nat.eqb (length d1) (length d2)
      && (fix all (d : list (string * value)) : bool :=
            match d with
            | [] => true
            | (k, v) :: d' =>
                (fix find (e : list (string * value)) : bool :=
                   match e with
                   | [] => false
                   | (k2, v2) :: e' =>
                       if String.eqb k k2 then py_eq v v2 else find e'
                   end) d2
                && all d'
            end) d1
  | _, _ => false
  end.

Definition is_dict (v : value) : bool :=
  match v with VDict _ => true | _ => false end.

Definition is_list (v : value) : bool :=
  match v with VList _ => true | _ => false end.

(** [x in c]. *)
Definition py_in (x c : value) : result bool :=
  match c with
  | VDict d =>
      match x with
      | VStr k => Ok (dict_mem d k)
      | VList _ | VDict _ => Raise TypeError
      | _ => Ok false
      end
  | VList l => Ok (existsb (py_eq x) l)
  | VStr s =>
      match x with
      | VStr p => Ok (substringb p s)
      | _ => Raise TypeError
      end
  | VNone | VBool _ | VInt _ => Raise TypeError
  end.

(** [c[k]] for a string [k]. *)
Definition py_getitem (c : value) (k : string) : result value :=
  match c with
  | VDict d => match dict_get d k with
               | Some v => Ok v
               | None => Raise KeyError
               end
  | _ => Raise TypeError
  end.

(** [c[k] = x] for a string [k]: only a dict accepts it. *)
Definition py_setitem (c : value) (k : string) (x : value) : result value :=
  match c with
  | VDict d => Ok (VDict (dict_set d k x))
  | _ => Raise TypeError
  end.

(** [for v in c]: the elements the loop visits. *)
Fixpoint chars (s : string) : list value :=
  match s with
  | EmptyString => []
  | String c s' => VStr (String c EmptyString) :: chars s'
  end.

Definition py_iter (c : value) : result (list value) :=
  match c with
  | VList l => Ok l
  | VStr s => Ok (chars s)
  | VDict d => Ok (map VStr (dict_keys d))
  | VNone | VBool _ | VInt _ => Raise TypeError
  end.

(** [a < b] as [sorted] uses it. *)
Definition as_number (v : value) : option Z :=
  match v with
  | VInt z => Some z
  | VBool b => Some (if b then 1 else 0)
  | _ => None
  end.

Definition py_lt (a b : value) : result bool :=
  match as_number a, as_number b with
  | Some x, Some y => Ok (x <? y)
  | _, _ =>
      match a, b with
      | VStr x, VStr y => Ok (String.ltb x y)
      | VList _, VList _ => Raise NotModelled
      | _, _ => Raise TypeError
      end
  end.

(** [sorted(l)]: a stable sort that, like Python's, only asks [y < x]; a
    comparison the values do not support raises. *)
Fixpoint insert_sorted (x : value) (l : list value) : result (list value) :=
  match l with
  | [] => Ok [x]
  | y :: l' =>
      lt <- py_lt y x ;;
      if lt then (r <- insert_sorted x l' ;; Ok (y :: r))
      else Ok (x :: y :: l')
  end.

Fixpoint py_sorted (l : list value) : result (list value) :=
  match l with
  | [] => Ok []
  | x :: l' => s <- py_sorted l' ;; insert_sorted x s
  end.

End Py.

(* ================================================================== *)
(** ** The settings store: [DottedDictWrapper] of lib.py               *)
(* ================================================================== *)

Module Store.
Import Py.

(** [self.sep]: [Interview] builds its store with the default separator. *)
Definition sep : ascii := "."%char.

(** [key.split(self.sep)]: a key that is no string has no [split]. *)
Definition split_key (key : value) : result (list string) :=
  match key with
  | VStr s => Ok (split_on sep s)
  | _ => Raise AttributeError
  end.

(** [_find(keys)], started at [v = self.d]. *)
Fixpoint _find (v : value) (keys : list string) : result value :=
  match keys with
  | [] => Ok v
  | k :: ks =>
      match v with
      | VDict d =>
          match dict_get d k with
          | Some v' => _find v' ks
          | None => Raise KeyError
          end
      | _ => Raise KeyError
      end
  end.

(** [key in self]: every exception of the lookup means "absent". *)
Definition __contains__ (d : dict) (key : value) : bool :=
  match keys <- split_key key ;; _find (VDict d) keys with
  | Ok _ => true
  | Raise _ => false
  end.

(** What [self[key]] hands out: a leaf as it is, a nested dict wrapped in a
    new [DottedDictWrapper]. *)
Inductive got : Type :=
| GValue (v : value)
| GWrapper (d : dict).

Definition __getitem__ (d : dict) (key : value) : result got :=
  match keys <- split_key key ;; _find (VDict d) keys with
  | Ok (VDict sub) => Ok (GWrapper sub)
  | Ok v => Ok (GValue v)
  | Raise _ => Raise KeyError
  end.

(** [get(key, default)]: [None] stands for "the caller's default". *)
Definition get (d : dict) (key : value) : option got :=
  if __contains__ d key
  then match __getitem__ d key with
       | Ok g => Some g
       | Raise _ => None
       end
  else None.

(** The loop of [__setitem__] over [keys[:-1]] and the final
    [v[keys[-1]] = value], returning the object [v] started from with the
    write applied below it.  The two tests are those of the source, in its
    order: [k not in v], then [isinstance(v, dict)]. *)
Fixpoint setitem_path (v : value) (inner : list string) (final : string)
    (x : value) : result value :=
  match inner with
  | [] => py_setitem v final x
  | k :: ks =>
      present <- py_in (VStr k) v ;;
      if negb present then
        v1 <- py_setitem v k (VDict []) ;;
        sub <- setitem_path (VDict []) ks final x ;;
        py_setitem v1 k sub
      else if is_dict v then
        child <- py_getitem v k ;;
        sub <- setitem_path child ks final x ;;
        py_setitem v k sub
      else Raise (PyException "")
  end.

(** [self[key] = value]: the split is outside the [try], every exception
    inside it becomes [KeyError]. *)
Definition __setitem__ (d : dict) (key : value) (x : value) : result dict :=
  keys <- split_key key ;;
  match setitem_path (VDict d) (removelast keys) (last keys "") x with
  | Ok (VDict d') => Ok d'
  | Ok _ => Raise KeyError
  | Raise _ => Raise KeyError
  end.

(** [del self[key]]: the class defines [__setitem__] and no [__delitem__],
    so the statement looks the method up, raises [AttributeError] and
    deletes nothing. *)
Definition __delitem__ (d : dict) (key : value) : result dict :=
  Raise AttributeError.

(** [_pref = f"{pref}{self.sep}{k}" if pref else k]: the test is the
    truthiness of [pref], so [None] and the empty string both give [k]. *)
Definition extend_pref (pref : option string) (k : string) : string :=
  match pref with
  | None => k
  | Some p => if String.eqb p "" then k else p ++ String sep EmptyString ++ k
  end.

(** [_walk(d, pref)]: depth first, in the dicts' own order. *)
Fixpoint walk_value (pref : option string) (v : value) {struct v}
    : list (string * value) :=
  match v with
  | VDict d =>
      (fix entries (d : list (string * value)) : list (string * value) :=
         match d with
         | [] => []
         | (k, x) :: d' =>
             (match x with
              | VDict _ => walk_value (Some (extend_pref pref k)) x
              | _ => [(extend_pref pref k, x)]
              end) ++ entries d'
         end) d
  | _ => []
  end.

Definition _walk (d : dict) (pref : option string) : list (string * value) :=
  walk_value pref (VDict d).

Definition items (d : dict) : list (string * value) := _walk d None.
Definition keys (d : dict) : list string := map fst (_walk d None).
Definition values (d : dict) : list value := map snd (_walk d None).

End Store.

(* ================================================================== *)
(** ** External collaborators                                          *)
(* ================================================================== *)

(** The file system, the regular-expression engine and the YAML loader are
    not part of the program: they are taken as given. *)
Record Env : Type := {
  (** [open(path).read()] *)
  file_read : string -> Py.result string;
  (** the first [(dirnames, filenames)] that [os.walk(path)] yields, if any *)
  os_walk_first : string -> option (list string * list string);
  (** [re.compile(pattern)], as the test [cre.match(s)] it gives *)
  re_compile : string -> Py.result (string -> bool);
  (** [yaml.safe_load(open(path, "r"))] *)
  yaml_load : string -> Py.result Py.value;
  (** [os.path.exists(path)] *)
  path_exists : string -> bool
}.

(* ================================================================== *)
(** ** The item model: class [Item] of interview.py                    *)
(* ================================================================== *)

Module ItemModel.
Import Py.

(** An [Item] object.  [key] is the constructor's argument ([None] is the
    [NoValue] sentinel), [config] the node's dict, [kind] is
    [config.get("kind")].  The settings the methods reach through
    [self.interview.settings] are passed to them. *)
Record Item : Type := {
  walkpath : list nat;
  key : option value;
  config : dict;
  kind : value
}.

Definition str_is (v : value) (s : string) : bool :=
  match v with VStr s' => String.eqb s' s | _ => false end.

(** [re.compile(p)] for a value [p], and [cre.match(v)] for a value [v]. *)
Definition compile (env : Env) (p : value) : result (value -> result bool) :=
  match p with
  | VStr pat =>
      m <- re_compile env pat ;;
      Ok (fun v => match v with VStr s => Ok (m s) | _ => Raise TypeError end)
  | _ => Raise TypeError
  end.

Definition open_read (env : Env) (path : value) : result string :=
  match path with
  | VStr p => file_read env p
  | VInt _ | VBool _ => Raise NotModelled
  | _ => Raise TypeError
  end.

(** [[f(v) for v in l]], stopping at the first exception. *)
Fixpoint map_result {A B : Type} (f : A -> result B) (l : list A)
    : result (list B) :=
  match l with
  | [] => Ok []
  | a :: l' => b <- f a ;; r <- map_result f l' ;; Ok (b :: r)
  end.

(** [[v for v in l if p(v)]]. *)
Fixpoint filter_result {A : Type} (p : A -> result bool) (l : list A)
    : result (list A) :=
  match l with
  | [] => Ok []
  | a :: l' =>
      b <- p a ;; r <- filter_result p l' ;; Ok (if b then a :: r else r)
  end.

(** *** [Item.__init__]

    The constructor rewrites [config] in place, step by step; each step
    returns the dict as it stands together with what the step did, so that an
    exception keeps the writes made before it. *)

Definition step_default_from_file (env : Env) (c : dict) : dict * result unit :=
  match dict_get c "default_from_file" with
  | None => (c, Ok tt)
  | Some path =>
      match open_read env path with
      | Ok text => (dict_set c "default" (VStr text), Ok tt)
      | Raise e => (c, Raise e)
      end
  end.

Definition directory_names (env : Env) (spec : value) : result value :=
  match spec with
  | VStr s =>
      match split_once ":"%char s with
      | None => Raise ValueError
      | Some (namekind, path) =>
          let found := os_walk_first env path in
          let unbound := @Raise value NameError in
          if String.eqb namekind "dir" then
            match found with
            | Some (dirnames, _) => Ok (VList (map VStr dirnames))
            | None => unbound
            end
          else if String.eqb namekind "file" then
            match found with
            | Some (_, filenames) => Ok (VList (map VStr filenames))
            | None => unbound
            end
          else if String.eqb namekind "dir+file" then
            match found with
            | Some (dirnames, filenames) =>
                Ok (VList (map VStr (dirnames ++ filenames)))
            | None => unbound
            end
          else unbound
      end
  | _ => Raise AttributeError
  end.

Definition step_values_from_directory (env : Env) (c : dict)
    : dict * result unit :=
  match dict_get c "values_from_directory" with
  | None => (c, Ok tt)
  | Some spec =>
      match directory_names env spec with
      | Ok names => (dict_set c "values" names, Ok tt)
      | Raise e => (c, Raise e)
      end
  end.

Definition nonempty_lines (text : string) : list value :=
  map VStr
    (filter (fun v => negb (String.eqb v "")) (split_on "010"%char text)).

Definition step_values_from_file (env : Env) (c : dict) : dict * result unit :=
  match dict_get c "values_from_file" with
  | None => (c, Ok tt)
  | Some path =>
      match open_read env path with
      | Ok text => (dict_set c "values" (VList (nonempty_lines text)), Ok tt)
      | Raise e => (c, Raise e)
      end
  end.

Definition step_values_regexp (env : Env) (c : dict) : dict * result unit :=
  match dict_get c "values_regexp" with
  | None => (c, Ok tt)
  | Some pat =>
      match compile env pat with
      | Raise e => (c, Raise e)
      | Ok cre =>
          match dict_get c "values" with
          | None => (c, Ok tt)
          | Some vals =>
              match (l <- py_iter vals ;; filter_result cre l) with
              | Ok kept => (dict_set c "values" (VList kept), Ok tt)
              | Raise e => (c, Raise e)
              end
          end
      end
  end.

(** The conversion of [values] when [type] is [int] or [float]. *)
Definition step_convert_values (c : dict) : dict * result unit :=
  match dict_get c "values" with
  | None => (c, Ok tt)
  | Some vals =>
      match dict_get c "type" with
      | None => (c, Raise KeyError)
      | Some typ =>
          if str_is typ "int" then
            match (l <- py_iter vals ;; map_result py_int l) with
            | Ok zs => (dict_set c "values" (VList (map VInt zs)), Ok tt)
            | Raise e => (c, Raise e)
            end
          else if str_is typ "float" then (c, Raise NotModelled)
          else (c, Ok tt)
      end
  end.

(** [values_sort]: [sorted] for ["asc"]; for ["desc"] the source calls
    [reverse], a name bound nowhere in the module nor among the builtins, so
    evaluating it raises [NameError]. *)
Definition step_sort_values (c : dict) : dict * result unit :=
  match dict_get c "values" with
  | None => (c, Ok tt)
  | Some vals =>
      match dict_get c "values_sort" with
      | None => (c, Ok tt)
      | Some order =>
          if py_eq order (VStr "asc") then
            match (l <- py_iter vals ;; py_sorted l) with
            | Ok s => (dict_set c "values" (VList s), Ok tt)
            | Raise e => (c, Raise e)
            end
          else if py_eq order (VStr "desc") then (c, Raise NameError)
          else (c, Ok tt)
      end
  end.

(** Sequencing of the steps. *)
Definition and_then (r : dict * result unit) (f : dict -> dict * result unit)
    : dict * result unit :=
  match r with
  | (c, Ok _) => f c
  | (c, Raise e) => (c, Raise e)
  end.

Definition init_config (env : Env) (c : dict) : dict * result unit :=
  and_then (step_default_from_file env c) (fun c =>
  and_then (step_values_from_directory env c) (fun c =>
  and_then (step_values_from_file env c) (fun c =>
  and_then (step_values_regexp env c) (fun c =>
  and_then (step_convert_values c) step_sort_values)))).

(** [Item(interview, walkpath, key, config)]: the config as the constructor
    leaves it, and the object when no exception is raised. *)
Definition __init__ (env : Env) (wp : list nat) (k : option value) (c : dict)
    : dict * result Item :=
  match init_config env c with
  | (c', Ok _) =>
      (c', Ok {| walkpath := wp; key := k; config := c';
                 kind := match dict_get c' "kind" with
                         | Some v => v
                         | None => VNone
                         end |})
  | (c', Raise e) => (c', Raise e)
  end.

(** [Item.get(key, default)], [None] standing for the default. *)
Definition get (it : Item) (k : string) : option value :=
  dict_get (config it) k.

(** [int(settings.get(counter_key, 0))]. *)
Definition read_counter (settings : dict) (counter_key : value) : result Z :=
  match Store.get settings counter_key with
  | None => Ok 0
  | Some (Store.GValue v) => py_int v
  | Some (Store.GWrapper _) => Raise TypeError
  end.

(** [Item.get_fqkey(key=None)].  [VNone] for [k] is the default argument. *)
Definition get_fqkey (it : Item) (settings : dict) (k : value) : result value :=
  let section := dict_get (config it) "section" in
  let k := match k with
           | VNone => match dict_get (config it) "key" with
                      | Some v => v
                      | None => VNone
                      end
           | _ => k
           end in
  has_dot <- py_in (VStr ".") k ;;
  k <- (if negb has_dot
        then match section with
             | Some s =>
                 a <- py_format s ;; b <- py_format k ;;
                 Ok (VStr (a ++ "." ++ b))
             | None => Ok k
             end
        else Ok k) ;;
  match dict_get (config it) "parameterize" with
  | Some counter_key =>
      count <- read_counter settings counter_key ;;
      a <- py_format k ;;
      Ok (VStr (a ++ "." ++ string_of_Z count))
  | None => Ok k
  end.

(** *** [Item.set] *)

(** [value in [None, ""]]. *)
Definition is_none_or_empty (v : value) : bool :=
  py_eq v VNone || py_eq v (VStr "").

(** The two [if]/[elif] chains converting the value by [typ]. *)
Definition convert (typ : value) (v : value) : result value :=
  v <- (if str_is typ "bool" then Ok (VBool (py_bool v))
        else if str_is typ "csv" then
          match v with
          | VStr s => Ok (VList (map VStr (split_on ","%char s)))
          | _ => Raise AttributeError
          end
        else Ok v) ;;
  if str_is typ "float" then Raise NotModelled
  else if str_is typ "int" then (z <- py_int v ;; Ok (VInt z))
  else if str_is typ "str" then Ok v
  else if str_is typ "ssv" then
    match v with
    | VStr s => Ok (VList (map VStr (split_ws s)))
    | _ => Raise AttributeError
    end
  else Ok v.

(** [a - b] and [a % b] on the numbers of the embedding. *)
Definition py_sub (a b : value) : result value :=
  match as_number a, as_number b with
  | Some x, Some y => Ok (VInt (x - y))
  | _, _ => Raise TypeError
  end.

Definition py_mod (a b : value) : result value :=
  match as_number a, as_number b with
  | Some x, Some y =>
      if y =? 0 then Raise ZeroDivisionError else Ok (VInt (x mod y))
  | _, _ =>
      match a with
      | VStr _ => Raise NotModelled
      | _ => Raise TypeError
      end
  end.

(** [lo, hi, step] of a range, as the source splits and converts them. *)
Definition range_bounds (typ : value) (rng : value)
    : result (value * value * value) :=
  match rng with
  | VStr r =>
      match split_once "-"%char r with
      | None => Raise ValueError
      | Some (lo, hi) =>
          '(hi, step) <- Ok (match split_once ":"%char hi with
                             | Some (h, st) => (h, VStr st)
                             | None => (hi, VInt 1)
                             end) ;;
          if str_is typ "int" then
            lo' <- py_int (VStr lo) ;;
            hi' <- py_int (VStr hi) ;;
            step' <- (if negb (py_eq step (VStr "")) then py_int step
                      else Ok 1) ;;
            Ok (VInt lo', VInt hi', VInt step')
          else if str_is typ "float" then Raise NotModelled
          else Ok (VStr lo, VStr hi, step)
      end
  | _ => Raise AttributeError
  end.

(** [v < lo or v > hi or (v - lo) % step != 0]. *)
Definition out_of_range (lo hi step v : value) : result bool :=
  below <- py_lt v lo ;;
  if below then Ok true
  else
    above <- py_lt hi v ;;
    if above then Ok true
    else
      d <- py_sub v lo ;;
      m <- py_mod d step ;;
      Ok (negb (py_eq m (VInt 0))).

(** [for v in xvalues: if bad(v): raise ValueError("bad value")]. *)
Fixpoint check_each (bad : value -> result bool) (xvalues : list value)
    : result unit :=
  match xvalues with
  | [] => Ok tt
  | v :: rest =>
      b <- bad v ;;
      if b then Raise ValueError else check_each bad rest
  end.

(** The validation chain: the first constraint that applies decides. *)
Definition validate (env : Env) (cfg : dict) (typ : value)
    (xvalues : list value) : result unit :=
  let required := match dict_get cfg "required" with
                  | Some r => py_bool r
                  | None => false
                  end in
  if required && negb (py_bool (VList xvalues)) then Raise ValueError
  else
    match dict_get cfg "values" with
    | Some vals =>
        check_each (fun v => b <- py_in v vals ;; Ok (negb b)) xvalues
    | None =>
        match dict_get cfg "regexp" with
        | Some regexp =>
            cre <- compile env regexp ;;
            check_each (fun v => b <- cre v ;; Ok (negb b)) xvalues
        | None =>
            match dict_get cfg "range" with
            | Some rng =>
                '(lo, hi, step) <- range_bounds typ rng ;;
                check_each (out_of_range lo hi step) xvalues
            | None => Ok tt
            end
        end
    end.

(** [self.interview.settings[key] = value] with [key = self.key]: the
    [NoValue] class has no [split]. *)
Definition commit (settings : dict) (k : option value) (v : value)
    : result dict :=
  match k with
  | Some k => Store.__setitem__ settings k v
  | None => Raise AttributeError
  end.

(** [Item.set(value)]: the settings after the call, or the exception; an
    exception leaves the settings as they were. *)
Definition set (env : Env) (it : Item) (v : value) (settings : dict)
    : result dict :=
  let k := key it in
  match dict_get (config it) "type" with
  | None => Raise KeyError
  | Some typ =>
      v <- (if py_eq (kind it) (VStr "notice")
            then match dict_get (config it) "default" with
                 | None => Raise BadItem
                 | Some _ => Ok VNone
                 end
            else Ok v) ;;
      let v := match dict_get (config it) "default" with
               | Some dflt => if is_none_or_empty v then dflt else v
               | None => v
               end in
      v <- convert typ v ;;
      let multivalue := match dict_get (config it) "multivalue" with
                        | Some m => py_bool m
                        | None => false
                        end in
      xvalues <- (match v with
                  | VList l => if negb multivalue then Raise ValueError
                               else Ok l
                  | _ => Ok [v]
                  end) ;;
      _ <- validate env (config it) typ xvalues ;;
      commit settings k v
  end.

End ItemModel.

(* ================================================================== *)
(** ** The traversal engine: class [Interview] of interview.py         *)
(* ================================================================== *)

Module Engine.
Import Py.
Import ItemModel.

(** An [Interview] object: [self.home], [self.config] (the document) and the
    dict behind [self.settings]. *)
Record Interview : Type := {
  home : option string;
  config : value;
  settings : dict
}.

(** The classes of [item_cls_lookup]. *)
Inductive item_cls : Type :=
| Branch | Include | Notice | Question | Reset | Set_ | Update.

(** [item_cls_lookup.get(kind)], [None] for the [NoValue] sentinel. *)
Definition item_cls_lookup (kind : option value) : result (option item_cls) :=
  match kind with
  | Some (VStr k) =>
      Ok (if String.eqb k "branch" then Some Branch
          else if String.eqb k "include" then Some Include
          else if String.eqb k "notice" then Some Notice
          else if String.eqb k "question" then Some Question
          else if String.eqb k "reset" then Some Reset
          else if String.eqb k "set" then Some Set_
          else if String.eqb k "update" then Some Update
          else None)
  | Some (VList _) | Some (VDict _) => Raise TypeError
  | _ => Ok None
  end.

(** What one scan, or the handling of one node, ends with.  For a node
    [NotFound] means: go on with the next sibling.  [OutOfFuel] is the
    embedding's bound on nesting and restarts, not a Python result. *)
Inductive outcome : Type :=
| Found (it : Item)
| NotFound
| Raised (e : exn)
| OutOfFuel.

(** [Interview._load(path)]. *)
Definition _load (env : Env) (home : option string) (path : value)
    : result value :=
  path <- (match home with
           | Some h =>
               has_slash <- py_in (VStr "/") path ;;
               if negb has_slash
               then (p <- py_format path ;; Ok (VStr (h ++ "/" ++ p)))
               else Ok path
           | None => _ <- py_in (VStr "/") path ;; Ok path
           end) ;;
  match path with
  | VStr p => yaml_load env p
  | VInt _ | VBool _ => Raise NotModelled
  | _ => Raise TypeError
  end.

(** The [get_fqkey] defined inside [Interview.next]. *)
Definition get_fqkey (settings : dict) (item_config : dict) (k : value)
    : result value :=
  let section := dict_get item_config "section" in
  let k := match k with
           | VNone => match dict_get item_config "key" with
                      | Some v => v
                      | None => VNone
                      end
           | _ => k
           end in
  has_dot <- py_in (VStr ".") k ;;
  k <- (if negb has_dot
        then match section with
             | Some s =>
                 a <- py_format s ;; b <- py_format k ;;
                 Ok (VStr (a ++ "." ++ b))
             | None => Ok k
             end
        else Ok k) ;;
  match dict_get item_config "parameterize" with
  | Some counter_key =>
      count <- (match Store.get settings counter_key with
                | None => Ok 0
                | Some (Store.GValue v) => py_int v
                | Some (Store.GWrapper _) => Raise TypeError
                end) ;;
      a <- py_format k ;;
      Ok (VStr (a ++ "." ++ string_of_Z count))
  | None => Ok k
  end.

(** [x in c] when [x] comes from [settings.get(key, NoValue)]: the sentinel
    and a wrapper object equal nothing a container holds. *)
Definition got_in (x : option Store.got) (c : value) : result bool :=
  match x with
  | Some (Store.GValue v) => py_in v c
  | _ =>
      match c with
      | VList _ | VDict _ => Ok false
      | _ => Raise TypeError
      end
  end.

(** The test of a [branch] with a [match_key]: [true] when the branch is
    skipped. *)
Definition branch_skipped (it : Item) (settings : dict) : result bool :=
  match get it "match_key" with
  | None => Ok false
  | Some match_key =>
      match_key <- ItemModel.get_fqkey it settings match_key ;;
      let match_value := Store.get settings match_key in
      left <- (match get it "match_values" with
               | None => Ok true
               | Some mv => b <- got_in match_value mv ;; Ok (negb b)
               end) ;;
      if left
      then match get it "match_not_values" with
           | None => Ok true
           | Some mnv => got_in match_value mnv
           end
      else Ok false
  end.

(** [for key in ...: if test(key): del settings[key]]: the settings as the
    loop leaves them and whether it raised. *)
Fixpoint delete_where (test : value -> result bool) (ks : list value)
    (settings : dict) : dict * result unit :=
  match ks with
  | [] => (settings, Ok tt)
  | k :: rest =>
      match test k with
      | Raise e => (settings, Raise e)
      | Ok false => delete_where test rest settings
      | Ok true =>
          match Store.__delitem__ settings k with
          | Ok settings' => delete_where test rest settings'
          | Raise e => (settings, Raise e)
          end
      end
  end.

(** The [reset_keys] loop: each key goes through [get_fqkey] first. *)
Fixpoint delete_keys (it : Item) (ks : list value) (settings : dict)
    : dict * result unit :=
  match ks with
  | [] => (settings, Ok tt)
  | k :: rest =>
      match ItemModel.get_fqkey it settings k with
      | Raise e => (settings, Raise e)
      | Ok reset_key =>
          if Store.__contains__ settings reset_key
          then match Store.__delitem__ settings reset_key with
               | Ok settings' => delete_keys it rest settings'
               | Raise e => (settings, Raise e)
               end
          else delete_keys it rest settings
      end
  end.

(** The deletions of a [reset] node. *)
Definition reset_deletions (env : Env) (it : Item) (settings : dict)
    : dict * result unit :=
  match get it "reset_keys" with
  | Some reset_keys =>
      match py_iter reset_keys with
      | Ok ks => delete_keys it ks settings
      | Raise e => (settings, Raise e)
      end
  | None =>
      match get it "reset_key_regexp" with
      | Some reset_key_regexp =>
          match compile env reset_key_regexp with
          | Ok cre =>
              delete_where cre (map VStr (Store.keys settings)) settings
          | Raise e => (settings, Raise e)
          end
      | None => (settings, Raise ValueError)
      end
  end.

(** The block under [# set value as/if needed]. *)
Definition set_if_needed (env : Env) (cls : item_cls) (it : Item)
    (item_config : dict) (settings : dict) : dict * outcome :=
  if dict_mem item_config "key" then
    match ItemModel.get_fqkey it settings VNone with
    | Raise e => (settings, Raised e)
    | Ok k =>
        let curr_value := Store.get settings k in
        let force := match get it "force" with
                     | Some f => py_bool f
                     | None => false
                     end in
        if match curr_value with None => true | Some _ => false end || force
        then
          match cls with
          | Branch | Reset | Set_ =>
              let v := match get it "value" with
                       | Some v => v
                       | None => VNone
                       end in
              match ItemModel.set env it v settings with
              | Raise e => (settings, Raised e)
              | Ok settings' =>
                  match cls with
                  | Reset | Set_ => (settings', Raised RetryWalk)
                  | _ => (settings', NotFound)
                  end
              end
          | Notice | Question => (settings, Found it)
          | _ => (settings, NotFound)
          end
        else (settings, NotFound)
    end
  else (settings, NotFound).

(** The [update] case. *)
Definition do_update (env : Env) (it : Item) (settings : dict)
    : dict * outcome :=
  let k := match get it "key" with Some k => k | None => VNone end in
  match py_int (match get it "value" with Some v => v | None => VInt 1 end)
  with
  | Raise e => (settings, Raised e)
  | Ok v =>
      match read_counter settings k with
      | Raise e => (settings, Raised e)
      | Ok count =>
          match ItemModel.set env it (VInt (count + v)) settings with
          | Raise e => (settings, Raised e)
          | Ok settings' => (settings', NotFound)
          end
      end
  end.

(** The [include] case: the node's dict is emptied and refilled key by key,
    so a failing load leaves it half rewritten. *)
Definition do_include (env : Env) (hm : option string) (it : Item)
    (item_config : dict) : dict * outcome :=
  match get it "path" with
  | None => (item_config, NotFound)
  | Some path =>
      let c := dict_set [] "kind" (VStr "branch") in
      match py_format path with
      | Raise e => (c, Raised e)
      | Ok p =>
          let c := dict_set c "name" (VStr ("included-" ++ p)) in
          match _load env hm path with
          | Raise e => (c, Raised e)
          | Ok sub => (dict_set c "interview" sub, Raised RetryWalk)
          end
      end
  end.

Section Walk.

Variable env : Env.
Variable hm : option string.

(** The recursive call [walk(interview, walkpath + [i])]: the subtree as the
    call leaves it, the settings, and the outcome. *)
Variable rec : value -> list nat -> dict -> value * dict * outcome.

(** [# handle branch match now]. *)
Definition enter_branch (it : Item) (item_config : dict) (wp : list nat)
    (i : nat) (settings : dict) : dict * dict * outcome :=
  match get it "interview" with
  | None =>
      (* the [NoValue] class is true and cannot be iterated *)
      (item_config, settings, Raised TypeError)
  | Some interview =>
      if py_bool interview then
        let '(interview', settings', o) := rec interview (wp ++ [i]) settings in
        (dict_set item_config "interview" interview', settings', o)
      else (item_config, settings, NotFound)
  end.

(** The body of the [for] loop of [walk] for one node. *)
Definition walk_item (wp : list nat) (i : nat) (node : value)
    (settings : dict) : value * dict * outcome :=
  match node with
  | VDict item_config =>
      let disabled := match dict_get item_config "disabled" with
                      | Some d => py_bool d
                      | None => false
                      end in
      if disabled then (node, settings, NotFound)
      else
        let k := dict_get item_config "key" in
        match item_cls_lookup (dict_get item_config "kind") with
        | Raise e => (node, settings, Raised e)
        | Ok None => (node, settings, Raised (PyException "unknown kind"))
        | Ok (Some cls) =>
            match ItemModel.__init__ env wp k item_config with
            | (c, Raise e) => (VDict c, settings, Raised e)
            | (c, Ok it) =>
                match cls with
                | Include =>
                    let '(c', o) := do_include env hm it c in
                    (VDict c', settings, o)
                | Update =>
                    let '(s', o) := do_update env it settings in
                    (VDict c, s', o)
                | Branch =>
                    match branch_skipped it settings with
                    | Raise e => (VDict c, settings, Raised e)
                    | Ok true => (VDict c, settings, NotFound)
                    | Ok false =>
                        match set_if_needed env cls it c settings with
                        | (s', NotFound) =>
                            let '(c', s'', o) := enter_branch it c wp i s' in
                            (VDict c', s'', o)
                        | (s', o) => (VDict c, s', o)
                        end
                    end
                | Reset =>
                    match reset_deletions env it settings with
                    | (s', Raise e) => (VDict c, s', Raised e)
                    | (s', Ok _) =>
                        let '(s'', o) := set_if_needed env cls it c s' in
                        (VDict c, s'', o)
                    end
                | Notice | Question | Set_ =>
                    let '(s', o) := set_if_needed env cls it c settings in
                    (VDict c, s', o)
                end
            end
        end
  | _ => (node, settings, Raised AttributeError)
  end.

(** The [for] loop of [walk] from index [i] on. *)
Fixpoint walk_items (wp : list nat) (i : nat) (nodes : list value)
    (settings : dict) : list value * dict * outcome :=
  match nodes with
  | [] => ([], settings, NotFound)
  | node :: rest =>
      match walk_item wp i node settings with
      | (node', settings', NotFound) =>
          let '(rest', settings'', o) := walk_items wp (S i) rest settings' in
          (node' :: rest', settings'', o)
      | (node', settings', o) => (node' :: rest, settings', o)
      end
  end.

End Walk.

(** [walk(config, walkpath)].  [fuel] bounds the nesting of branches. *)
Fixpoint walk (env : Env) (hm : option string) (fuel : nat) (cfg : value)
    (wp : list nat) (settings : dict) : value * dict * outcome :=
  match fuel with
  | O => (cfg, settings, OutOfFuel)
  | S fuel' =>
      match py_iter cfg with
      | Raise e => (cfg, settings, Raised e)
      | Ok nodes =>
          let '(nodes', settings', o) :=
            walk_items env hm (walk env hm fuel') wp 0 nodes settings in
          (match cfg with VList _ => VList nodes' | _ => cfg end, settings', o)
      end
  end.

(** [Interview.next()]: scan again after each [RetryWalk].  [retries] bounds
    the number of scans, [depth] the nesting. *)
Fixpoint next (env : Env) (retries depth : nat) (itv : Interview)
    : Interview * outcome :=
  match retries with
  | O => (itv, OutOfFuel)
  | S retries' =>
      let '(cfg', settings', o) :=
        walk env (home itv) depth (config itv) [] (settings itv) in
      let itv' := {| home := home itv; config := cfg'; settings := settings' |} in
      match o with
      | Raised RetryWalk => next env retries' depth itv'
      | _ => (itv', o)
      end
  end.

(** The function [walk] that [Interview.check] defines.  Its recursive call
    passes the node's dict itself, whose iteration yields its keys. *)
Definition check_node (env : Env) (hm : option string)
    (rec : value -> option (list nat) -> value * result unit)
    (walkpath : option (list nat)) (i : nat) (node : value)
    : value * result unit :=
  match node with
  | VDict item_config =>
      match dict_get item_config "kind" with
      | None => (node, Raise BadItem)
      | Some kind =>
          let after_include : dict * result unit :=
            if py_eq kind (VStr "include") then
              match dict_get item_config "path" with
              | None => (item_config, Raise BadItem)
              | Some path =>
                  match path with
                  | VStr p =>
                      if negb (path_exists env p)
                      then (item_config, Raise BadItem)
                      else
                        let c := dict_set [] "kind" (VStr "branch") in
                        let c := dict_set c "name" (VStr ("included-" ++ p)) in
                        match _load env hm path with
                        | Ok sub => (dict_set c "interview" sub, Ok tt)
                        | Raise e => (c, Raise e)
                        end
                  | VInt _ | VBool _ => (item_config, Raise NotModelled)
                  | _ => (item_config, Raise TypeError)
                  end
              end
            else (item_config, Ok tt) in
          match after_include with
          | (c, Raise e) => (VDict c, Raise e)
          | (c, Ok _) =>
              if py_eq kind (VStr "branch") then
                match walkpath with
                | None => (VDict c, Raise TypeError)
                | Some wp =>
                    let '(_, r) := rec (VDict c) (Some (wp ++ [i])) in
                    (VDict c, r)
                end
              else if py_eq kind (VStr "question") || py_eq kind (VStr "set")
              then
                if dict_mem c "key" && dict_mem c "title" && dict_mem c "text"
                then (VDict c, Ok tt)
                else (VDict c, Raise BadItem)
              else (VDict c, Ok tt)
          end
      end
  | _ => (node, Raise AttributeError)
  end.

Fixpoint check_nodes (env : Env) (hm : option string)
    (rec : value -> option (list nat) -> value * result unit)
    (walkpath : option (list nat)) (i : nat) (nodes : list value)
    : list value * result unit :=
  match nodes with
  | [] => ([], Ok tt)
  | node :: rest =>
      match check_node env hm rec walkpath i node with
      | (node', Ok _) =>
          let '(rest', r) := check_nodes env hm rec walkpath (S i) rest in
          (node' :: rest', r)
      | (node', Raise e) => (node' :: rest, Raise e)
      end
  end.

Fixpoint check_walk (env : Env) (hm : option string) (fuel : nat)
    (cfg : value) (walkpath : option (list nat)) : value * result unit :=
  match fuel with
  | O => (cfg, Raise NotModelled)
  | S fuel' =>
      match py_iter cfg with
      | Raise e => (cfg, Raise e)
      | Ok nodes =>
          let '(nodes', r) :=
            check_nodes env hm (check_walk env hm fuel') walkpath 0 nodes in
          (match cfg with VList _ => VList nodes' | _ => cfg end, r)
      end
  end.

(** [Interview.check()]: the body is the definition of [walk] and nothing
    after it, so the method returns [None] without a call to [walk]. *)
Definition check (env : Env) (itv : Interview) : Interview * result unit :=
  let walk := check_walk env (home itv) in
  (itv, Ok tt).

End Engine.

(* ================================================================== *)
(** ** Vocabulary of the properties                                    *)
(* ================================================================== *)

Module Spec.
Import Py.

(** The path [p] resolves, in the store [d], to a value that is no mapping. *)
Definition leaf_at (d : dict) (p : list string) : Prop :=
  exists v, Store._find (VDict d) p = Ok v /\ is_dict v = false.

(** Some proper, non-empty prefix of the path [keys] holds a leaf. *)
Definition conflict (d : dict) (keys : list string) : Prop :=
  exists p q, keys = p ++ q /\ p <> [] /\ q <> [] /\ leaf_at d p.

(** The dotted path that [_walk] builds for the segments [keys] below the
    prefix [pref]. *)
Fixpoint flat (pref : option string) (keys : list string) : string :=
  match keys with
  | [] => match pref with Some p => p | None => "" end
  | k :: ks => flat (Some (Store.extend_pref pref k)) ks
  end.

(** The fully qualified key in the words of the design document:
    [[section.]key[.counter]], the section only before a key without a dot. *)
Definition fqk (section : option string) (key : string) (counter : option Z)
    : string :=
  let base := match section with
              | Some s => if substringb "." key then key
                          else (s ++ "." ++ key)%string
              | None => key
              end in
  match counter with
  | Some c => (base ++ "." ++ string_of_Z c)%string
  | None => base
  end.

(** The key a call of [get_fqkey] works on: its argument, or the node's own
    [key] when the argument is [None]. *)
Definition effective_key (cfg : dict) (k : value) : value :=
  match k with
  | VNone => match dict_get cfg "key" with Some v => v | None => VNone end
  | _ => k
  end.

(** The text of a range: [lo-hi], or [lo-hi:step]. *)
Definition range_text (lo hi : string) (step : option string) : string :=
  match step with
  | Some st => lo ++ "-" ++ hi ++ ":" ++ st
  | None => lo ++ "-" ++ hi
  end.

(** The step a range text declares: 1 when it is omitted or empty. *)
Definition declared_step (step : option string) : result Z :=
  match step with
  | None => Ok 1
  | Some st => if String.eqb st "" then Ok 1 else py_int (VStr st)
  end.

(** Ascending order on integers, as a stable insertion. *)
Fixpoint insert_Z (x : Z) (l : list Z) : list Z :=
  match l with
  | [] => [x]
  | y :: l' => if y <? x then y :: insert_Z x l' else x :: y :: l'
  end.

Fixpoint sort_Z (l : list Z) : list Z :=
  match l with
  | [] => []
  | x :: l' => insert_Z x (sort_Z l')
  end.

(** The node has an allowed-value set to resolve: [values] itself, or one of
    the fields that load it. *)
Definition values_source (c : dict) : Prop :=
  dict_mem c "values" = true
  \/ dict_mem c "values_from_directory" = true
  \/ dict_mem c "values_from_file" = true.

(** A node without run-time fields ([default_from_file], [values_from_*],
    [values_regexp]) and without [values]: the constructor has nothing to
    rewrite in it. *)
Definition plain (c : dict) : Prop :=
  dict_get c "default_from_file" = None
  /\ dict_get c "values_from_directory" = None
  /\ dict_get c "values_from_file" = None
  /\ dict_get c "values_regexp" = None
  /\ dict_get c "values" = None.

(** The item [walk] constructs for the node [c] at the walk path [wp]. *)
Definition item_of (wp : list nat) (c : dict) : ItemModel.Item :=
  {| ItemModel.walkpath := wp;
     ItemModel.key := dict_get c "key";
     ItemModel.config := c;
     ItemModel.kind := match dict_get c "kind" with
                       | Some v => v
                       | None => VNone
                       end |}.

(** An [update] node that counts in the setting [k] by [v]: enabled, of
    type [int], with no validation constraint of its own; [v] is the integer
    of its [value], 1 when it declares none. *)
Definition counting_update (c : dict) (k : string) (v : Z) : Prop :=
  plain c
  /\ dict_get c "kind" = Some (VStr "update")
  /\ dict_get c "disabled" = None
  /\ dict_get c "key" = Some (VStr k)
  /\ dict_get c "type" = Some (VStr "int")
  /\ dict_get c "required" = None
  /\ dict_get c "regexp" = None
  /\ dict_get c "range" = None
  /\ py_int (match dict_get c "value" with
             | Some x => x
             | None => VInt 1
             end) = Ok v.

(** The interview whose document is the single node [c]. *)
Definition solo (hm : option string) (c : dict) (s : dict)
    : Engine.Interview :=
  {| Engine.home := hm; Engine.config := VList [VDict c];
     Engine.settings := s |}.

End Spec.

(* ================================================================== *)
(** ** Concrete documents and stores                                   *)
(* ================================================================== *)

Module Examples.
Import Py.
Import ItemModel.
Import Engine.

(** A world with no readable file; its regular-expression engine knows the
    one pattern of the reset scenario, [^temp\..*], which matches exactly
    the strings that begin with [temp.]. *)
Definition bare_env : Env :=
  {| file_read := fun _ => Raise OSError;
     os_walk_first := fun _ => None;
     re_compile := fun pat =>
       if String.eqb pat "^temp\..*"
       then Ok (fun s => String.prefix "temp." s)
       else Raise ReError;
     yaml_load := fun _ => Raise OSError;
     path_exists := fun _ => false |}.

Definition interview_of (doc : list value) (settings : dict) : Interview :=
  {| Engine.home := None; Engine.config := VList doc;
     Engine.settings := settings |}.

(** A question with a section. *)
Definition host_question : dict :=
  [("kind", VStr "question"); ("section", VStr "net"); ("key", VStr "host");
   ("type", VStr "str"); ("title", VStr "Host"); ("text", VStr "Host name?")].

Definition host_item : Item := Spec.item_of [] host_question.

(** A [set] node with a section. *)
Definition mode_set : dict :=
  [("kind", VStr "set"); ("section", VStr "net"); ("key", VStr "mode");
   ("type", VStr "str"); ("value", VStr "fast");
   ("title", VStr "Mode"); ("text", VStr "Mode")].

(** A parameterized question: the counter is the setting [n]. *)
Definition disk_question : dict :=
  [("kind", VStr "question"); ("section", VStr "disk"); ("key", VStr "size");
   ("parameterize", VStr "n"); ("type", VStr "int");
   ("title", VStr "Size"); ("text", VStr "Size?")].

Definition disk_item : Item := Spec.item_of [] disk_question.

(** The question of the range example. *)
Definition odd_question : dict :=
  [("kind", VStr "question"); ("key", VStr "n"); ("type", VStr "int");
   ("range", VStr "1-10:2"); ("title", VStr "N"); ("text", VStr "N?")].

Definition odd_item : Item := Spec.item_of [] odd_question.

(** A question whose allowed values are to be sorted downwards. *)
Definition colour_question : dict :=
  [("kind", VStr "question"); ("key", VStr "colour"); ("type", VStr "str");
   ("values", VList [VStr "red"; VStr "blue"]); ("values_sort", VStr "desc");
   ("title", VStr "Colour"); ("text", VStr "Colour?")].

(** The reset scenario: a store with two settings under [temp] and one
    elsewhere, and a [reset] node with the scenario's pattern. *)
Definition temp_store : dict :=
  [("temp", VDict [("a", VInt 1); ("b", VStr "x")]); ("keep", VInt 3)].

Definition temp_reset : dict :=
  [("kind", VStr "reset"); ("reset_key_regexp", VStr "^temp\..*")].

(** A [reset] node with nothing to delete and no [key], before a question. *)
Definition idle_reset : dict :=
  [("kind", VStr "reset"); ("reset_keys", VList [])].

Definition name_question : dict :=
  [("kind", VStr "question"); ("key", VStr "name"); ("type", VStr "str");
   ("title", VStr "Name"); ("text", VStr "Name?")].

(** A [reset] node with a [key] that the store already holds. *)
Definition keyed_reset : dict :=
  [("kind", VStr "reset"); ("reset_keys", VList []); ("key", VStr "stage");
   ("type", VStr "int"); ("value", VInt 1)].

(** Documents that the structural check is meant to refuse. *)
Definition no_kind_doc : list value := [VDict [("name", VStr "x")]].
Definition bad_kind_doc : list value := [VDict [("kind", VStr "bogus")]].
Definition no_path_doc : list value := [VDict [("kind", VStr "include")]].
Definition no_file_doc : list value :=
  [VDict [("kind", VStr "include"); ("path", VStr "missing.yaml")]].
Definition no_text_doc : list value :=
  [VDict [("kind", VStr "question"); ("key", VStr "k");
          ("title", VStr "t")]].

(** An [update] node, alone and before a pending question. *)
Definition count_update : dict :=
  [("kind", VStr "update"); ("key", VStr "count"); ("type", VStr "int")].

End Examples.

(* ================================================================== *)
(** ** Shapes of stores and paths                                      *)
(* ================================================================== *)

Module Shape.
Import Py.

(** Two paths part ways: after a common beginning each has a next segment
    and the two differ. *)
Definition diverge (p q : list string) : Prop :=
  exists c a b p' q', p = c ++ a :: p' /\ q = c ++ b :: q' /\ a <> b.

(** A segment that a dotted key can name: not empty, without separator. *)
Definition seg_ok (k : string) : bool :=
  negb (String.eqb k "") && negb (substringb "." k).

Fixpoint unique (ks : list string) : bool :=
  match ks with
  | [] => true
  | k :: rest => negb (existsb (String.eqb k) rest) && unique rest
  end.

(** A store as a Python dict built through dotted keys is: every mapping has
    each key once, and every key is a proper segment. *)
Fixpoint wf (v : value) {struct v} : bool :=
  match v with
  | VDict d =>
      unique (map fst d)
      && (fix all (d : list (string * value)) : bool :=
            match d with
            | [] => true
            | (k, x) :: d' => seg_ok k && wf x && all d'
            end) d
  | _ => true
  end.

(** The number of nodes of a value, mappings and their entries counted. *)
Fixpoint size (v : value) {struct v} : nat :=
  match v with
  | VDict d =>
      S ((fix sum (d : list (string * value)) : nat :=
            match d with
            | [] => O
            | (_, x) :: d' => (size x + sum d')%nat
            end) d)
  | _ => 1%nat
  end.

(** A text of white space only (the empty text included). *)
Fixpoint blank (s : string) : bool :=
  match s with
  | EmptyString => true
  | String c s' => is_space c && blank s'
  end.

(** Two node configurations that agree on every field but those of [ks]. *)
Definition agree_except (ks : list string) (c c' : dict) : Prop :=
  forall k, ~ In k ks -> dict_get c k = dict_get c' k.

(** Two items that differ at most in the fields [ks] of their node. *)
Definition same_but (ks : list string) (it it' : ItemModel.Item) : Prop :=
  ItemModel.key it = ItemModel.key it'
  /\ ItemModel.kind it = ItemModel.kind it'
  /\ agree_except ks (ItemModel.config it) (ItemModel.config it').

End Shape.

(* ================================================================== *)
(** ** Kinds of nodes the scan meets                                   *)
(* ================================================================== *)

Module Scan.
Import Py.

(** The truth value of an optional flag of a node. *)
Definition flag (c : dict) (f : string) : bool :=
  match dict_get c f with
  | Some v => py_bool v
  | None => false
  end.

(** A node the constructor leaves alone, enabled, of the kind [kind], and
    without [section] and [parameterize], so that a key of it is its own
    fully qualified key. *)
Definition bare_node (kind : string) (c : dict) : Prop :=
  Spec.plain c
  /\ dict_get c "kind" = Some (VStr kind)
  /\ flag c "disabled" = false
  /\ dict_get c "section" = None
  /\ dict_get c "parameterize" = None.

(** A question or notice with the key [k]. *)
Definition asks (c : dict) (k : string) : Prop :=
  (bare_node "question" c \/ bare_node "notice" c)
  /\ dict_get c "key" = Some (VStr k).

(** Whether the scan stops at the question: its key is absent from the
    settings, or [force] is set. *)
Definition pending (s : dict) (c : dict) (k : string) : bool :=
  match Store.get s (VStr k) with
  | None => true
  | Some _ => flag c "force"
  end.

(** The first pending question of a list of questions with their keys. *)
Fixpoint first_pending (s : dict) (qs : list (dict * string))
    : option dict :=
  match qs with
  | [] => None
  | (c, k) :: rest =>
      if pending s c k then Some c else first_pending s rest
  end.

(** What a scan over questions ends with. *)
Definition asked (wp : list nat) (o : option dict) : Engine.outcome :=
  match o with
  | Some c => Engine.Found (Spec.item_of wp c)
  | None => Engine.NotFound
  end.

(** Whether the value [g] that [settings.get] returned is one of [l]: the
    sentinel and a wrapper are in no list. *)
Definition member (g : option Store.got) (l : list value) : bool :=
  match g with
  | Some (Store.GValue v) => existsb (py_eq v) l
  | _ => false
  end.

(** A conditional branch without a key of its own: it tests the setting
    [mk] against the lists [mv] ([match_values]) and [mnv]
    ([match_not_values]), either of which may be absent, and holds the
    subtree [sub]. *)
Definition tests (c : dict) (mk : string) (mv mnv : option (list value))
    (sub : value) : Prop :=
  bare_node "branch" c
  /\ dict_get c "key" = None
  /\ dict_get c "match_key" = Some (VStr mk)
  /\ dict_get c "match_values" = option_map VList mv
  /\ dict_get c "match_not_values" = option_map VList mnv
  /\ dict_get c "interview" = Some sub.

(** The condition under which the scan passes the branch by. *)
Definition passes_by (s : dict) (mk : string) (mv mnv : option (list value))
    : bool :=
  let g := Store.get s (VStr mk) in
  match mv with None => true | Some l => negb (member g l) end
  && match mnv with None => true | Some l => member g l end.

(** The file an include path names: a path without [/] is taken below the
    home directory of the interview. *)
Definition resolved (hm : option string) (p : string) : string :=
  match hm with
  | Some h => if substringb "/" p then p else (h ++ "/" ++ p)%string
  | None => p
  end.

(** The branch an [include] of the path [p] is rewritten into. *)
Definition included (p : string) (sub : value) : dict :=
  [("kind", VStr "branch"); ("name", VStr ("included-" ++ p));
   ("interview", sub)].

(** The same before the loaded subtree is attached. *)
Definition half_included (p : string) : dict :=
  [("kind", VStr "branch"); ("name", VStr ("included-" ++ p))].

(** A [set] node with the key [k]. *)
Definition sets (c : dict) (k : string) : Prop :=
  bare_node "set" c /\ dict_get c "key" = Some (VStr k).

(** The value a node commits by itself: its [value] field, [None]
    without. *)
Definition own_value (c : dict) : value :=
  match dict_get c "value" with Some v => v | None => VNone end.


(** The node after the constructor has read its default from a file. *)
Definition with_default (c : dict) (text : string) : dict :=
  dict_set c "default" (VStr text).

(** The interview with the home [hm], the document [doc] and the settings
    [s]. *)
Definition interview (hm : option string) (doc : list value) (s : dict)
    : Engine.Interview :=
  {| Engine.home := hm; Engine.config := VList doc; Engine.settings := s |}.

End Scan.

(* ================================================================== *)
(** ** More concrete nodes                                             *)
(* ================================================================== *)

Module Nodes.
Import Py.

(** A question with allowed values, and the same with a range that none of
    them lies in. *)
Definition pick_question : dict :=
  [("kind", VStr "question"); ("key", VStr "n"); ("type", VStr "int");
   ("values", VList [VInt 1; VInt 2])].

Definition pick_ranged : dict := pick_question ++ [("range", VStr "5-9")].


(** A multi-valued [csv] question, and the same marked [required]. *)
Definition tags_question : dict :=
  [("kind", VStr "question"); ("key", VStr "tags"); ("type", VStr "csv");
   ("multivalue", VBool true)].

Definition tags_required : dict :=
  tags_question ++ [("required", VBool true)].

(** A whitespace-separated list question without [multivalue]. *)
Definition hosts_question : dict :=
  [("kind", VStr "question"); ("key", VStr "hosts"); ("type", VStr "ssv")].

(** A branch entered when the setting [os] is [ubuntu] or [centos], with
    one question in it. *)
Definition os_branch : dict :=
  [("kind", VStr "branch"); ("match_key", VStr "os");
   ("match_values", VList [VStr "ubuntu"; VStr "centos"]);
   ("interview", VList [VDict Examples.name_question])].

(** An include of the file [more.yaml], and a world in which that file,
    below the directory [/etc], holds one question. *)
Definition more_include : dict :=
  [("kind", VStr "include"); ("path", VStr "more.yaml")].

Definition more_env : Env :=
  {| file_read := fun _ => Raise OSError;
     os_walk_first := fun _ => None;
     re_compile := fun _ => Raise ReError;
     yaml_load := fun p =>
       if String.eqb p "/etc/more.yaml"
       then Ok (VList [VDict Examples.name_question])
       else Raise OSError;
     path_exists := fun p => String.eqb p "/etc/more.yaml" |}.

(** A [set] node, and the same with [force]. *)
Definition stage_set : dict :=
  [("kind", VStr "set"); ("key", VStr "stage"); ("type", VStr "int");
   ("value", VInt 1)].

Definition stage_forced : dict := stage_set ++ [("force", VBool true)].



(** Two free-text questions of one section of the settings, and a script
    that answers both. *)
Definition owner_question : dict :=
  [("kind", VStr "question"); ("key", VStr "site.owner"); ("type", VStr "str");
   ("title", VStr "Owner"); ("text", VStr "Who owns the site?")].

Definition contact_question : dict :=
  [("kind", VStr "question"); ("key", VStr "site.contact");
   ("type", VStr "str"); ("title", VStr "Contact"); ("text", VStr "Mail?")].

Definition site_script : list string :=
  ["====="; "the owner"; "answer: alice"; "answer:   ops@example.org  "].

(** A reset of the setting [keep]. *)
Definition keep_reset : dict :=
  [("kind", VStr "reset"); ("reset_keys", VList [VStr "keep"])].

(** A question whose default is read from the file [/etc/shell], which
    holds the line [bash], and a world with that file. *)
Definition shell_question : dict :=
  [("kind", VStr "question"); ("key", VStr "shell"); ("type", VStr "str");
   ("default_from_file", VStr "/etc/shell");
   ("values", VList [VStr "bash"; VStr "zsh"])].

Definition shell_text : string := "bash" ++ String "010"%char EmptyString.

Definition shell_env : Env :=
  {| file_read := fun p =>
       if String.eqb p "/etc/shell" then Ok shell_text else Raise OSError;
     os_walk_first := fun _ => None;
     re_compile := fun _ => Raise ReError;
     yaml_load := fun _ => Raise OSError;
     path_exists := fun p => String.eqb p "/etc/shell" |}.

End Nodes.

(* ================================================================== *)
(** ** The command line: [lib/hpct-interview.py]                       *)
(* ================================================================== *)

Module Cli.

(** The variables the argument loop fills. *)
Record Args : Type := {
  answers_filename : option string;
  interview_filename : option string;
  output_filename : option string;
  results_filename : option string;
  verbose : bool
}.

(** How the parsing block ends: the program goes on with the variables
    set, or [print_usage()] and [sys.exit(0)], or an exception whose text
    goes to the standard error before [sys.exit(1)]. *)
Inductive parsed : Type :=
| Run (a : Args)
| Usage
| Fail (msg : string).

(** How the [while args:] loop ends: left (by [break] or on the empty
    list) with the variables and what remains of [args], or stopped. *)
Inductive scanned : Type :=
| Left (a : Args) (rest : list string)
| Stop (p : parsed).

Definition initial : Args :=
  {| answers_filename := None; interview_filename := None;
     output_filename := None; results_filename := None;
     verbose := false |}.

Definition with_output (a : Args) (o : string) : Args :=
  {| answers_filename := answers_filename a;
     interview_filename := interview_filename a;
     output_filename := Some o;
     results_filename := results_filename a;
     verbose := verbose a |}.

Definition with_verbose (a : Args) (b : bool) : Args :=
  {| answers_filename := answers_filename a;
     interview_filename := interview_filename a;
     output_filename := output_filename a;
     results_filename := results_filename a;
     verbose := b |}.

Definition with_interview (a : Args) (f : string) : Args :=
  {| answers_filename := answers_filename a;
     interview_filename := Some f;
     output_filename := output_filename a;
     results_filename := results_filename a;
     verbose := verbose a |}.

Definition with_answers (a : Args) (f : string) : Args :=
  {| answers_filename := Some f;
     interview_filename := interview_filename a;
     output_filename := output_filename a;
     results_filename := results_filename a;
     verbose := verbose a |}.

Definition with_results (a : Args) (f : string) : Args :=
  {| answers_filename := answers_filename a;
     interview_filename := interview_filename a;
     output_filename := output_filename a;
     results_filename := Some f;
     verbose := verbose a |}.

(** The loop [while args: arg = args.pop(0) ...].  [args.pop(0)] on the
    empty list raises [IndexError], whose text is the one given. *)
Fixpoint scan (a : Args) (args : list string) : scanned :=
  match args with
  | [] => Left a []
  | arg :: args1 =>
      if String.eqb arg "-h" || String.eqb arg "--help" then Stop Usage
      else if String.eqb arg "-o" then
        match args1 with
        | [] => Stop (Fail "pop from empty list")
        | o :: args2 => scan (with_output a o) args2
        end
      else if String.eqb arg "-q" then scan (with_verbose a false) args1
      else if String.prefix "-" arg then Left a args1
      else
        let a := with_interview a arg in
        match args1 with
        | [] => Left a []
        | ans :: args2 =>
            let a := with_answers a ans in
            match args2 with
            | [] => Left a []
            | res :: args3 => Left (with_results a res) args3
            end
        end
  end.

(** The [try] block of the script on [sys.argv[1:]]. *)
Definition parse (args : list string) : parsed :=
  match scan initial args with
  | Stop p => p
  | Left a rest =>
      match rest, interview_filename a with
      | [], Some _ => Run a
      | _, _ => Fail "bad/missing arguments"
      end
  end.

(** The usage line, [[-q] [-o <output>] <interviewfile> [<answersfile>
    [<resultsfile>]]], as a grammar: options, then the interview file, then
    at most two more words. *)
Inductive opt : Type :=
| Quiet
| Output (o : string).

Definition words (o : opt) : list string :=
  match o with
  | Quiet => ["-q"]
  | Output o => ["-o"; o]
  end.

Definition command (opts : list opt) (file : string) (more : list string)
    : list string :=
  flat_map words opts ++ file :: more.

(** The output file of a sequence of options: that of the last [-o]. *)
Fixpoint chosen_output (opts : list opt) (o : option string) : option string :=
  match opts with
  | [] => o
  | Quiet :: rest => chosen_output rest o
  | Output x :: rest => chosen_output rest (Some x)
  end.

Definition described (opts : list opt) (file : string) (more : list string)
    : Args :=
  {| answers_filename := nth_error more 0;
     interview_filename := Some file;
     output_filename := chosen_output opts None;
     results_filename := nth_error more 1;
     verbose := false |}.

(** A word that ends the options without being the interview file. *)
Definition stray (w : string) : bool :=
  String.prefix "-" w
  && negb (String.eqb w "-h" || String.eqb w "--help"
           || String.eqb w "-o" || String.eqb w "-q").

End Cli.

(* ================================================================== *)
(** ** [Interview.test] on prepared answers                            *)
(* ================================================================== *)

Module Session.
Import Py ItemModel Engine.

(** [line[n:]]. *)
Fixpoint drop (n : nat) (s : string) : string :=
  match n, s with
  | S n', String _ s' => drop n' s'
  | _, _ => s
  end.

Definition is_answer (line : string) : bool := String.prefix "answer:" line.

(** The loop [while answers: line = answers.pop(0) ...]: the reply of the
    first line that starts with [answer:] and the lines after it; [None]
    when the loop runs into its [else], with every line popped.  The lines
    passed over are collected for a print that is switched off. *)
Fixpoint take_answer (answers : list string) : option (string * list string) :=
  match answers with
  | [] => None
  | line :: rest =>
      if is_answer line then Some (strip (drop 7 line), rest)
      else take_answer rest
  end.

(** How [test] ends.  [Finished u]: [next()] returned [None]; [u] tells
    whether "there are unused answers" is printed.  [Exit1]: the handler
    of [Exception] ran, [sys.exit(1)].  [Propagated e]: [next()] raised
    [e], which [test] does not catch.  [Unmodelled]: [Item.set] left the
    embedding.  [MoreScans] and [MoreRounds] are the embedding's bounds on
    the scans of one [next()] and on the rounds of the loop. *)
Inductive ending : Type :=
| Finished (unused : bool)
| Exit1
| Propagated (e : exn)
| Unmodelled
| MoreScans
| MoreRounds.

Definition with_settings (itv : Interview) (s : dict) : Interview :=
  {| home := home itv; config := config itv; settings := s |}.

Definition is_nil {A : Type} (l : list A) : bool :=
  match l with [] => true | _ => false end.

(** [Interview.test(answers)] for [answers != None]: the interview, the
    answers left and the ending.  What is printed is not part of the
    embedding, and [verbose] only selects what is printed. *)
Fixpoint test (env : Env) (retries depth rounds : nat) (itv : Interview)
    (answers : list string) : Interview * list string * ending :=
  match rounds with
  | O => (itv, answers, MoreRounds)
  | S rounds' =>
      let '(itv1, o) := next env retries depth itv in
      match o with
      | NotFound => (itv1, answers, Finished (negb (is_nil answers)))
      | Raised e => (itv1, answers, Propagated e)
      | OutOfFuel => (itv1, answers, MoreScans)
      | Found item =>
          match take_answer answers with
          | None => (itv1, [], Exit1)
          | Some (reply, rest) =>
              match set env item (VStr reply) (settings itv1) with
              | Ok s' =>
                  test env retries depth rounds' (with_settings itv1 s') rest
              | Raise NotModelled => (itv1, rest, Unmodelled)
              | Raise _ => (itv1, rest, Exit1)
              end
          end
      end
  end.

(** The replies a list of lines holds, in order. *)
Definition replies (lines : list string) : list string :=
  map (fun line => strip (drop 7 line)) (filter is_answer lines).

(** A question that takes any text: of type [str], without default and
    without constraint, not forced, and with the key [k] as its fully
    qualified key. *)
Definition free_text (c : dict) (k : string) : Prop :=
  Scan.bare_node "question" c
  /\ dict_get c "key" = Some (VStr k)
  /\ dict_get c "type" = Some (VStr "str")
  /\ dict_get c "default" = None
  /\ dict_get c "regexp" = None
  /\ dict_get c "range" = None
  /\ Scan.flag c "force" = false.

(** The keys of the questions part ways pairwise. *)
Fixpoint apart (ks : list string) : Prop :=
  match ks with
  | [] => True
  | k :: rest =>
      Forall (fun k' => Shape.diverge (split_on Store.sep k')
                          (split_on Store.sep k)) rest
      /\ apart rest
  end.

(** A question or notice with the key [k], without a dot, in the section
    [sec]: the scan waits for [sec.k]. *)
Definition sectioned (c : dict) (sec k : string) : Prop :=
  Spec.plain c
  /\ (dict_get c "kind" = Some (VStr "question")
      \/ dict_get c "kind" = Some (VStr "notice"))
  /\ Scan.flag c "disabled" = false
  /\ dict_get c "section" = Some (VStr sec)
  /\ dict_get c "parameterize" = None
  /\ dict_get c "key" = Some (VStr k)
  /\ substringb "." k = false.

End Session.

(* ================================================================== *)
(** ** [Interview.compare_results]                                     *)
(* ================================================================== *)

Module Report.
Import Py.

(** One block of the report: the key, what the settings and the expected
    results hold for it ([None] for the [NoValue] sentinel), and whether
    the mismatch line is printed. *)
Record row : Type := {
  key : string;
  rvalue : option Store.got;
  evalue : option value;
  mismatch : bool
}.

(** [sorted(...)] on strings: ascending by code points. *)
Fixpoint insert (k : string) (l : list string) : list string :=
  match l with
  | [] => [k]
  | k' :: l' => if String.leb k k' then k :: l else k' :: insert k l'
  end.

Fixpoint sort (l : list string) : list string :=
  match l with
  | [] => []
  | k :: l' => insert k (sort l')
  end.

(** [sorted(set(ekeys).union(rkeys))]. *)
Definition all_keys (ekeys rkeys : list string) : list string :=
  sort (nodup String.string_dec (ekeys ++ rkeys)).

(** [evalue != rvalue].  The sentinel equals itself only; a wrapper that
    [get] hands out for a nested dict is a new object of a class without
    [__eq__], which equals nothing else. *)
Definition differs (e : option value) (r : option Store.got) : bool :=
  match e, r with
  | None, None => false
  | Some x, Some (Store.GValue y) => negb (py_eq x y)
  | _, _ => true
  end.

Definition row_of (settings : dict) (e : dict) (k : string) : row :=
  let e_value := dict_get e k in
  let r_value := Store.get settings (VStr k) in
  {| key := k; rvalue := r_value; evalue := e_value;
     mismatch := differs e_value r_value |}.

(** [compare_results(expected)]: the blocks it prints, in order.  A value
    without [keys] raises [AttributeError]. *)
Definition compare_results (settings : dict) (expected : value)
    : result (list row) :=
  match expected with
  | VDict e => Ok (map (row_of settings e)
                     (all_keys (dict_keys e) (Store.keys settings)))
  | _ => Raise AttributeError
  end.

(** The report shows no mismatch. *)
Definition clean (rows : list row) : bool :=
  forallb (fun r => negb (mismatch r)) rows.

End Report.

(* ================================================================== *)
(** * Properties                                                       *)
(* ================================================================== *)

Import Py.

(** ** The result monad *)

Lemma bind_ok {A B : Type} (m : result A) (k : A -> result B) (b : B) :
  bind m k = Ok b -> exists a, m = Ok a /\ k a = Ok b.
Proof.
  destruct m as [a|e]; simpl; intro H; [now exists a | discriminate].
Qed.

Lemma bind_raise {A B : Type} (m : result A) (k : A -> result B) (e : exn) :
  m = Raise e -> bind m k = Raise e.
Proof. now intros ->. Qed.

(** Splits a hypothesis [bind m k = Ok b] into its two halves. *)
Ltac bind_inv H :=
  let a := fresh "a" in
  let Ha := fresh "Ha" in
  apply bind_ok in H; destruct H as [a [Ha H]].

(** Splits on the scrutinee of the innermost [match]. *)
Ltac step_cases :=
  repeat match goal with
         | |- context [match ?e with _ => _ end] =>
             lazymatch e with
             | context [match _ with _ => _ end] => fail
             | _ => destruct e eqn:?
             end
         end.

(** ** Strings *)

Lemma split_on_not_nil (c : ascii) (s : string) : split_on c s <> [].
Proof.
  destruct s as [|a s]; simpl; [discriminate|].
  destruct (Ascii.eqb a c); [discriminate|].
  destruct (split_on c s); discriminate.
Qed.

Lemma join_split (c : ascii) (s : string) : join_on c (split_on c s) = s.
Proof.
  unfold join_on. induction s as [|a s IH]; simpl; [reflexivity|].
  destruct (Ascii.eqb a c) eqn:E.
  - apply Ascii.eqb_eq in E. subst a.
    destruct (split_on c s) eqn:S; [now apply split_on_not_nil in S|].
    simpl in *. now rewrite IH.
  - destruct (split_on c s) as [|w ws] eqn:S; [now apply split_on_not_nil in S|].
    destruct ws; simpl in *; now rewrite <- IH.
Qed.

Lemma removelast_last_eq {A : Type} (l : list A) (d : A) :
  l <> [] -> removelast l ++ [last l d] = l.
Proof. intro H. symmetry. now apply app_removelast_last. Qed.

(** ** Dicts *)

Lemma dict_get_set_same (d : dict) (k : string) (v : value) :
  dict_get (dict_set d k v) k = Some v.
Proof.
  induction d as [|[k' v'] d IH]; simpl.
  - now rewrite String.eqb_refl.
  - destruct (String.eqb k k') eqn:E; simpl; rewrite E; [reflexivity | exact IH].
Qed.

Lemma dict_get_set_other (d : dict) (k k' : string) (v : value) :
  k' <> k -> dict_get (dict_set d k v) k' = dict_get d k'.
Proof.
  intro N. induction d as [|[k0 v0] d IH]; simpl.
  - destruct (String.eqb k' k) eqn:E; [apply String.eqb_eq in E; contradiction | reflexivity].
  - destruct (String.eqb k k0) eqn:E; simpl.
    + apply String.eqb_eq in E. subst k0.
      destruct (String.eqb k' k) eqn:E'; [apply String.eqb_eq in E'; contradiction | reflexivity].
    + now rewrite IH.
Qed.

Lemma dict_get_In (d : dict) (k : string) (v : value) :
  dict_get d k = Some v -> In (k, v) d.
Proof.
  induction d as [|[k' v'] d IH]; simpl; [discriminate|].
  destruct (String.eqb k k') eqn:E.
  - apply String.eqb_eq in E. intros [= ->]. left. now subst.
  - intro H. right. now apply IH.
Qed.

(** ** The store: writing *)

Section StoreWrite.

Import Store.

Variable final : string.
Variable x : value.

(** After a successful write the path resolves to the value written. *)
Lemma setitem_path_find (inner : list string) :
  forall v r, setitem_path v inner final x = Ok r ->
              _find r (inner ++ [final]) = Ok x.
Proof.
  induction inner as [|k ks IH]; intros v r H; simpl in *.
  - destruct v; try discriminate. injection H as <-. simpl.
    now rewrite dict_get_set_same.
  - bind_inv H. destruct (negb a).
    + bind_inv H. bind_inv H.
      destruct a0; try discriminate. injection H as <-. simpl.
      rewrite dict_get_set_same. eauto.
    + destruct v; try discriminate. simpl in H.
      bind_inv H. bind_inv H. injection H as <-. simpl.
      rewrite dict_get_set_same. eauto.
Qed.

(** A write into the empty dict never fails: below a mapping the loop has
    just created, every further segment is created too. *)
Lemma setitem_path_fresh (inner : list string) :
  exists d', setitem_path (VDict []) inner final x = Ok (VDict d').
Proof.
  induction inner as [|k ks [d' IH]]; simpl.
  - eauto.
  - rewrite IH. simpl. eauto.
Qed.

(** The loop raises as soon as it stands on a value that is no dict. *)
Lemma setitem_path_leaf (inner : list string) (v : value) :
  is_dict v = false -> is_ok (setitem_path v inner final x) = false.
Proof.
  intro L. destruct inner as [|k ks]; destruct v; try discriminate;
    simpl; try reflexivity.
  all: match goal with |- context [if ?b then _ else _] => destruct b end;
    reflexivity.
Qed.

End StoreWrite.

Section StoreConflict.

Import Store Spec.

Variable final : string.
Variable x : value.

Lemma find_cons_dict (v : value) (k : string) (ks : list string) (r : value) :
  _find v (k :: ks) = Ok r ->
  exists d child, v = VDict d /\ dict_get d k = Some child /\ _find child ks = Ok r.
Proof.
  simpl. destruct v; try discriminate.
  destruct (dict_get d k) as [child|] eqn:G; [|discriminate].
  intro H. now exists d, child.
Qed.

(** With a leaf on the way the loop of [__setitem__] raises. *)
Lemma setitem_path_conflict (inner : list string) :
  forall d, conflict d (inner ++ [final]) ->
            is_ok (setitem_path (VDict d) inner final x) = false.
Proof.
  induction inner as [|k ks IH]; intros d (p & q & E & Np & Nq & v & F & L).
  - destruct p as [|a p]; [contradiction|].
    destruct p; destruct q; try contradiction; simpl in E; discriminate.
  - destruct p as [|a p]; [contradiction|].
    simpl in E. injection E as <- E.
    apply find_cons_dict in F. destruct F as (d0 & child & [= <-] & G & F).
    simpl. unfold dict_mem. rewrite G. simpl.
    destruct p as [|b p].
    + simpl in F. injection F as ->.
      pose proof (setitem_path_leaf final x ks v L) as R.
      destruct (setitem_path v ks final x); [discriminate | reflexivity].
    + destruct (find_cons_dict _ _ _ _ F) as (dc & c2 & -> & _ & _).
      assert (C : conflict dc (ks ++ [final])).
      { exists (b :: p), q. repeat split; auto; try discriminate. now exists v. }
      specialize (IH dc C).
      destruct (setitem_path (VDict dc) ks final x); [discriminate | reflexivity].
Qed.

(** Without one it succeeds, and gives back a dict. *)
Lemma setitem_path_free (inner : list string) :
  forall d, ~ conflict d (inner ++ [final]) ->
            exists d', setitem_path (VDict d) inner final x = Ok (VDict d').
Proof.
  induction inner as [|k ks IH]; intros d N; simpl.
  - eauto.
  - unfold dict_mem. destruct (dict_get d k) as [child|] eqn:G; simpl.
    + destruct child as [| | | | |dc];
        try (exfalso; apply N; exists [k], (ks ++ [final]);
             repeat split; try discriminate;
             [ now destruct ks
             | eexists; split; [simpl; rewrite G; reflexivity | reflexivity] ]).
      destruct (IH dc) as [d' ->]; [|simpl; eauto].
      intros (p & q & E & Np & Nq & v & F & L). apply N.
      exists (k :: p), q. repeat split; auto; try discriminate.
      * simpl. now rewrite E.
      * exists v. split; [simpl; now rewrite G | exact L].
    + destruct (setitem_path_fresh final x ks) as [d' ->]. simpl. eauto.
Qed.

End StoreConflict.

Section StoreTheorems.

Import Store Spec.

Lemma find_prefix_dict (p q : list string) :
  forall v r, q <> [] -> _find v (p ++ q) = Ok r ->
              exists sub, _find v p = Ok (VDict sub).
Proof.
  induction p as [|a p IH]; intros v r Nq F.
  - destruct q as [|b q]; [contradiction|].
    apply find_cons_dict in F. destruct F as (d & _ & -> & _). now exists d.
  - simpl app in F. apply find_cons_dict in F.
    destruct F as (d & child & -> & G & F).
    simpl. rewrite G. eauto.
Qed.

Lemma setitem_unfold (d : dict) (key : string) (x : value) :
  __setitem__ d (VStr key) x =
  let ks := split_on sep key in
  match setitem_path (VDict d) (removelast ks) (last ks "") x with
  | Ok (VDict d') => Ok d'
  | _ => Raise KeyError
  end.
Proof.
  unfold __setitem__. simpl.
  destruct (setitem_path _ _ _ _) as [[]|]; reflexivity.
Qed.

(** A successful [self[key] = x] makes the path of [key] resolve to [x]. *)
Lemma setitem_find (d d' : dict) (key : string) (x : value) :
  __setitem__ d (VStr key) x = Ok d' ->
  _find (VDict d') (split_on sep key) = Ok x.
Proof.
  rewrite setitem_unfold. cbv zeta.
  destruct (setitem_path _ _ _ _) as [r|] eqn:S; [|discriminate].
  destruct r; try discriminate. intros [= ->].
  apply setitem_path_find in S.
  now rewrite removelast_last_eq in S by apply split_on_not_nil.
Qed.

(** With a leaf on the way, [self[key] = x] raises [KeyError]. *)
Lemma setitem_conflict (d : dict) (key : string) (x : value) :
  conflict d (split_on sep key) -> __setitem__ d (VStr key) x = Raise KeyError.
Proof.
  intro C. rewrite setitem_unfold. cbv zeta.
  rewrite <- (removelast_last_eq (split_on sep key) "") in C
    by apply split_on_not_nil.
  apply (setitem_path_conflict _ x) in C.
  destruct (setitem_path _ _ _ _); [discriminate | reflexivity].
Qed.

(** Without one it succeeds. *)
Lemma setitem_free (d : dict) (key : string) (x : value) :
  ~ conflict d (split_on sep key) ->
  exists d', __setitem__ d (VStr key) x = Ok d'.
Proof.
  intro N.
  rewrite <- (removelast_last_eq (split_on sep key) "") in N
    by apply split_on_not_nil.
  destruct (setitem_path_free _ x _ _ N) as [d' S].
  exists d'. rewrite setitem_unfold. cbv zeta. now rewrite S.
Qed.

(** C5. Writing through a path one of whose proper prefixes holds a leaf
    raises [KeyError]; otherwise the write succeeds, the path then resolves
    to the value written and every proper prefix of it to a mapping.  In
    particular, once [self["a.b"] = 1] has succeeded, [self["a.b.c"] = 2]
    raises. *)
Theorem setitem_conflict_or_create (d : dict) (key : string) (x : value) :
  let keys := split_on sep key in
  (conflict d keys -> __setitem__ d (VStr key) x = Raise KeyError)
  /\ (~ conflict d keys ->
      exists d', __setitem__ d (VStr key) x = Ok d'
                 /\ _find (VDict d') keys = Ok x
                 /\ forall p q, keys = p ++ q -> q <> [] ->
                      exists sub, _find (VDict d') p = Ok (VDict sub))
  /\ (forall d1, __setitem__ d (VStr "a.b") (VInt 1) = Ok d1 ->
                 __setitem__ d1 (VStr "a.b.c") (VInt 2) = Raise KeyError).
Proof.
  intro keys. split; [apply setitem_conflict|]. split.
  - intro N. destruct (setitem_free d key x N) as [d' E].
    exists d'. split; [exact E|].
    pose proof (setitem_find _ _ _ _ E) as F. fold keys in F.
    split; [exact F|].
    intros p q -> Nq. eapply find_prefix_dict; eauto.
  - intros d1 S. apply setitem_conflict.
    apply setitem_find in S.
    exists ["a"; "b"], ["c"]. repeat split; try discriminate.
    exists (VInt 1). split; [exact S | reflexivity].
Qed.

(** The conflict of the design document, run on the empty store. *)
Lemma setitem_conflict_or_create_witness :
  exists d1, __setitem__ [] (VStr "a.b") (VInt 1) = Ok d1
             /\ __setitem__ d1 (VStr "a.b.c") (VInt 2) = Raise KeyError.
Proof.
  exists [("a", VDict [("b", VInt 1)])]. split; [reflexivity|].
  apply (proj2 (proj2 (setitem_conflict_or_create [] "x" VNone))).
  reflexivity.
Defined.

(** *** Reading back *)

Lemma walk_value_cons (pref : option string) (k : string) (x : value)
    (d : dict) :
  walk_value pref (VDict ((k, x) :: d)) =
  (match x with
   | VDict _ => walk_value (Some (extend_pref pref k)) x
   | _ => [(extend_pref pref k, x)]
   end) ++ walk_value pref (VDict d).
Proof. reflexivity. Qed.

Lemma walk_value_entry (pref : option string) (k : string) (x : value)
    (d : dict) (e : string * value) :
  In (k, x) d ->
  In e (match x with
        | VDict _ => walk_value (Some (extend_pref pref k)) x
        | _ => [(extend_pref pref k, x)]
        end) ->
  In e (walk_value pref (VDict d)).
Proof.
  induction d as [|[k' x'] d IH]; [contradiction|].
  intros [E|I] H; rewrite walk_value_cons; apply in_or_app.
  - injection E as -> ->. now left.
  - right. now apply IH.
Qed.

(** A leaf that [_find] reaches is enumerated by [_walk], under the path
    [flat] builds. *)
Lemma find_walk (keys : list string) :
  forall v pref x, keys <> [] -> _find v keys = Ok x -> is_dict x = false ->
                   In (flat pref keys, x) (walk_value pref v).
Proof.
  induction keys as [|k ks IH]; intros v pref x N F L; [contradiction|].
  apply find_cons_dict in F. destruct F as (d & child & -> & G & F).
  apply walk_value_entry with (k := k) (x := child); [now apply dict_get_In|].
  destruct ks as [|k2 ks].
  - simpl in F. injection F as ->. simpl.
    destruct x; try discriminate; now left.
  - destruct (find_cons_dict _ _ _ _ F) as (dc & c2 & -> & _ & _).
    apply IH; [discriminate | exact F | exact L].
Qed.

Lemma append_not_empty (a b : string) : a <> "" -> (a ++ b)%string <> "".
Proof. destruct a; [contradiction | discriminate]. Qed.

Lemma string_app_assoc (a b c : string) :
  ((a ++ b) ++ c)%string = (a ++ (b ++ c))%string.
Proof. induction a as [|ch a IH]; simpl; [reflexivity | now rewrite IH]. Qed.

(** Below a non-empty prefix [_walk] joins the segments with the
    separator. *)
Lemma flat_join (ks : list string) :
  forall p, p <> "" ->
  flat (Some p) ks =
  match ks with
  | [] => p
  | _ => (p ++ String sep "" ++ join_on sep ks)%string
  end.
Proof.
  induction ks as [|k ks IH]; intros p Np; [reflexivity|].
  simpl flat. unfold extend_pref.
  destruct (String.eqb p "") eqn:E; [apply String.eqb_eq in E; contradiction|].
  rewrite IH by now apply append_not_empty.
  destruct ks as [|k2 ks]; [reflexivity|].
  unfold join_on. simpl String.concat.
  now rewrite !string_app_assoc.
Qed.

Lemma flat_split (key : string) :
  hd "" (split_on sep key) <> "" -> flat None (split_on sep key) = key.
Proof.
  intro H. rewrite <- (join_split sep key) at 2.
  destruct (split_on sep key) as [|k ks]; [now elim H|].
  simpl in H. simpl flat. rewrite flat_join by exact H.
  destruct ks; reflexivity.
Qed.

(** Round trip of the store for a leaf value: after [self[key] = x],
    [get(key)] is [x], and [items()] lists [(key, x)] when the first segment
    of [key] is not empty. *)
Lemma setitem_get_items (d d' : dict) (key : string) (x : value) :
  is_dict x = false ->
  __setitem__ d (VStr key) x = Ok d' ->
  get d' (VStr key) = Some (GValue x)
  /\ (hd "" (split_on sep key) <> "" -> In (key, x) (items d')).
Proof.
  intros L S. apply setitem_find in S. split.
  - unfold get, __contains__, __getitem__. simpl. rewrite S.
    destruct x; try discriminate; reflexivity.
  - intro H. unfold items, _walk. rewrite <- (flat_split key H) at 1.
    apply find_walk; [apply split_on_not_nil | exact S | exact L].
Qed.

(** C6, at the failing input.  The store of the design document's example
    round-trips, but a path whose first segment is empty does not: the write
    and [get] keep the empty segment, [items()] drops it together with its
    separator. *)
Theorem items_loses_empty_first_segment :
  (exists d, __setitem__ [] (VStr "a.b.c") (VInt 5) = Ok d
             /\ get d (VStr "a.b.c") = Some (GValue (VInt 5))
             /\ items d = [("a.b.c", VInt 5)])
  /\ (exists d, __setitem__ [] (VStr ".b") (VInt 5) = Ok d
                /\ get d (VStr ".b") = Some (GValue (VInt 5))
                /\ items d = [("b", VInt 5)]
                /\ ~ In (".b", VInt 5) (items d)).
Proof.
  split.
  - exists [("a", VDict [("b", VDict [("c", VInt 5)])])]. now repeat split.
  - exists [("", VDict [("b", VInt 5)])]. repeat split.
    intros [E|[]]. discriminate.
Qed.

End StoreTheorems.

(** ** Fully qualified keys *)

Section FQKey.

Import ItemModel Spec.

(** C9. The [get_fqkey] local to [Interview.next] and the method
    [Item.get_fqkey] return the same result on every configuration, settings
    state and key argument, exceptions included.  For a string key, a string
    section and a readable counter that result is
    [[section.]key[.counter]]: the section is prefixed only to a key without
    a dot, the counter is the integer value of the setting [parameterize]
    names, 0 when that setting is absent. *)
Theorem fqkey_same_on_both_paths (it : Item) (settings : dict) (k : value) :
  ItemModel.get_fqkey it settings k
  = Engine.get_fqkey settings (config it) k
  /\ (forall key section,
        effective_key (config it) k = VStr key ->
        dict_get (config it) "section" = option_map VStr section ->
        (dict_get (config it) "parameterize" = None ->
         Engine.get_fqkey settings (config it) k
         = Ok (VStr (fqk section key None)))
        /\ (forall counter_key,
              dict_get (config it) "parameterize" = Some counter_key ->
              (Store.get settings counter_key = None ->
               Engine.get_fqkey settings (config it) k
               = Ok (VStr (fqk section key (Some 0))))
              /\ (forall v c,
                    Store.get settings counter_key = Some (Store.GValue v) ->
                    py_int v = Ok c ->
                    Engine.get_fqkey settings (config it) k
                    = Ok (VStr (fqk section key (Some c)))))).
Proof.
  split; [reflexivity|].
  intros key section K S.
  assert (B : forall rest : value -> result value,
    (has_dot <- py_in (VStr ".") (effective_key (config it) k) ;;
     k0 <- (if negb has_dot
            then match dict_get (config it) "section" with
                 | Some s =>
                     a <- py_format s ;;
                     b <- py_format (effective_key (config it) k) ;;
                     Ok (VStr (a ++ "." ++ b))
                 | None => Ok (effective_key (config it) k)
                 end
            else Ok (effective_key (config it) k)) ;;
     rest k0)
    = rest (VStr (fqk section key None))).
  { intro rest. rewrite K, S. simpl. unfold fqk.
    destruct section as [s|]; simpl; destruct (substringb "." key); reflexivity. }
  unfold Engine.get_fqkey. fold (effective_key (config it) k).
  split.
  - intros P. rewrite P in *. now rewrite B.
  - intros ck P. rewrite P. split.
    + intros G. rewrite B, G. reflexivity.
    + intros v c G I. rewrite B, G, I. reflexivity.
Qed.

End FQKey.

(** C9 on a parameterized question: with the counter [n] at 2 the key of
    [size] in the section [disk] is [disk.size.2]. *)
Lemma fqkey_same_on_both_paths_witness :
  ItemModel.get_fqkey Examples.disk_item [("n", VInt 2)] VNone
  = Ok (VStr "disk.size.2").
Proof.
  destruct (fqkey_same_on_both_paths Examples.disk_item [("n", VInt 2)] VNone)
    as [E C].
  rewrite E.
  destruct (C "size" (Some "disk") eq_refl eq_refl) as [_ P].
  destruct (P (VStr "n") eq_refl) as [_ Q].
  exact (Q (VInt 2) 2 eq_refl eq_refl).
Defined.

(** ** Validation in [Item.set] *)

Section RangeValidation.

Import ItemModel Spec.

(** [s.split(sep, 1)] cuts at the first separator. *)
Lemma split_once_app (sep : ascii) (a b : string) :
  split_once sep a = None ->
  split_once sep (a ++ String sep b) = Some (a, b).
Proof.
  induction a as [|c a IH]; simpl.
  - intros _. now rewrite Ascii.eqb_refl.
  - destruct (Ascii.eqb c sep); [discriminate|].
    destruct (split_once sep a) as [[x y]|]; [discriminate|].
    intros _. now rewrite IH.
Qed.

(** How a range text is read, with and without a step. *)
Lemma range_bounds_text (lo_s hi_s : string) (st : option string) :
  split_once "-" lo_s = None ->
  split_once ":" hi_s = None ->
  range_bounds (VStr "int") (VStr (range_text lo_s hi_s st))
  = (lo <- py_int (VStr lo_s) ;; hi <- py_int (VStr hi_s) ;;
     step <- declared_step st ;; Ok (VInt lo, VInt hi, VInt step)).
Proof.
  intros L H. unfold range_bounds, range_text.
  destruct st as [t|].
  - change (lo_s ++ "-" ++ hi_s ++ ":" ++ t)%string
      with (lo_s ++ String "-" (hi_s ++ String ":" t))%string.
    rewrite (split_once_app "-" lo_s _ L), (split_once_app ":" hi_s t H).
    cbn [bind str_is String.eqb Ascii.eqb Bool.eqb py_eq declared_step].
    destruct (py_int (VStr lo_s)); cbn [bind]; [|reflexivity].
    destruct (py_int (VStr hi_s)); cbn [bind]; [|reflexivity].
    now destruct (String.eqb t "").
  - change (lo_s ++ "-" ++ hi_s)%string
      with (lo_s ++ String "-" hi_s)%string.
    rewrite (split_once_app "-" lo_s _ L), H.
    cbn [bind str_is String.eqb Ascii.eqb Bool.eqb py_eq declared_step].
    destruct (py_int (VStr lo_s)); cbn [bind]; [|reflexivity].
    destruct (py_int (VStr hi_s)); reflexivity.
Qed.

Lemma py_int_not_empty (x : value) (v : Z) :
  py_int x = Ok v -> is_none_or_empty x = false.
Proof.
  destruct x as [| b | z | s | l | d]; simpl; try discriminate; try reflexivity.
  destruct s; [discriminate | reflexivity].
Qed.

Variable env : Env.
Variable it : Item.
Variable settings : dict.
Variable k : string.
Variable x : value.
Variable v : Z.

Hypothesis type_int : dict_get (config it) "type" = Some (VStr "int").
Hypothesis no_required : dict_get (config it) "required" = None.
Hypothesis no_values : dict_get (config it) "values" = None.
Hypothesis no_regexp : dict_get (config it) "regexp" = None.
Hypothesis not_notice : py_eq (kind it) (VStr "notice") = false.
Hypothesis key_k : key it = Some (VStr k).
Hypothesis int_x : py_int x = Ok v.

(** What [Item.set] does with an integer under a range constraint. *)
Lemma set_int_range (rng : value) (lo hi step : Z) :
  dict_get (config it) "range" = Some rng ->
  range_bounds (VStr "int") rng = Ok (VInt lo, VInt hi, VInt step) ->
  set env it x settings =
  if (v <? lo) || (hi <? v) then Raise ValueError
  else if step =? 0 then Raise ZeroDivisionError
  else if (v - lo) mod step =? 0
       then Store.__setitem__ settings (VStr k) (VInt v)
       else Raise ValueError.
Proof.
  intros R B. unfold set. rewrite type_int, not_notice, key_k. simpl bind.
  assert (D : match dict_get (config it) "default" with
              | Some dflt => if is_none_or_empty x then dflt else x
              | None => x
              end = x).
  { rewrite (py_int_not_empty x v int_x). now destruct (dict_get _ "default"). }
  rewrite D. unfold convert. simpl. rewrite int_x. simpl.
  unfold validate. rewrite no_required, no_values, no_regexp, R. simpl.
  rewrite B. simpl. unfold out_of_range, py_lt, py_sub, py_mod. simpl.
  destruct (v <? lo); simpl; [reflexivity|].
  destruct (hi <? v); simpl; [reflexivity|].
  destruct (step =? 0); simpl; [reflexivity|].
  destruct ((v - lo) mod step =? 0); reflexivity.
Qed.

(** C7. For an item of type [int] that is no notice and has no [required],
    [values] or [regexp] constraint, and a value whose integer is [v]: with
    the range [1-10:2], [Item.set] commits [v] under the item's key when [v]
    is one of 1, 3, 5, 7, 9 (the store permitting the write) and raises
    [ValueError] when [v] is 0, 2 or 11; with any range of bounds [lo], [hi]
    and a step other than 0, it goes on to the commit exactly when
    [lo <= v <= hi] and [(v - lo) mod step = 0], and raises [ValueError]
    otherwise; a range without [:step] has step 1.  The rule holds of the
    range text itself: for every text [lo-hi] or [lo-hi:step] whose [lo] is
    written without a dash and whose three parts read as integers (an
    omitted or empty step as 1), the bounds and the step of the rule are
    those integers. *)
Theorem set_range_validation :
  (dict_get (config it) "range" = Some (VStr "1-10:2") ->
   (In v [1; 3; 5; 7; 9] ->
    ~ conflict settings (split_on Store.sep k) ->
    exists s', set env it x settings = Ok s'
               /\ Store.get s' (VStr k) = Some (Store.GValue (VInt v)))
   /\ (In v [0; 2; 11] -> set env it x settings = Raise ValueError))
  /\ (forall rng lo hi step,
        dict_get (config it) "range" = Some rng ->
        range_bounds (VStr "int") rng = Ok (VInt lo, VInt hi, VInt step) ->
        step <> 0 ->
        (lo <= v <= hi /\ (v - lo) mod step = 0 ->
         set env it x settings
         = Store.__setitem__ settings (VStr k) (VInt v))
        /\ (~ (lo <= v <= hi /\ (v - lo) mod step = 0) ->
            set env it x settings = Raise ValueError))
  /\ (forall r lo_s hi_s,
        split_once "-" r = Some (lo_s, hi_s) ->
        split_once ":" hi_s = None ->
        range_bounds (VStr "int") (VStr r)
        = (lo <- py_int (VStr lo_s) ;; hi <- py_int (VStr hi_s) ;;
           Ok (VInt lo, VInt hi, VInt 1)))
  /\ (forall lo_s hi_s st,
        split_once "-" lo_s = None ->
        split_once ":" hi_s = None ->
        range_bounds (VStr "int") (VStr (range_text lo_s hi_s st))
        = (lo <- py_int (VStr lo_s) ;; hi <- py_int (VStr hi_s) ;;
           step <- declared_step st ;; Ok (VInt lo, VInt hi, VInt step)))
  /\ (forall lo_s hi_s st lo hi step,
        split_once "-" lo_s = None ->
        split_once ":" hi_s = None ->
        py_int (VStr lo_s) = Ok lo ->
        py_int (VStr hi_s) = Ok hi ->
        declared_step st = Ok step ->
        step <> 0 ->
        dict_get (config it) "range"
        = Some (VStr (range_text lo_s hi_s st)) ->
        (lo <= v <= hi /\ (v - lo) mod step = 0 ->
         set env it x settings
         = Store.__setitem__ settings (VStr k) (VInt v))
        /\ (~ (lo <= v <= hi /\ (v - lo) mod step = 0) ->
            set env it x settings = Raise ValueError)).
Proof.
  assert (Rule : forall rng lo hi step,
            dict_get (config it) "range" = Some rng ->
            range_bounds (VStr "int") rng = Ok (VInt lo, VInt hi, VInt step) ->
            step <> 0 ->
            (lo <= v <= hi /\ (v - lo) mod step = 0 ->
             set env it x settings
             = Store.__setitem__ settings (VStr k) (VInt v))
            /\ (~ (lo <= v <= hi /\ (v - lo) mod step = 0) ->
                set env it x settings = Raise ValueError)).
  { intros rng lo hi step R B Nz.
    rewrite (set_int_range rng lo hi step R B).
    destruct (step =? 0) eqn:Z0; [apply Z.eqb_eq in Z0; contradiction|].
    split.
    + intros [[L H] M].
      replace (v <? lo) with false by (symmetry; apply Z.ltb_ge; lia).
      replace (hi <? v) with false by (symmetry; apply Z.ltb_ge; lia).
      simpl. rewrite M. reflexivity.
    + intro N.
      destruct (v <? lo) eqn:L; simpl; [reflexivity|].
      destruct (hi <? v) eqn:H; simpl; [reflexivity|].
      destruct ((v - lo) mod step =? 0) eqn:M; [|reflexivity].
      exfalso. apply N. apply Z.ltb_ge in L, H. apply Z.eqb_eq in M. lia. }
  split; [|split; [|split; [|split]]].
  - intro R.
    pose proof (set_int_range (VStr "1-10:2") 1 10 2 R eq_refl) as E.
    split.
    + intros I N.
      assert (A : set env it x settings
                  = Store.__setitem__ settings (VStr k) (VInt v)).
      { rewrite E. simpl in I.
        destruct I as [<-|[<-|[<-|[<-|[<-|[]]]]]]; reflexivity. }
      destruct (setitem_free settings k (VInt v) N) as [s' S].
      exists s'. rewrite A. split; [exact S|].
      now apply (setitem_get_items settings s' k (VInt v)).
    + intro I. rewrite E. simpl in I.
      destruct I as [<-|[<-|[<-|[]]]]; reflexivity.
  - exact Rule.
  - intros r lo_s hi_s S1 S2. unfold range_bounds. rewrite S1, S2. simpl.
    destruct (py_int (VStr lo_s)); simpl; [|reflexivity].
    destruct (py_int (VStr hi_s)); reflexivity.
  - exact range_bounds_text.
  - intros lo_s hi_s st lo hi step L H Il Ih Is Nz R.
    apply (Rule _ lo hi step R); [|exact Nz].
    rewrite (range_bounds_text lo_s hi_s st L H), Il, Ih. cbn [bind].
    now rewrite Is.
Qed.

End RangeValidation.

(** C7 on the question of the example, answered with the text [3]. *)
Lemma set_range_validation_witness :
  exists s', ItemModel.set Examples.bare_env Examples.odd_item (VStr "3") []
             = Ok s'
             /\ Store.get s' (VStr "n") = Some (Store.GValue (VInt 3)).
Proof.
  refine (proj1 (proj1 (set_range_validation Examples.bare_env
            Examples.odd_item [] "n" (VStr "3") 3
            eq_refl eq_refl eq_refl eq_refl eq_refl eq_refl eq_refl)
            eq_refl) _ _).
  - simpl. tauto.
  - intros (p & q & E & Np & Nq & _).
    destruct p as [|a [|b p]]; destruct q; try contradiction; discriminate.
Defined.

(** ** What the constructor leaves alone *)

Section InitFrame.

Import ItemModel.

Variable env : Env.
Variable k : string.
Hypothesis not_default : k <> "default".
Hypothesis not_values : k <> "values".

Ltac frame :=
  intros ? ? ?; step_cases;
  let H := fresh "H" in
  intro H; injection H as <- _; try reflexivity;
  rewrite dict_get_set_other by congruence; reflexivity.

Lemma step_default_from_file_other :
  forall c c' r, step_default_from_file env c = (c', r) ->
                 dict_get c' k = dict_get c k.
Proof using All. unfold step_default_from_file. frame. Qed.

Lemma step_values_from_directory_other :
  forall c c' r, step_values_from_directory env c = (c', r) ->
                 dict_get c' k = dict_get c k.
Proof using All. unfold step_values_from_directory. frame. Qed.

Lemma step_values_from_file_other :
  forall c c' r, step_values_from_file env c = (c', r) ->
                 dict_get c' k = dict_get c k.
Proof using All. unfold step_values_from_file. frame. Qed.

Lemma step_values_regexp_other :
  forall c c' r, step_values_regexp env c = (c', r) ->
                 dict_get c' k = dict_get c k.
Proof using All. unfold step_values_regexp. frame. Qed.

Lemma step_convert_values_other :
  forall c c' r, step_convert_values c = (c', r) ->
                 dict_get c' k = dict_get c k.
Proof using All. unfold step_convert_values. frame. Qed.

Lemma step_sort_values_other :
  forall c c' r, step_sort_values c = (c', r) ->
                 dict_get c' k = dict_get c k.
Proof using All. unfold step_sort_values. frame. Qed.

Lemma and_then_other (r : dict * result unit)
    (f : dict -> dict * result unit) :
  (forall c, dict_get (fst (f c)) k = dict_get c k) ->
  dict_get (fst (and_then r f)) k = dict_get (fst r) k.
Proof.
  destruct r as [c [[]|e]]; simpl; intro F; [apply F | reflexivity].
Qed.

(** The constructor writes only the keys [default] and [values] of the
    node. *)
Lemma init_config_other (c : dict) :
  dict_get (fst (init_config env c)) k = dict_get c k.
Proof.
  unfold init_config.
  repeat (rewrite and_then_other;
          [| intro c0;
             repeat (rewrite and_then_other; [| intro]);
             first
               [ destruct (step_sort_values _) eqn:E;
                 simpl; now apply step_sort_values_other in E
               | destruct (step_convert_values _) eqn:E;
                 simpl; now apply step_convert_values_other in E
               | destruct (step_values_regexp env _) eqn:E;
                 simpl; now apply step_values_regexp_other in E
               | destruct (step_values_from_file env _) eqn:E;
                 simpl; now apply step_values_from_file_other in E
               | destruct (step_values_from_directory env _) eqn:E;
                 simpl; now apply step_values_from_directory_other in E ]]).
  destruct (step_default_from_file env c) eqn:E.
  simpl. now apply step_default_from_file_other in E.
Qed.

Lemma init_other (wp : list nat) (key : option value) (c : dict) :
  dict_get (fst (__init__ env wp key c)) k = dict_get c k.
Proof.
  unfold __init__. rewrite <- (init_config_other c).
  now destruct (init_config env c) as [c' [[]|e]].
Qed.

End InitFrame.

(** A node without run-time fields and without [values] comes out of the
    constructor as it went in. *)
Lemma init_plain (env : Env) (wp : list nat) (key : option value) (c : dict) :
  dict_get c "default_from_file" = None ->
  dict_get c "values_from_directory" = None ->
  dict_get c "values_from_file" = None ->
  dict_get c "values_regexp" = None ->
  dict_get c "values" = None ->
  ItemModel.__init__ env wp key c
  = (c, Ok {| ItemModel.walkpath := wp; ItemModel.key := key;
              ItemModel.config := c;
              ItemModel.kind := match dict_get c "kind" with
                                | Some v => v
                                | None => VNone
                                end |}).
Proof.
  intros H1 H2 H3 H4 H5.
  unfold ItemModel.__init__, ItemModel.init_config, ItemModel.and_then,
    ItemModel.step_default_from_file, ItemModel.step_values_from_directory,
    ItemModel.step_values_from_file, ItemModel.step_values_regexp,
    ItemModel.step_convert_values, ItemModel.step_sort_values.
  repeat (first [rewrite H1 | rewrite H2 | rewrite H3 | rewrite H4
                 | rewrite H5]; cbv beta iota).
  reflexivity.
Qed.

Lemma init_of_plain (env : Env) (wp : list nat) (c : dict) :
  Spec.plain c ->
  ItemModel.__init__ env wp (dict_get c "key") c = (c, Ok (Spec.item_of wp c)).
Proof. intros (H1 & H2 & H3 & H4 & H5). now apply init_plain. Qed.

(** ** The allowed values at construction *)

Section ValuesSort.

Import ItemModel Spec.

Lemma dict_mem_set (d : dict) (k k' : string) (v : value) :
  dict_mem d k' = true -> dict_mem (dict_set d k v) k' = true.
Proof.
  unfold dict_mem. intro H.
  destruct (String.eqb k' k) eqn:E.
  - apply String.eqb_eq in E. subst. now rewrite dict_get_set_same.
  - apply String.eqb_neq in E. now rewrite dict_get_set_other.
Qed.

Lemma dict_mem_set_same (d : dict) (k : string) (v : value) :
  dict_mem (dict_set d k v) k = true.
Proof. unfold dict_mem. now rewrite dict_get_set_same. Qed.

Variable env : Env.

(** No step of the constructor removes [values]. *)
Ltac keeps_values :=
  intros ? ? ?; step_cases;
  let H := fresh "H" in
  intro H; injection H as <- _; intro; try assumption;
  now apply dict_mem_set.

Lemma step_default_from_file_values :
  forall c c' r, step_default_from_file env c = (c', r) ->
    dict_mem c "values" = true -> dict_mem c' "values" = true.
Proof. unfold step_default_from_file. keeps_values. Qed.

Lemma step_values_from_directory_values :
  forall c c' r, step_values_from_directory env c = (c', r) ->
    dict_mem c "values" = true -> dict_mem c' "values" = true.
Proof. unfold step_values_from_directory. keeps_values. Qed.

Lemma step_values_from_file_values :
  forall c c' r, step_values_from_file env c = (c', r) ->
    dict_mem c "values" = true -> dict_mem c' "values" = true.
Proof. unfold step_values_from_file. keeps_values. Qed.

Lemma step_values_regexp_values :
  forall c c' r, step_values_regexp env c = (c', r) ->
    dict_mem c "values" = true -> dict_mem c' "values" = true.
Proof. unfold step_values_regexp. keeps_values. Qed.

Lemma step_convert_values_values :
  forall c c' r, step_convert_values c = (c', r) ->
    dict_mem c "values" = true -> dict_mem c' "values" = true.
Proof. unfold step_convert_values. keeps_values. Qed.

(** The two steps that load [values] leave it set when they succeed. *)
Lemma step_values_from_directory_loads (c c' : dict) :
  step_values_from_directory env c = (c', Ok tt) ->
  dict_mem c "values_from_directory" = true -> dict_mem c' "values" = true.
Proof.
  unfold step_values_from_directory, dict_mem at 1.
  destruct (dict_get c "values_from_directory"); [|discriminate].
  destruct (directory_names env v); [|discriminate].
  intros [= <-] _. apply dict_mem_set_same.
Qed.

Lemma step_values_from_file_loads (c c' : dict) :
  step_values_from_file env c = (c', Ok tt) ->
  dict_mem c "values_from_file" = true -> dict_mem c' "values" = true.
Proof.
  unfold step_values_from_file, dict_mem at 1.
  destruct (dict_get c "values_from_file"); [|discriminate].
  destruct (open_read env v); [|discriminate].
  intros [= <-] _. apply dict_mem_set_same.
Qed.

Lemma step_sort_values_desc (c : dict) :
  dict_mem c "values" = true ->
  dict_get c "values_sort" = Some (VStr "desc") ->
  step_sort_values c = (c, Raise NameError).
Proof.
  intros M S. unfold step_sort_values, dict_mem in *.
  destruct (dict_get c "values"); [|discriminate]. now rewrite S.
Qed.

(** With an allowed-value set to resolve and [values_sort: desc], the
    configuration steps of the constructor end in an exception. *)
Lemma init_config_desc (c : dict) :
  values_source c ->
  dict_get c "values_sort" = Some (VStr "desc") ->
  exists e, snd (init_config env c) = Raise e.
Proof.
  intros V S. unfold init_config, and_then.
  assert (D : "values_sort" <> "default") by discriminate.
  assert (L : "values_sort" <> "values") by discriminate.
  assert (Dd : "values_from_directory" <> "default") by discriminate.
  assert (Ld : "values_from_directory" <> "values") by discriminate.
  assert (Df : "values_from_file" <> "default") by discriminate.
  assert (Lf : "values_from_file" <> "values") by discriminate.
  destruct (step_default_from_file env c) as [c1 [[]|e1]] eqn:E1;
    [|simpl; eauto].
  assert (V1 : values_source c1).
  { unfold values_source, dict_mem in *.
    rewrite (step_default_from_file_other env _ Dd Ld _ _ _ E1).
    rewrite (step_default_from_file_other env _ Df Lf _ _ _ E1).
    destruct V as [V|V]; [left|now right].
    exact (step_default_from_file_values _ _ _ E1 V). }
  rewrite <- (step_default_from_file_other env _ D L _ _ _ E1) in S.
  destruct (step_values_from_directory env c1) as [c2 [[]|e2]] eqn:E2;
    [|simpl; eauto].
  assert (V2 : dict_mem c2 "values" = true
               \/ dict_mem c2 "values_from_file" = true).
  { destruct V1 as [V1|[V1|V1]].
    - left. exact (step_values_from_directory_values _ _ _ E2 V1).
    - left. exact (step_values_from_directory_loads _ _ E2 V1).
    - right. unfold dict_mem in *.
      now rewrite (step_values_from_directory_other env _ Df Lf _ _ _ E2). }
  rewrite <- (step_values_from_directory_other env _ D L _ _ _ E2) in S.
  destruct (step_values_from_file env c2) as [c3 [[]|e3]] eqn:E3;
    [|simpl; eauto].
  assert (V3 : dict_mem c3 "values" = true).
  { destruct V2 as [V2|V2].
    - exact (step_values_from_file_values _ _ _ E3 V2).
    - exact (step_values_from_file_loads _ _ E3 V2). }
  rewrite <- (step_values_from_file_other env _ D L _ _ _ E3) in S.
  destruct (step_values_regexp env c3) as [c4 [[]|e4]] eqn:E4;
    [|simpl; eauto].
  apply (step_values_regexp_values _ _ _ E4) in V3.
  rewrite <- (step_values_regexp_other env _ D L _ _ _ E4) in S.
  destruct (step_convert_values c4) as [c5 [[]|e5]] eqn:E5;
    [|simpl; eauto].
  apply (step_convert_values_values _ _ _ E5) in V3.
  rewrite <- (step_convert_values_other env _ D L _ _ _ E5) in S.
  rewrite (step_sort_values_desc c5 V3 S). simpl. eauto.
Qed.

End ValuesSort.

(** *** The ascending branch *)

Section Ascending.

Import Spec.

Lemma insert_Z_perm (x : Z) (l : list Z) : Permutation (x :: l) (insert_Z x l).
Proof.
  induction l as [|y l IH]; simpl; [apply Permutation_refl|].
  destruct (y <? x); [|apply Permutation_refl].
  eapply Permutation_trans; [apply perm_swap|]. now apply perm_skip.
Qed.

Lemma insert_Z_sorted (x : Z) (l : list Z) :
  Sorted Z.le l -> Sorted Z.le (insert_Z x l).
Proof.
  induction l as [|y l IH]; intro S; simpl.
  - repeat constructor.
  - destruct (y <? x) eqn:E.
    + apply Z.ltb_lt in E. inversion S as [|? ? S' H]; subst.
      constructor; [now apply IH|].
      destruct l as [|z l]; simpl.
      * constructor. lia.
      * inversion H; subst. destruct (z <? x); constructor; lia.
    + apply Z.ltb_ge in E. constructor; [exact S | now constructor].
Qed.

Lemma sort_Z_sorted (l : list Z) : Sorted Z.le (sort_Z l).
Proof.
  induction l; simpl; [constructor | now apply insert_Z_sorted].
Qed.

Lemma sort_Z_perm (l : list Z) : Permutation l (sort_Z l).
Proof.
  induction l as [|x l IH]; simpl; [constructor|].
  eapply Permutation_trans; [apply perm_skip, IH | apply insert_Z_perm].
Qed.

Lemma insert_sorted_ints (x : Z) (l : list Z) :
  insert_sorted (VInt x) (map VInt l) = Ok (map VInt (insert_Z x l)).
Proof.
  induction l as [|y l IH]; simpl; [reflexivity|].
  destruct (y <? x); simpl; [now rewrite IH | reflexivity].
Qed.

Lemma py_sorted_ints (l : list Z) :
  py_sorted (map VInt l) = Ok (map VInt (sort_Z l)).
Proof.
  induction l as [|x l IH]; simpl; [reflexivity|].
  rewrite IH. simpl. apply insert_sorted_ints.
Qed.

(** With [values_sort: asc] the integers among [values] are put in
    ascending order: the step stores a sorted permutation of them. *)
Lemma values_sort_asc_sorts (c : dict) (l : list Z) :
  dict_get c "values" = Some (VList (map VInt l)) ->
  dict_get c "values_sort" = Some (VStr "asc") ->
  exists l', ItemModel.step_sort_values c
             = (dict_set c "values" (VList (map VInt l')), Ok tt)
             /\ Sorted Z.le l' /\ Permutation l l'.
Proof.
  intros V O. exists (sort_Z l). unfold ItemModel.step_sort_values.
  rewrite V, O. simpl. rewrite py_sorted_ints.
  split; [reflexivity|]. split; [apply sort_Z_sorted | apply sort_Z_perm].
Qed.

End Ascending.

(** C8, at the failing input.  An item that has an allowed-value set to
    resolve ([values], or [values_from_directory] or [values_from_file]) and
    [values_sort: desc] cannot be constructed: the branch for ["desc"] calls
    the unbound name [reverse], so the constructor raises instead of
    reordering the values.  When the node has no run-time field and its type
    is neither [int] nor [float], the exception is [NameError] and the node
    is left as the document gives it, as for the question
    [colour_question]. *)
Theorem values_sort_desc_raises (env : Env) (wp : list nat)
    (k : option value) (c : dict) :
  Spec.values_source c ->
  dict_get c "values_sort" = Some (VStr "desc") ->
  (exists e, snd (ItemModel.__init__ env wp k c) = Raise e)
  /\ (forall t,
        dict_get c "default_from_file" = None ->
        dict_get c "values_from_directory" = None ->
        dict_get c "values_from_file" = None ->
        dict_get c "values_regexp" = None ->
        dict_get c "type" = Some (VStr t) -> t <> "int" -> t <> "float" ->
        ItemModel.__init__ env wp k c = (c, Raise NameError))
  /\ ItemModel.__init__ env wp k Examples.colour_question
     = (Examples.colour_question, Raise NameError).
Proof.
  intros V S. split; [|split; [|reflexivity]].
  - destruct (init_config_desc env c V S) as [e E]. exists e.
    unfold ItemModel.__init__.
    destruct (ItemModel.init_config env c) as [c' [[]|e']];
      simpl in *; congruence.
  - intros t H1 H2 H3 H4 T Ni Nf.
    assert (M : dict_mem c "values" = true).
    { destruct V as [M|[M|M]]; [exact M| |]; unfold dict_mem in M;
        [rewrite H2 in M | rewrite H3 in M]; discriminate. }
    unfold dict_mem in M.
    destruct (dict_get c "values") as [vals|] eqn:Vs; [|discriminate].
    apply String.eqb_neq in Ni, Nf.
    unfold ItemModel.__init__, ItemModel.init_config, ItemModel.and_then,
      ItemModel.step_default_from_file, ItemModel.step_values_from_directory,
      ItemModel.step_values_from_file, ItemModel.step_values_regexp,
      ItemModel.step_convert_values, ItemModel.step_sort_values.
    repeat (first [rewrite H1 | rewrite H2 | rewrite H3 | rewrite H4
                   | rewrite Vs | rewrite T | rewrite S];
            cbv beta iota; unfold ItemModel.str_is; rewrite ?Ni, ?Nf).
    reflexivity.
Qed.

(** C8 on the question [colour_question]. *)
Lemma values_sort_desc_raises_witness :
  exists e, snd (ItemModel.__init__ Examples.bare_env [] (Some (VStr "colour"))
                   Examples.colour_question) = Raise e.
Proof.
  exact (proj1 (values_sort_desc_raises Examples.bare_env []
                  (Some (VStr "colour")) Examples.colour_question
                  (or_introl eq_refl) eq_refl)).
Defined.

(** ** The structural check *)

(** C4, at the failing inputs.  [Interview.check] returns normally on every
    document: it defines its [walk] and never calls it.  So the documents
    with a node without [kind], with an unknown [kind], with an include
    without [path] or with a missing file, and with a question without
    [text] all pass.  The [walk] it defines would refuse the first of them
    and would let the unknown [kind] through. *)
Theorem check_never_raises (env : Env) (itv : Engine.Interview) :
  Engine.check env itv = (itv, Ok tt)
  /\ (forall doc,
        In doc [Examples.no_kind_doc; Examples.bad_kind_doc;
                Examples.no_path_doc; Examples.no_file_doc;
                Examples.no_text_doc] ->
        snd (Engine.check Examples.bare_env (Examples.interview_of doc []))
        = Ok tt)
  /\ snd (Engine.check_walk Examples.bare_env None 2
            (VList Examples.no_kind_doc) (Some [])) = Raise BadItem
  /\ snd (Engine.check_walk Examples.bare_env None 2
            (VList Examples.bad_kind_doc) (Some [])) = Ok tt.
Proof. repeat split. Qed.

(** ** Reset nodes *)

Section Reset.

Import ItemModel Engine.

Lemma delete_where_settings (test : value -> result bool) (ks : list value) :
  forall s, fst (delete_where test ks s) = s.
Proof.
  induction ks as [|k ks IH]; intro s; simpl; [reflexivity|].
  destruct (test k) as [[]|]; simpl; auto.
Qed.

Lemma delete_keys_settings (it : Item) (ks : list value) :
  forall s, fst (delete_keys it ks s) = s.
Proof.
  induction ks as [|k ks IH]; intro s; simpl; [reflexivity|].
  destruct (ItemModel.get_fqkey it s k); simpl; [|reflexivity].
  destruct (Store.__contains__ s a); simpl; auto.
Qed.

(** No [reset] node ever changes the settings by its deletions. *)
Lemma reset_deletions_settings (env : Env) (it : Item) (s : dict) :
  fst (reset_deletions env it s) = s.
Proof.
  unfold reset_deletions.
  destruct (get it "reset_keys").
  - destruct (py_iter v); [apply delete_keys_settings | reflexivity].
  - destruct (get it "reset_key_regexp"); [|reflexivity].
    destruct (compile env v); [apply delete_where_settings | reflexivity].
Qed.

(** The loop over the key snapshot raises at the first key that matches. *)
Lemma delete_where_match (m : string -> bool) (ks : list string) (s : dict) :
  (exists key, In key ks /\ m key = true) ->
  delete_where
    (fun v => match v with VStr x => Ok (m x) | _ => Raise TypeError end)
    (map VStr ks) s
  = (s, Raise AttributeError).
Proof.
  induction ks as [|k ks IH]; intros (key & I & M); [contradiction|].
  simpl. destruct (m k) eqn:E; [reflexivity|].
  apply IH. destruct I as [->|I]; [congruence | eauto].
Qed.

(** C2, at the failing input.  A [reset] node never deletes a setting: the
    store class has no [__delitem__], so [del settings[key]] raises
    [AttributeError] at the first key of the snapshot that matches the
    regular expression and the scan ends with that exception; the settings
    are left as they were, the matching ones included.  On the store of the
    scenario, with the keys [temp.a], [temp.b] and [keep], [next()] raises
    [AttributeError] and all three keys are still there. *)
Theorem reset_regexp_deletes_nothing :
  (forall env it s, fst (reset_deletions env it s) = s)
  /\ (forall env it s pat m key,
        get it "reset_keys" = None ->
        get it "reset_key_regexp" = Some (VStr pat) ->
        re_compile env pat = Ok m ->
        In key (Store.keys s) -> m key = true ->
        reset_deletions env it s = (s, Raise AttributeError))
  /\ Store.items Examples.temp_store
     = [("temp.a", VInt 1); ("temp.b", VStr "x"); ("keep", VInt 3)]
  /\ next Examples.bare_env 3 3
       (Examples.interview_of [VDict Examples.temp_reset] Examples.temp_store)
     = (Examples.interview_of [VDict Examples.temp_reset] Examples.temp_store,
        Raised AttributeError).
Proof.
  split; [exact reset_deletions_settings|].
  split; [|split; reflexivity].
  intros env it s pat m key K R C I M.
  unfold reset_deletions, compile. rewrite K, R, C. simpl.
  apply delete_where_match. eauto.
Qed.

(** C2 on the scenario's store and pattern. *)
Lemma reset_regexp_deletes_nothing_witness :
  reset_deletions Examples.bare_env (Spec.item_of [] Examples.temp_reset)
    Examples.temp_store
  = (Examples.temp_store, Raise AttributeError).
Proof.
  refine (proj1 (proj2 reset_regexp_deletes_nothing) Examples.bare_env
            (Spec.item_of [] Examples.temp_reset) Examples.temp_store
            "^temp\..*" (String.prefix "temp.") "temp.a"
            eq_refl eq_refl eq_refl _ eq_refl).
  simpl. tauto.
Defined.

(** A [reset] node without [key] whose deletions run through hands over to
    the next sibling. *)
Lemma keyless_reset_step (env : Env) (hm : option string)
    (rec : value -> list nat -> dict -> value * dict * outcome)
    (wp : list nat) (i : nat) (c : dict) (s : dict) :
  Spec.plain c ->
  dict_get c "kind" = Some (VStr "reset") ->
  dict_get c "disabled" = None ->
  dict_get c "key" = None ->
  snd (reset_deletions env (Spec.item_of wp c) s) = Ok tt ->
  walk_item env hm rec wp i (VDict c) s = (VDict c, s, NotFound).
Proof.
  intros P K D N R. unfold walk_item. rewrite D, K. simpl.
  rewrite (init_of_plain env wp c P).
  pose proof (reset_deletions_settings env (Spec.item_of wp c) s) as F.
  destruct (reset_deletions env (Spec.item_of wp c) s) as [s' r].
  simpl in *. subst s' r.
  unfold set_if_needed, dict_mem. now rewrite N.
Qed.

(** So does one whose key is already stored, unless [force] is set. *)
Lemma stored_reset_step (env : Env) (hm : option string)
    (rec : value -> list nat -> dict -> value * dict * outcome)
    (wp : list nat) (i : nat) (c : dict) (s : dict) (k : value)
    (g : Store.got) :
  Spec.plain c ->
  dict_get c "kind" = Some (VStr "reset") ->
  dict_get c "disabled" = None ->
  dict_mem c "key" = true ->
  dict_get c "force" = None ->
  snd (reset_deletions env (Spec.item_of wp c) s) = Ok tt ->
  ItemModel.get_fqkey (Spec.item_of wp c) s VNone = Ok k ->
  Store.get s k = Some g ->
  walk_item env hm rec wp i (VDict c) s = (VDict c, s, NotFound).
Proof.
  intros P K D M Fo R Q G. unfold walk_item. rewrite D, K. simpl.
  rewrite (init_of_plain env wp c P).
  pose proof (reset_deletions_settings env (Spec.item_of wp c) s) as F.
  destruct (reset_deletions env (Spec.item_of wp c) s) as [s' r].
  simpl in *. subst s' r.
  unfold set_if_needed. rewrite M, Q, G. unfold get. simpl. now rewrite Fo.
Qed.

(** C3, at the failing inputs.  A [reset] node raises the restart signal
    only when it commits its own [key]: without a [key], or with a key the
    store already holds and no [force], the scan goes on with the next
    sibling.  The document [idle_reset; name_question] returns the question
    from one scan, with no restart. *)
Theorem reset_without_commit_goes_on :
  (forall env hm rec wp i c s,
     Spec.plain c ->
     dict_get c "kind" = Some (VStr "reset") ->
     dict_get c "disabled" = None ->
     dict_get c "key" = None ->
     snd (reset_deletions env (Spec.item_of wp c) s) = Ok tt ->
     walk_item env hm rec wp i (VDict c) s = (VDict c, s, NotFound))
  /\ walk Examples.bare_env None 2
       (VList [VDict Examples.idle_reset; VDict Examples.name_question]) [] []
     = (VList [VDict Examples.idle_reset; VDict Examples.name_question], [],
        Found (Spec.item_of [] Examples.name_question))
  /\ walk Examples.bare_env None 2
       (VList [VDict Examples.keyed_reset; VDict Examples.name_question]) []
       [("stage", VInt 1)]
     = (VList [VDict Examples.keyed_reset; VDict Examples.name_question],
        [("stage", VInt 1)],
        Found (Spec.item_of [] Examples.name_question))
  /\ walk Examples.bare_env None 2
       (VList [VDict Examples.keyed_reset; VDict Examples.name_question]) []
       []
     = (VList [VDict Examples.keyed_reset; VDict Examples.name_question],
        [("stage", VInt 1)], Raised RetryWalk).
Proof.
  split; [exact keyless_reset_step|]. repeat split.
Qed.

(** C3 on the node [idle_reset]. *)
Lemma reset_without_commit_goes_on_witness :
  walk_item Examples.bare_env None (walk Examples.bare_env None 1) [] 0
    (VDict Examples.idle_reset) []
  = (VDict Examples.idle_reset, [], NotFound).
Proof.
  apply (proj1 reset_without_commit_goes_on); repeat split.
Defined.

End Reset.

(** ** Where [Item.set] writes *)

Section CommitKey.

Import ItemModel Engine.

(** Whatever [Item.set] commits, it commits under [self.key], the key the
    item was constructed with. *)
Lemma set_writes_self_key (env : Env) (it : Item) (v : value) (s s' : dict) :
  ItemModel.set env it v s = Ok s' ->
  exists k x, key it = Some k /\ Store.__setitem__ s k x = Ok s'.
Proof.
  unfold ItemModel.set.
  destruct (dict_get (ItemModel.config it) "type"); [|discriminate].
  intro H. bind_inv H. bind_inv H. bind_inv H. bind_inv H.
  unfold commit in H. destruct (key it) as [k|]; [|discriminate].
  now exists k, a0.
Qed.

(** Without [section] and [parameterize] the fully qualified key of a
    string key is that key. *)
Lemma fqkey_bare (it : Item) (s : dict) (k : string) :
  dict_get (ItemModel.config it) "section" = None ->
  dict_get (ItemModel.config it) "parameterize" = None ->
  dict_get (ItemModel.config it) "key" = Some (VStr k) ->
  ItemModel.get_fqkey it s VNone = Ok (VStr k).
Proof.
  intros S P K. unfold ItemModel.get_fqkey. rewrite S, P, K. simpl.
  now destruct (substringb "." k).
Qed.

(** C1, at the failing inputs.  [Item.set] commits under [self.key], which
    [walk] sets to the node's bare [key], not to the fully qualified key it
    tests.  For the question [host] of the section [net] the scan waits for
    [net.host]; the answer is stored under [host], [net.host] stays absent
    and the next scan returns the same question.  For the parameterized
    question [size] of the section [disk], with the counter at 2, the scan
    waits for [disk.size.2] and the answer is stored under [size]. *)
Theorem set_commits_under_bare_key :
  (forall env it v s s',
     ItemModel.set env it v s = Ok s' ->
     exists k x, key it = Some k /\ Store.__setitem__ s k x = Ok s')
  /\ (let doc := [VDict Examples.host_question] in
      next Examples.bare_env 2 2 (Examples.interview_of doc [])
      = (Examples.interview_of doc [], Found Examples.host_item)
      /\ ItemModel.get_fqkey Examples.host_item [] VNone
         = Ok (VStr "net.host")
      /\ ItemModel.set Examples.bare_env Examples.host_item (VStr "alpha") []
         = Ok [("host", VStr "alpha")]
      /\ Store.get [("host", VStr "alpha")] (VStr "net.host") = None
      /\ next Examples.bare_env 2 2
           (Examples.interview_of doc [("host", VStr "alpha")])
         = (Examples.interview_of doc [("host", VStr "alpha")],
            Found Examples.host_item))
  /\ (let doc := [VDict Examples.disk_question] in
      next Examples.bare_env 2 2 (Examples.interview_of doc [("n", VInt 2)])
      = (Examples.interview_of doc [("n", VInt 2)], Found Examples.disk_item)
      /\ ItemModel.get_fqkey Examples.disk_item [("n", VInt 2)] VNone
         = Ok (VStr "disk.size.2")
      /\ ItemModel.set Examples.bare_env Examples.disk_item (VStr "40")
           [("n", VInt 2)]
         = Ok [("n", VInt 2); ("size", VInt 40)]).
Proof.
  split; [exact set_writes_self_key|]. repeat split.
Qed.

(** A [set] node with a section never settles: each scan commits under the
    bare key, finds the qualified key still absent on the next one and
    restarts, whatever the number of scans allowed. *)
Lemma sectioned_set_never_settles (retries : nat) :
  let itv := Examples.interview_of [VDict Examples.mode_set]
               [("mode", VStr "fast")] in
  next Examples.bare_env (S retries) 1
    (Examples.interview_of [VDict Examples.mode_set] [])
  = (itv, OutOfFuel)
  /\ next Examples.bare_env retries 1 itv = (itv, OutOfFuel).
Proof.
  cbv zeta.
  assert (H : forall n,
             next Examples.bare_env n 1
               (Examples.interview_of [VDict Examples.mode_set]
                  [("mode", VStr "fast")])
             = (Examples.interview_of [VDict Examples.mode_set]
                  [("mode", VStr "fast")], OutOfFuel)).
  { induction n as [|n IH]; [reflexivity|].
    change (next Examples.bare_env (S n) 1
              (Examples.interview_of [VDict Examples.mode_set]
                 [("mode", VStr "fast")]))
      with (next Examples.bare_env n 1
              (Examples.interview_of [VDict Examples.mode_set]
                 [("mode", VStr "fast")])).
    exact IH. }
  split; [|apply H].
  change (next Examples.bare_env (S retries) 1
            (Examples.interview_of [VDict Examples.mode_set] []))
    with (next Examples.bare_env retries 1
            (Examples.interview_of [VDict Examples.mode_set]
               [("mode", VStr "fast")])).
  apply H.
Qed.

(** C1 on the question [host]. *)
Lemma set_commits_under_bare_key_witness :
  exists k x, key Examples.host_item = Some k
              /\ Store.__setitem__ [] k x = Ok [("host", VStr "alpha")].
Proof.
  exact (proj1 set_commits_under_bare_key Examples.bare_env
           Examples.host_item (VStr "alpha") [] [("host", VStr "alpha")]
           eq_refl).
Defined.

End CommitKey.

(** ** Update nodes *)

Section Update.

Import ItemModel Engine Spec.

(** A path that resolves has no leaf on its way. *)
Lemma resolved_no_conflict (s : dict) (ks : list string) (x : value) :
  Store._find (VDict s) ks = Ok x -> ~ conflict s ks.
Proof.
  intros F (p & q & -> & _ & Nq & v & Fv & L).
  destruct (find_prefix_dict p q _ _ Nq F) as [sub Fs].
  rewrite Fs in Fv. injection Fv as <-. discriminate.
Qed.

Lemma read_after_set (s s' : dict) (k : string) (z : Z) :
  Store.__setitem__ s (VStr k) (VInt z) = Ok s' ->
  read_counter s' (VStr k) = Ok z.
Proof.
  intro S. unfold read_counter.
  destruct (setitem_get_items s s' k (VInt z) eq_refl S) as [G _].
  now rewrite G.
Qed.

Variable env : Env.
Variable hm : option string.
Variable c : dict.
Variable k : string.
Variable v : Z.
Hypothesis counting : counting_update c k v.

(** What [Item.set] does with the sum the update node hands it. *)
Lemma update_set (wp : list nat) (s : dict) (z : Z) :
  ItemModel.set env (item_of wp c) (VInt z) s
  = Store.__setitem__ s (VStr k) (VInt z).
Proof.
  destruct counting
    as ((_ & _ & _ & _ & V) & K & _ & Ky & T & Rq & Rx & Rg & _).
  unfold ItemModel.set, item_of. simpl. rewrite T, K. simpl.
  unfold validate. rewrite Rq, V, Rx, Rg, Ky.
  now destruct (dict_get c "default").
Qed.

(** One pass over the node adds [v] to the counter and hands over to the
    next sibling. *)
Lemma update_step (rec : value -> list nat -> dict -> value * dict * outcome)
    (wp : list nat) (i : nat) (s s' : dict) (n : Z) :
  read_counter s (VStr k) = Ok n ->
  Store.__setitem__ s (VStr k) (VInt (n + v)) = Ok s' ->
  walk_item env hm rec wp i (VDict c) s = (VDict c, s', NotFound).
Proof.
  intros R S.
  pose proof counting as (P & K & D & Ky & _ & _ & _ & _ & V).
  unfold walk_item. rewrite D, K. simpl.
  rewrite (init_of_plain env wp c P).
  unfold do_update, get. simpl. rewrite Ky, V, R, update_set, S. reflexivity.
Qed.

Lemma walk_items_cons
    (rec : value -> list nat -> dict -> value * dict * outcome)
    (wp : list nat) (i : nat) (node : value) (rest : list value) (s : dict) :
  walk_items env hm rec wp i (node :: rest) s
  = match walk_item env hm rec wp i node s with
    | (node', s', NotFound) =>
        let '(rest', s'', o) := walk_items env hm rec wp (S i) rest s' in
        (node' :: rest', s'', o)
    | (node', s', o) => (node' :: rest, s', o)
    end.
Proof. reflexivity. Qed.

(** C10. A scan is not read-only on an [update] node: each pass of [walk]
    over the node adds its value ([1] when it declares none) to the stored
    counter and goes on with the next sibling; so for the document made of
    the node alone two consecutive calls of [next()] leave the counter at
    [n + v] and then at [n + v + v], two different stores unless [v] is 0.
    With a pending question after the node, both calls return that question
    and the counter is 1 after the first and 2 after the second. *)
Theorem update_runs_on_every_scan (s s1 : dict) (n : Z) :
  read_counter s (VStr k) = Ok n ->
  Store.__setitem__ s (VStr k) (VInt (n + v)) = Ok s1 ->
  (dict_get c "value" = None -> v = 1)
  /\ (forall rec wp i rest,
        walk_items env hm rec wp i (VDict c :: rest) s
        = let '(rest', s', o) := walk_items env hm rec wp (S i) rest s1 in
          (VDict c :: rest', s', o))
  /\ (exists s2,
        (forall retries depth,
           next env (S retries) (S depth) (solo hm c s)
           = (solo hm c s1, NotFound)
           /\ next env (S retries) (S depth) (solo hm c s1)
              = (solo hm c s2, NotFound))
        /\ Store.get s1 (VStr k) = Some (Store.GValue (VInt (n + v)))
        /\ Store.get s2 (VStr k) = Some (Store.GValue (VInt (n + v + v)))
        /\ (v <> 0 -> s2 <> s1))
  /\ (let doc := [VDict Examples.count_update; VDict Examples.name_question] in
      let q := Found (item_of [] Examples.name_question) in
      next Examples.bare_env 1 1 (Examples.interview_of doc [])
      = (Examples.interview_of doc [("count", VInt 1)], q)
      /\ next Examples.bare_env 1 1
           (Examples.interview_of doc [("count", VInt 1)])
         = (Examples.interview_of doc [("count", VInt 2)], q)).
Proof.
  intros R St.
  assert (W : forall rec wp i rest s0 s0' n0,
             read_counter s0 (VStr k) = Ok n0 ->
             Store.__setitem__ s0 (VStr k) (VInt (n0 + v)) = Ok s0' ->
             walk_items env hm rec wp i (VDict c :: rest) s0
             = let '(rest', s', o) := walk_items env hm rec wp (S i) rest s0' in
               (VDict c :: rest', s', o)).
  { intros rec wp i rest s0 s0' n0 R0 S0.
    now rewrite walk_items_cons, (update_step rec wp i s0 s0' n0 R0 S0). }
  assert (N : forall s0 s0' n0 retries depth,
             read_counter s0 (VStr k) = Ok n0 ->
             Store.__setitem__ s0 (VStr k) (VInt (n0 + v)) = Ok s0' ->
             next env (S retries) (S depth) (solo hm c s0)
             = (solo hm c s0', NotFound)).
  { intros s0 s0' n0 retries depth R0 S0. unfold solo.
    cbn [next walk home config settings py_iter].
    now rewrite walk_items_cons,
      (update_step (walk env hm depth) [] 0%nat s0 s0' n0 R0 S0). }
  pose proof (read_after_set _ _ _ _ St) as R1.
  destruct (setitem_free s1 k (VInt (n + v + v))
              (resolved_no_conflict _ _ _ (setitem_find _ _ _ _ St)))
    as [s2 S2].
  pose proof (setitem_get_items s s1 k (VInt (n + v)) eq_refl St) as [G1 _].
  pose proof (setitem_get_items s1 s2 k (VInt (n + v + v)) eq_refl S2)
    as [G2 _].
  split; [|split; [|split]].
  - intro V. destruct counting as (_ & _ & _ & _ & _ & _ & _ & _ & I).
    rewrite V in I. simpl in I. congruence.
  - intros rec wp i rest. now apply W with (n0 := n).
  - exists s2. split; [|split; [|split]]; auto.
    + intros retries depth. split; [now apply N with (n0 := n)|].
      now apply N with (n0 := n + v).
    + intros Nz E. rewrite E, G1 in G2. injection G2 as G2. lia.
  - split; reflexivity.
Qed.

End Update.

(** C10 on the node [count_update] and the empty store. *)
Lemma update_runs_on_every_scan_witness :
  Engine.next Examples.bare_env 1 1
    (Examples.interview_of [VDict Examples.count_update] [])
  = (Examples.interview_of [VDict Examples.count_update]
       [("count", VInt 1)], Engine.NotFound).
Proof.
  assert (C : Spec.counting_update Examples.count_update "count" 1)
    by (repeat split).
  destruct (update_runs_on_every_scan Examples.bare_env None
              Examples.count_update "count" 1 C [] [("count", VInt 1)] 0
              eq_refl eq_refl)
    as (_ & _ & (s2 & Sc & _) & _).
  exact (proj1 (Sc 0%nat 0%nat)).
Defined.

(* ================================================================== *)
(** * Further properties of the store                                  *)
(* ================================================================== *)

Section StoreFrame.

Import Store Shape.

Variable final : string.
Variable x : value.

Lemma find_empty_cons (k : string) (ks : list string) :
  _find (VDict []) (k :: ks) = Raise KeyError.
Proof. reflexivity. Qed.

Lemma setitem_path_dict (inner : list string) (v r : value) :
  setitem_path v inner final x = Ok r -> exists d, v = VDict d.
Proof.
  destruct v; try (now eauto); intro H; exfalso;
    pose proof (setitem_path_leaf final x inner) as L.
  all: match type of H with
       | setitem_path ?v _ _ _ = _ => specialize (L v eq_refl)
       end; rewrite H in L; discriminate.
Qed.

(** A write leaves every path alone that parts ways with the written one. *)
Lemma setitem_path_frame (inner : list string) :
  forall v r p, setitem_path v inner final x = Ok r ->
                diverge p (inner ++ [final]) ->
                _find r p = _find v p.
Proof.
  induction inner as [|k ks IH]; intros v r p H (c & a & b & p' & q' & -> & Q & N).
  - destruct c as [|c0 c]; [|destruct c; discriminate].
    simpl in Q. injection Q as <- _.
    simpl in H. destruct v; try discriminate. injection H as <-.
    simpl. now rewrite dict_get_set_other.
  - destruct (setitem_path_dict _ _ _ H) as [d ->].
    simpl in H. unfold dict_mem in H.
    destruct c as [|c0 c].
    + simpl in Q. injection Q as <- _. simpl app.
      destruct (dict_get d k) as [child|] eqn:G; simpl in H.
      * bind_inv H. injection H as <-. simpl.
        now rewrite dict_get_set_other.
      * bind_inv H. injection H as <-. simpl.
        now rewrite !dict_get_set_other.
    + simpl in Q. injection Q as <- Q. simpl app.
      assert (Dv : diverge (c ++ a :: p') (ks ++ [final])).
      { exists c, a, b, p', q'. auto. }
      destruct (dict_get d k) as [child|] eqn:G; simpl in H.
      * bind_inv H. injection H as <-. simpl.
        rewrite dict_get_set_same, G. eapply IH; eauto.
      * bind_inv H. injection H as <-. simpl.
        rewrite dict_get_set_same, G.
        rewrite (IH _ _ _ Ha Dv). now destruct c.
Qed.

End StoreFrame.

Section StoreCompose.

Import Store Shape.

Lemma setitem_other_get (d d' : dict) (key other : string) (x : value) :
  __setitem__ d (VStr key) x = Ok d' ->
  diverge (split_on sep other) (split_on sep key) ->
  get d' (VStr other) = get d (VStr other)
  /\ __contains__ d' (VStr other) = __contains__ d (VStr other).
Proof.
  intros S D. rewrite setitem_unfold in S. cbv zeta in S.
  destruct (setitem_path _ _ _ _) as [r|] eqn:P; [|discriminate].
  destruct r; try discriminate. injection S as ->.
  rewrite <- (removelast_last_eq (split_on sep key) "") in D
    by apply split_on_not_nil.
  pose proof (setitem_path_frame _ _ _ _ _ _ P D) as F.
  unfold get, __contains__, __getitem__. simpl. now rewrite F.
Qed.

(** X1. A successful write changes no setting whose dotted key parts ways
    with the written one: [get] and [in] answer for it as before. *)
Theorem setitem_frame (d d' : dict) (key other : string) (x : value) :
  __setitem__ d (VStr key) x = Ok d' ->
  diverge (split_on sep other) (split_on sep key) ->
  get d' (VStr other) = get d (VStr other)
  /\ __contains__ d' (VStr other) = __contains__ d (VStr other).
Proof.
  intros S D. rewrite setitem_unfold in S. cbv zeta in S.
  destruct (setitem_path _ _ _ _) as [r|] eqn:P; [|discriminate].
  destruct r; try discriminate. injection S as ->.
  rewrite <- (removelast_last_eq (split_on sep key) "") in D
    by apply split_on_not_nil.
  pose proof (setitem_path_frame _ _ _ _ _ _ P D) as F.
  unfold get, __contains__, __getitem__. simpl. now rewrite F.
Qed.

(** X1 on a store with [a.b]: writing [a.c] leaves [a.b] as it is. *)
Lemma setitem_frame_witness :
  get [("a", VDict [("b", VInt 1); ("c", VInt 2)])] (VStr "a.b")
  = Some (GValue (VInt 1)).
Proof.
  refine (eq_trans
            (proj1 (setitem_frame [("a", VDict [("b", VInt 1)])] _
                      "a.c" "a.b" (VInt 2) eq_refl _)) eq_refl).
  exists ["a"], "b", "c", [], []. repeat split. discriminate.
Defined.

Lemma dict_set_set (d : dict) (k : string) (x y : value) :
  dict_set (dict_set d k x) k y = dict_set d k y.
Proof.
  induction d as [|[k' v'] d IH]; simpl.
  - now rewrite String.eqb_refl.
  - destruct (String.eqb k k') eqn:E; simpl; rewrite E; [reflexivity|].
    now rewrite IH.
Qed.

Lemma setitem_path_twice (final : string) (x y : value)
    (inner : list string) :
  forall v r, setitem_path v inner final x = Ok r ->
              setitem_path r inner final y = setitem_path v inner final y.
Proof.
  induction inner as [|k ks IH]; intros v r H.
  - simpl in *. destruct v; try discriminate. injection H as <-.
    simpl. now rewrite dict_set_set.
  - destruct (setitem_path_dict _ _ _ _ _ H) as [d ->].
    simpl in H. unfold dict_mem in H.
    destruct (dict_get d k) as [child|] eqn:G; simpl in H;
      bind_inv H; injection H as <-;
      cbn [setitem_path py_in bind]; rewrite ?dict_set_set;
      rewrite dict_mem_set_same; cbn [negb is_dict py_getitem bind];
      rewrite dict_get_set_same; cbn [bind]; rewrite (IH _ _ Ha).
    + unfold dict_mem. rewrite G. cbn [negb bind].
      destruct (setitem_path child ks final y); simpl; [|reflexivity].
      now rewrite dict_set_set.
    + unfold dict_mem. rewrite G. cbn [negb py_setitem bind].
      destruct (setitem_path (VDict []) ks final y); simpl; [|reflexivity].
      now rewrite !dict_set_set.
Qed.

(** X2. The last write wins: after a successful [self[key] = x], writing
    [y] under the same key gives the store that writing [y] alone would have
    given; in particular writing [x] again changes nothing. *)
Theorem setitem_overwrite (d d1 : dict) (key : string) (x y : value) :
  __setitem__ d (VStr key) x = Ok d1 ->
  __setitem__ d1 (VStr key) y = __setitem__ d (VStr key) y
  /\ __setitem__ d1 (VStr key) x = Ok d1.
Proof.
  intro S.
  assert (T : forall z, __setitem__ d1 (VStr key) z
                        = __setitem__ d (VStr key) z).
  { intro z. rewrite setitem_unfold in S. cbv zeta in S.
    destruct (setitem_path (VDict d) _ _ x) as [r|] eqn:P; [|discriminate].
    destruct r; try discriminate. injection S as ->.
    rewrite !setitem_unfold. cbv zeta.
    now rewrite (setitem_path_twice _ x z _ _ _ P). }
  split; [apply T | now rewrite T].
Qed.

(** X2 on the store of the design document's round trip. *)
Lemma setitem_overwrite_witness :
  __setitem__ [("a", VDict [("b", VDict [("c", VInt 5)])])] (VStr "a.b.c")
    (VInt 6)
  = Ok [("a", VDict [("b", VDict [("c", VInt 6)])])].
Proof.
  exact (eq_trans
           (proj1 (setitem_overwrite [] _ "a.b.c" (VInt 5) (VInt 6) eq_refl))
           eq_refl).
Defined.

End StoreCompose.

(** ** Segments and separators *)

Section Segments.

Import Store Shape.

Lemma has_sep_cons (c : ascii) (s : string) :
  substringb "." (String c s) = Ascii.eqb c sep || substringb "." s.
Proof.
  change (substringb "." (String c s))
    with ((if ascii_dec "." c then String.prefix "" s else false)
          || substringb "." s).
  destruct (ascii_dec "." c) as [<-|N].
  - now destruct s.
  - destruct (Ascii.eqb c sep) eqn:E; [|reflexivity].
    apply Ascii.eqb_eq in E. unfold sep in E. congruence.
Qed.

Lemma split_on_plain (a : string) :
  substringb "." a = false -> split_on sep a = [a].
Proof.
  induction a as [|c a IH]; [reflexivity|].
  rewrite has_sep_cons. intro H. apply orb_false_elim in H as [E H].
  simpl. rewrite E, (IH H). reflexivity.
Qed.

Lemma split_on_app (a b : string) :
  substringb "." a = false ->
  split_on sep (a ++ String sep b) = a :: split_on sep b.
Proof.
  induction a as [|c a IH].
  - intros _. reflexivity.
  - rewrite has_sep_cons. intro H. apply orb_false_elim in H as [E H].
    simpl. rewrite E, (IH H). reflexivity.
Qed.

(** Splitting undoes joining when no segment holds the separator. *)
Lemma split_join (ks : list string) :
  ks <> [] -> Forall (fun k => substringb "." k = false) ks ->
  split_on sep (join_on sep ks) = ks.
Proof.
  induction ks as [|k ks IH]; [contradiction|]. intros _ F.
  inversion F as [|? ? Hk Hks]; subst.
  destruct ks as [|k2 ks]; [now apply split_on_plain|].
  change (join_on sep (k :: k2 :: ks))
    with (k ++ String sep (join_on sep (k2 :: ks)))%string.
  rewrite split_on_app by exact Hk.
  now rewrite IH.
Qed.

(** No segment of a split key holds the separator. *)
Lemma split_on_segments (s : string) :
  Forall (fun k => substringb "." k = false) (split_on sep s).
Proof.
  induction s as [|c s IH]; [repeat constructor|].
  simpl. destruct (Ascii.eqb c sep) eqn:E.
  - constructor; [reflexivity | exact IH].
  - destruct (split_on sep s) as [|w ws]; [repeat constructor|].
    + rewrite has_sep_cons, E. reflexivity.
    + inversion IH; subst. constructor; [|assumption].
      now rewrite has_sep_cons, E.
Qed.

Lemma seg_ok_spec (k : string) :
  seg_ok k = true <-> k <> "" /\ substringb "." k = false.
Proof.
  unfold seg_ok. rewrite andb_true_iff, !negb_true_iff, String.eqb_neq.
  reflexivity.
Qed.

End Segments.

(** ** Well-formed stores *)

Section WellFormed.

Import Store Shape.

Lemma wf_cons (k : string) (x : value) (d : dict) :
  wf (VDict ((k, x) :: d)) = true <->
  existsb (String.eqb k) (map fst d) = false
  /\ seg_ok k = true /\ wf x = true /\ wf (VDict d) = true.
Proof.
  change (wf (VDict ((k, x) :: d)))
    with (negb (existsb (String.eqb k) (map fst d)) && unique (map fst d)
          && (seg_ok k && wf x
              && (fix all (d : list (string * value)) : bool :=
                    match d with
                    | [] => true
                    | (k, x) :: d' => seg_ok k && wf x && all d'
                    end) d)).
  change (wf (VDict d))
    with (unique (map fst d)
          && (fix all (d : list (string * value)) : bool :=
                match d with
                | [] => true
                | (k, x) :: d' => seg_ok k && wf x && all d'
                end) d).
  rewrite !andb_true_iff, negb_true_iff. tauto.
Qed.

Lemma existsb_eqb_false (k : string) (ks : list string) :
  existsb (String.eqb k) ks = false <-> ~ In k ks.
Proof.
  induction ks as [|a ks IH]; simpl; [tauto|].
  rewrite orb_false_iff, IH, String.eqb_neq. intuition congruence.
Qed.

(** In a well-formed mapping an entry is what [dict_get] finds under its
    key, and is well-formed under a proper segment. *)
Lemma wf_entry (d : dict) (k : string) (x : value) :
  wf (VDict d) = true -> In (k, x) d ->
  dict_get d k = Some x /\ seg_ok k = true /\ wf x = true.
Proof.
  induction d as [|[k' x'] d IH]; intros W I; [contradiction|].
  apply wf_cons in W as (U & K & X & W).
  destruct I as [E|I].
  - injection E as -> ->. simpl. now rewrite String.eqb_refl.
  - simpl. destruct (String.eqb k k') eqn:E.
    + apply String.eqb_eq in E. subst k'.
      apply existsb_eqb_false in U. exfalso. apply U.
      now apply (in_map fst) in I.
    + now apply IH.
Qed.

Lemma wf_get (d : dict) (k : string) (x : value) :
  wf (VDict d) = true -> dict_get d k = Some x ->
  seg_ok k = true /\ wf x = true.
Proof.
  intros W G. apply dict_get_In in G.
  now destruct (wf_entry d k x W G) as (_ & ? & ?).
Qed.

Lemma dict_set_keys (d : dict) (k : string) (x : value) :
  forall k', In k' (map fst (dict_set d k x)) <-> k' = k \/ In k' (map fst d).
Proof.
  induction d as [|[k0 x0] d IH]; intro k'; simpl.
  - intuition.
  - destruct (String.eqb k k0) eqn:E; simpl.
    + apply String.eqb_eq in E. subst. intuition.
    + rewrite IH. intuition.
Qed.

(** [d[k] = x] keeps a mapping well-formed. *)
Lemma wf_dict_set (d : dict) (k : string) (x : value) :
  wf (VDict d) = true -> seg_ok k = true -> wf x = true ->
  wf (VDict (dict_set d k x)) = true.
Proof.
  induction d as [|[k0 x0] d IH]; intros W K X.
  - simpl dict_set. apply wf_cons. now repeat split.
  - apply wf_cons in W as (U & K0 & X0 & W). simpl.
    destruct (String.eqb k k0) eqn:E.
    + apply wf_cons. now repeat split.
    + apply wf_cons. repeat split; auto.
      apply existsb_eqb_false. rewrite dict_set_keys.
      apply existsb_eqb_false in U. apply String.eqb_neq in E.
      intuition congruence.
Qed.

End WellFormed.

Section WellFormedStore.

Import Store Shape.

Lemma setitem_path_wf (final : string) (x : value) (inner : list string) :
  forall v r, setitem_path v inner final x = Ok r ->
              wf v = true -> wf x = true ->
              Forall (fun k => seg_ok k = true) (inner ++ [final]) ->
              wf r = true.
Proof.
  induction inner as [|k ks IH]; intros v r H W X F.
  - simpl in *. destruct v; try discriminate. injection H as <-.
    inversion F; subst. now apply wf_dict_set.
  - destruct (setitem_path_dict _ _ _ _ _ H) as [d ->].
    simpl app in F. inversion F as [|? ? Fk Fks]; subst.
    simpl in H. unfold dict_mem in H.
    destruct (dict_get d k) as [child|] eqn:G; simpl in H;
      bind_inv H; injection H as <-.
    + apply wf_dict_set; auto.
      eapply IH; eauto. now destruct (wf_get d k child W G).
    + apply wf_dict_set; auto; [now apply wf_dict_set|].
      eapply IH; eauto.
Qed.

(** X3. Writes through dotted keys keep the store well-formed: if every
    mapping of the store has each key once and only non-empty segments
    without separator as keys, then so has the store after
    [self[key] = x], for a key without empty segment and a well-formed
    [x]. *)
Theorem setitem_keeps_wf (d d' : dict) (key : string) (x : value) :
  wf (VDict d) = true -> wf x = true ->
  Forall (fun k => k <> "") (split_on sep key) ->
  __setitem__ d (VStr key) x = Ok d' ->
  wf (VDict d') = true.
Proof.
  intros W X N S. rewrite setitem_unfold in S. cbv zeta in S.
  destruct (setitem_path _ _ _ _) as [r|] eqn:P; [|discriminate].
  destruct r; try discriminate. injection S as ->.
  apply (setitem_path_wf _ _ _ _ _ P W X).
  rewrite removelast_last_eq by apply split_on_not_nil.
  pose proof (split_on_segments key) as Sg.
  rewrite Forall_forall in *. intros k I. apply seg_ok_spec. auto.
Qed.

(** X3 on the round trip of the design document. *)
Lemma setitem_keeps_wf_witness :
  wf (VDict [("a", VDict [("b", VDict [("c", VInt 5)])])]) = true.
Proof.
  apply (setitem_keeps_wf [] _ "a.b.c" (VInt 5) eq_refl eq_refl);
    [|reflexivity].
  repeat constructor; discriminate.
Defined.

Lemma size_cons (k : string) (x : value) (d : dict) :
  size (VDict ((k, x) :: d)) = (size x + size (VDict d))%nat.
Proof. simpl. lia. Qed.

Lemma size_entry (d : dict) (k : string) (x : value) :
  In (k, x) d -> (size x < size (VDict d))%nat.
Proof.
  induction d as [|[k' x'] d IH]; intro I; [contradiction|].
  rewrite size_cons. destruct I as [E|I].
  - injection E as -> ->. destruct d; simpl; lia.
  - specialize (IH I). lia.
Qed.

Lemma walk_value_in (pref : option string) (d : dict) (e : string * value) :
  In e (walk_value pref (VDict d)) ->
  exists k c, In (k, c) d
              /\ In e (match c with
                       | VDict _ => walk_value (Some (extend_pref pref k)) c
                       | _ => [(extend_pref pref k, c)]
                       end).
Proof.
  induction d as [|[k c] d IH]; [contradiction|].
  rewrite walk_value_cons. intro I. apply in_app_or in I as [I|I].
  - exists k, c. split; [now left | exact I].
  - destruct (IH I) as (k' & c' & I' & H). exists k', c'. split; [now right | exact H].
Qed.

(** What [_walk] lists, [_find] reaches: by a path of proper segments. *)
Lemma walk_find (n : nat) :
  forall v pref s x,
    (size v <= n)%nat -> wf v = true -> In (s, x) (walk_value pref v) ->
    exists ks, ks <> [] /\ Forall (fun k => seg_ok k = true) ks
               /\ _find v ks = Ok x /\ is_dict x = false
               /\ s = Spec.flat pref ks.
Proof.
  induction n as [|n IH]; intros v pref s x Sz W I.
  - destruct v; simpl in Sz; lia.
  - destruct v as [| | | | |d]; try contradiction.
    destruct (walk_value_in _ _ _ I) as (k & c & Ik & Ic).
    destruct (wf_entry d k c W Ik) as (G & K & Wc).
    pose proof (size_entry d k c Ik) as Lt.
    assert (Leaf : is_dict c = false ->
                   In (s, x) [(extend_pref pref k, c)] ->
                   exists ks, ks <> [] /\ Forall (fun k => seg_ok k = true) ks
                              /\ _find (VDict d) ks = Ok x
                              /\ is_dict x = false
                              /\ s = Spec.flat pref ks).
    { intros L [E|[]]. injection E as <- <-. exists [k].
      repeat split; auto; try discriminate. simpl. now rewrite G. }
    destruct c as [| | | | |dc]; try (now apply Leaf).
    destruct (IH (VDict dc) (Some (extend_pref pref k)) s x
                ltac:(lia) Wc Ic) as (ks & N & F & Fd & L & E).
    exists (k :: ks). repeat split; auto; try discriminate.
    simpl. now rewrite G.
Qed.

Lemma flat_proper (ks : list string) :
  ks <> [] -> Forall (fun k => seg_ok k = true) ks ->
  Spec.flat None ks = join_on sep ks /\ split_on sep (join_on sep ks) = ks.
Proof.
  intros N F. split.
  - destruct ks as [|k ks]; [contradiction|].
    inversion F as [|? ? Hk _]; subst. apply seg_ok_spec in Hk as [Hk _].
    simpl Spec.flat. rewrite flat_join by exact Hk. now destruct ks.
  - apply split_join; [exact N|].
    rewrite Forall_forall in *. intros k I. now apply seg_ok_spec, F.
Qed.

(** X4. In a well-formed store [items()] lists exactly the settings that
    [get] resolves to a leaf: [(key, x)] is listed if and only if
    [get(key)] is [x]; and every key that [keys()] lists is [in] the
    store. *)
Theorem items_are_the_leaves (d : dict) :
  wf (VDict d) = true ->
  (forall key x, In (key, x) (items d)
                 <-> get d (VStr key) = Some (GValue x))
  /\ (forall key, In key (keys d) -> __contains__ d (VStr key) = true).
Proof.
  intro W.
  assert (Fwd : forall key x, In (key, x) (items d) ->
                  _find (VDict d) (split_on sep key) = Ok x
                  /\ is_dict x = false).
  { intros key x I.
    destruct (walk_find _ (VDict d) None key x (le_n _) W I)
      as (ks & N & F & Fd & L & ->).
    destruct (flat_proper ks N F) as [-> ->]. auto. }
  split.
  - intros key x. split.
    + intro I. destruct (Fwd key x I) as [F L].
      unfold get, __contains__, __getitem__. simpl. rewrite F.
      now destruct x.
    + unfold get, __contains__, __getitem__. simpl.
      destruct (_find (VDict d) (split_on sep key)) as [v|] eqn:F;
        [|discriminate].
      intro H.
      assert (v = x /\ is_dict x = false) as [-> L]
        by (destruct v; inversion H; auto).
      unfold items, _walk. rewrite <- (flat_split key).
      * apply find_walk; [apply split_on_not_nil | exact F | exact L].
      * destruct (split_on sep key) as [|k ks] eqn:S;
          [now apply split_on_not_nil in S|].
        apply find_cons_dict in F as (d0 & child & [= <-] & G & _).
        destruct (wf_get d k child W G) as [K _].
        apply seg_ok_spec in K. simpl. tauto.
  - intros key I. unfold keys in I. apply in_map_iff in I as ([k x] & <- & I).
    destruct (Fwd k x I) as [F _].
    unfold __contains__. simpl. now rewrite F.
Qed.

(** X4 on the store of the reset scenario. *)
Lemma items_are_the_leaves_witness :
  get Examples.temp_store (VStr "temp.b") = Some (GValue (VStr "x")).
Proof.
  apply (proj1 (items_are_the_leaves Examples.temp_store eq_refl)).
  simpl. tauto.
Defined.

End WellFormedStore.

(* ================================================================== *)
(** * Further properties of [Item.set]                                 *)
(* ================================================================== *)

Section SetDefaults.

Import ItemModel Shape.

Variable env : Env.


End SetDefaults.


Section SetPrecedence.

Import ItemModel Shape.

Variable env : Env.

(** Rewrites the fields of [it'] that [A] equates into those of [it]. *)
Ltac same_fields A :=
  repeat match goal with
         | |- context [dict_get (config ?j) ?f] =>
             lazymatch type of A with
             | agree_except _ _ (config j) =>
                 rewrite <- (A f) by (simpl; intuition discriminate)
             end
         end.

(** X6. The first constraint that applies is the only one consulted: once a
    node declares [values], its [regexp] and [range] have no effect on
    [Item.set], not even that of an exception for a pattern that does not
    compile or a malformed range; and once it declares [regexp] (and no
    [values]), its [range] has none. *)
Theorem set_first_constraint_only (it it' : Item) (v : value) (s : dict) :
  (same_but ["regexp"; "range"] it it' ->
   dict_mem (config it) "values" = true ->
   set env it v s = set env it' v s)
  /\ (same_but ["range"] it it' ->
      dict_mem (config it) "regexp" = true ->
      set env it v s = set env it' v s).
Proof.
  split; intros (K & Ki & A) M; unfold set, validate; rewrite <- K, <- Ki;
    same_fields A; unfold dict_mem in M.
  - destruct (dict_get (config it) "values"); [reflexivity | discriminate].
  - destruct (dict_get (config it) "regexp"); [reflexivity | discriminate].
Qed.

Lemma agree_drop_last (c : dict) (f : string) (x : value) :
  agree_except [f] (c ++ [(f, x)]) c.
Proof.
  intros k N. induction c as [|[k0 x0] c IH]; simpl.
  - destruct (String.eqb k f) eqn:E; [|reflexivity].
    apply String.eqb_eq in E. subst. exfalso. apply N. now left.
  - now rewrite IH.
Qed.

Lemma validate_required_irrelevant (c c' : dict) (typ : value)
    (xvalues : list value) :
  agree_except ["required"] c c' -> xvalues <> [] ->
  validate env c typ xvalues = validate env c' typ xvalues.
Proof.
  intros A N. unfold validate.
  rewrite <- (A "values"), <- (A "regexp"), <- (A "range")
    by (simpl; intuition discriminate).
  destruct xvalues; [contradiction|]. simpl. now rewrite !andb_false_r.
Qed.

(** What [convert] gives for the types [bool], [int] and [csv]: never the
    empty list. *)
Lemma convert_not_empty (t : string) (w v0 : value) :
  In t ["bool"; "int"; "csv"] -> convert (VStr t) w = Ok v0 ->
  v0 <> VList [].
Proof.
  intros [<-|[<-|[<-|[]]]] C; unfold convert in C; simpl in C.
  - injection C as <-. discriminate.
  - destruct (py_int w); [injection C as <-|]; discriminate.
  - destruct w; try discriminate. injection C as <-.
    pose proof (split_on_not_nil ","%char s) as N.
    destruct (split_on ","%char s); [contradiction | discriminate].
Qed.

(** X7. [required] guards only against an empty list.  For a node of type
    [bool], [int] or [csv] it has no effect at all on [Item.set]: the value
    checked is a scalar or a list with at least one element, the empty
    answer of a [csv] included. *)
Theorem set_required_only_for_lists (it it' : Item) (t : string) (v : value)
    (s : dict) :
  same_but ["required"] it it' ->
  dict_get (config it) "type" = Some (VStr t) ->
  In t ["bool"; "int"; "csv"] ->
  set env it v s = set env it' v s.
Proof.
  intros (K & Ki & A) T I. unfold set. rewrite <- K, <- Ki.
  rewrite <- (A "type"), <- (A "default"), <- (A "multivalue")
    by (simpl; intuition discriminate).
  rewrite T.
  destruct (if py_eq (kind it) (VStr "notice") then _ else _) as [w|];
    [|reflexivity].
  cbn [bind].
  destruct (convert (VStr t) _) as [v0|] eqn:C; [|reflexivity].
  apply (convert_not_empty t _ _ I) in C.
  cbn [bind].
  destruct v0 as [| | | |l|];
    try (cbn [bind];
         now rewrite (validate_required_irrelevant _ _ _ _ A)
           by discriminate).
  destruct (negb _); [reflexivity|]. cbn [bind].
  rewrite (validate_required_irrelevant _ _ _ _ A); [reflexivity|].
  intros ->. now apply C.
Qed.

End SetPrecedence.

(** X7 on a [csv] question, and the same marked [required]. *)
Lemma set_required_only_for_lists_witness :
  ItemModel.set Examples.bare_env (Spec.item_of [] Nodes.tags_required) (VStr "") []
  = Ok [("tags", VList [VStr ""])].
Proof.
  refine (eq_trans
            (set_required_only_for_lists Examples.bare_env
               (Spec.item_of [] Nodes.tags_required)
               (Spec.item_of [] Nodes.tags_question) "csv" (VStr "") []
               _ eq_refl _) eq_refl).
  - repeat split. intros k N. apply agree_drop_last.
    intros [<-|[]]. apply N. simpl. tauto.
  - simpl. tauto.
Defined.

(** X6 on a question with [values] and a range none of them lies in. *)
Lemma set_first_constraint_only_witness :
  ItemModel.set Examples.bare_env (Spec.item_of [] Nodes.pick_ranged) (VStr "1") []
  = Ok [("n", VInt 1)].
Proof.
  refine (eq_trans
            (proj1 (set_first_constraint_only Examples.bare_env
                      (Spec.item_of [] Nodes.pick_ranged)
                      (Spec.item_of [] Nodes.pick_question)
                      (VStr "1") []) _ eq_refl) eq_refl).
  repeat split. intros k N. apply agree_drop_last.
  intros [<-|[]]. apply N. simpl. tauto.
Defined.

Section SetLists.

Import ItemModel Shape.

Variable env : Env.

Lemma split_ws_blank (a : string) : blank a = true -> split_ws a = [].
Proof.
  unfold split_ws. induction a as [|c a IH]; [reflexivity|].
  simpl. intro H. apply andb_true_iff in H as [C B]. rewrite C. auto.
Qed.

(** X8. The list types need [multivalue]: a node of type [csv] or [ssv]
    that is no notice, has no [default] and does not declare a true
    [multivalue] rejects every text answer with [ValueError]; and with
    [multivalue] and [required], an [ssv] node rejects every answer made of
    white space only. *)
Theorem set_list_types (it : Item) (t : string) (s : dict) :
  dict_get (config it) "type" = Some (VStr t) ->
  In t ["csv"; "ssv"] ->
  py_eq (kind it) (VStr "notice") = false ->
  dict_get (config it) "default" = None ->
  (match dict_get (config it) "multivalue" with
   | Some m => py_bool m
   | None => false
   end = false ->
   forall a, set env it (VStr a) s = Raise ValueError)
  /\ (t = "ssv" ->
      match dict_get (config it) "multivalue" with
      | Some m => py_bool m
      | None => false
      end = true ->
      match dict_get (config it) "required" with
      | Some r => py_bool r
      | None => false
      end = true ->
      forall a, blank a = true -> set env it (VStr a) s = Raise ValueError).
Proof.
  intros T I N D. split.
  - intros M a. unfold set. rewrite T, N, D, M.
    destruct I as [<-|[<-|[]]]; reflexivity.
  - intros -> M R a B. unfold set. rewrite T, N, D, M.
    unfold convert. simpl. rewrite (split_ws_blank a B). simpl.
    unfold validate. now rewrite R.
Qed.

End SetLists.

(** X8 on an [ssv] question without [multivalue]. *)
Lemma set_list_types_witness :
  ItemModel.set Examples.bare_env (Spec.item_of [] Nodes.hosts_question) (VStr "alpha beta") []
  = Raise ValueError.
Proof.
  refine (proj1 (set_list_types Examples.bare_env (Spec.item_of [] Nodes.hosts_question)
                   "ssv" [] eq_refl _ eq_refl eq_refl) eq_refl _).
  simpl. tauto.
Defined.

(* ================================================================== *)
(** * Further properties of the constructor                            *)
(* ================================================================== *)

Section InitTwice.

Import ItemModel Shape.

Variable env : Env.




End InitTwice.


Section InitIdempotent.

Import ItemModel Shape Spec.

Variable env : Env.

Lemma map_result_ints (zs : list Z) :
  map_result py_int (map VInt zs) = Ok zs.
Proof.
  induction zs as [|z zs IH]; [reflexivity|]. simpl. now rewrite IH.
Qed.

Lemma dict_set_same_value (c : dict) (k : string) (x : value) :
  dict_get c k = Some x -> dict_set c k x = c.
Proof.
  induction c as [|[k0 x0] c IH]; simpl; [discriminate|].
  destruct (String.eqb k k0) eqn:E.
  - now intros [= ->].
  - intro G. now rewrite IH.
Qed.

Lemma sort_Z_of_sorted (l : list Z) : Sorted Z.le l -> sort_Z l = l.
Proof.
  induction l as [|x l IH]; intro S; [reflexivity|].
  inversion S as [|? ? S' H]; subst. simpl. rewrite (IH S').
  destruct l as [|y l]; [reflexivity|].
  inversion H; subst. simpl.
  replace (y <? x) with false by (symmetry; apply Z.ltb_ge; lia).
  reflexivity.
Qed.

(** What a successful run of the two last steps leaves in a node of type
    [int] with [values]: integers, in ascending order if [asc] was asked. *)
Lemma int_values_after (c c1 : dict) (vals : value) :
  dict_get c "values" = Some vals ->
  dict_get c "type" = Some (VStr "int") ->
  and_then (step_convert_values c) step_sort_values = (c1, Ok tt) ->
  exists zs, dict_get c1 "values" = Some (VList (map VInt zs))
             /\ (forall order, dict_get c "values_sort" = Some order ->
                               py_eq order (VStr "asc") = true ->
                               Sorted Z.le zs).
Proof.
  intros V T H. unfold and_then, step_convert_values in H.
  rewrite V, T in H. cbn [str_is String.eqb Ascii.eqb Bool.eqb] in H.
  destruct (l <- py_iter vals ;; map_result py_int l) as [zs|];
    [|discriminate].
  unfold step_sort_values in H. rewrite dict_get_set_same in H.
  rewrite dict_get_set_other in H by discriminate.
  destruct (dict_get c "values_sort") as [order|].
  - destruct (py_eq order (VStr "asc")) eqn:A.
    + cbn [py_iter bind] in H. rewrite py_sorted_ints in H.
      injection H as <-. exists (sort_Z zs).
      rewrite dict_get_set_same. split; [reflexivity|].
      intros. apply sort_Z_sorted.
    + destruct (py_eq order (VStr "desc")); [discriminate|].
      injection H as <-. exists zs. rewrite dict_get_set_same.
      split; [reflexivity|]. intros o [= <-]. congruence.
  - injection H as <-. exists zs. rewrite dict_get_set_same.
    split; [reflexivity | discriminate].
Qed.

Lemma init_config_static (c : dict) :
  dict_get c "default_from_file" = None ->
  dict_get c "values_from_directory" = None ->
  dict_get c "values_from_file" = None ->
  dict_get c "values_regexp" = None ->
  init_config env c = and_then (step_convert_values c) step_sort_values.
Proof.
  intros H1 H2 H3 H4.
  unfold init_config, step_default_from_file, step_values_from_directory,
    step_values_from_file, step_values_regexp.
  rewrite H1. cbn [and_then]. rewrite H2. cbn [and_then].
  rewrite H3. cbn [and_then]. rewrite H4. reflexivity.
Qed.

(** X10. Without run-time fields the constructor is idempotent on the node
    it rewrites: for a node without [default_from_file],
    [values_from_directory], [values_from_file] and [values_regexp], and
    with [values_sort] only on type [int], a construction that succeeds
    leaves the node in a state that a second construction neither changes
    nor rejects, so that a later scan sees the same item. *)
Theorem init_idempotent (wp : list nat) (k : option value) (c c1 : dict)
    (it : Item) :
  dict_get c "default_from_file" = None ->
  dict_get c "values_from_directory" = None ->
  dict_get c "values_from_file" = None ->
  dict_get c "values_regexp" = None ->
  dict_get c "values_sort" = None \/ dict_get c "type" = Some (VStr "int") ->
  __init__ env wp k c = (c1, Ok it) ->
  __init__ env wp k c1 = (c1, Ok it).
Proof.
  intros H1 H2 H3 H4 Hs HI.
  assert (O : forall f, f <> "default" -> f <> "values" ->
                        dict_get c1 f = dict_get c f).
  { intros f Nd Nv. rewrite <- (init_other env f Nd Nv wp k c).
    now rewrite HI. }
  unfold __init__ in HI.
  destruct (init_config env c) as [c' [[]|e]] eqn:IC; [|discriminate].
  injection HI as -> <-.
  enough (E : init_config env c1 = (c1, Ok tt)) by (unfold __init__; now rewrite E).
  rewrite (init_config_static c H1 H2 H3 H4) in IC.
  rewrite init_config_static
    by (rewrite O by discriminate; assumption).
  destruct (dict_get c "values") as [vals|] eqn:V.
  - destruct (dict_get c "type") as [typ|] eqn:T;
      [|unfold and_then, step_convert_values in IC;
        rewrite V, T in IC; discriminate].
    destruct (str_is typ "int") eqn:TI.
    + assert (typ = VStr "int") as ->.
      { destruct typ; try discriminate. simpl in TI.
        apply String.eqb_eq in TI. now subst. }
      destruct (int_values_after c c1 vals V T IC) as (zs & V1 & Srt).
      unfold and_then, step_convert_values, step_sort_values.
      rewrite V1, (O "type"), T by discriminate.
      cbn [str_is String.eqb Ascii.eqb Bool.eqb py_iter bind].
      rewrite map_result_ints. cbv beta iota.
      rewrite (dict_set_same_value c1 "values" _ V1), V1.
      rewrite (O "values_sort") by discriminate.
      destruct (dict_get c "values_sort") as [order|] eqn:Os; [|reflexivity].
      destruct (py_eq order (VStr "asc")) eqn:A.
      * cbn [py_iter bind]. rewrite py_sorted_ints.
        rewrite (sort_Z_of_sorted zs (Srt order eq_refl A)).
        now rewrite (dict_set_same_value c1 "values" _ V1).
      * unfold and_then, step_convert_values, step_sort_values in IC.
        rewrite V, T in IC.
        cbn [str_is String.eqb Ascii.eqb Bool.eqb] in IC.
        destruct (l <- py_iter vals ;; map_result py_int l);
          [|discriminate].
        rewrite dict_get_set_same in IC.
        rewrite dict_get_set_other, Os, A in IC by discriminate.
        destruct (py_eq order (VStr "desc")); [discriminate | reflexivity].
    + destruct Hs as [Hs|Hs]; [|injection Hs as ->; discriminate].
      unfold and_then, step_convert_values, step_sort_values in IC.
      rewrite V, T, TI in IC.
      destruct (str_is typ "float") eqn:TF; [discriminate|].
      rewrite V, Hs in IC. injection IC as <-.
      unfold and_then, step_convert_values, step_sort_values.
      now rewrite V, T, TI, TF, V, Hs.
  - unfold and_then, step_convert_values, step_sort_values in IC.
    rewrite V in IC. cbv beta iota in IC. rewrite V in IC.
    injection IC as <-.
    unfold and_then, step_convert_values, step_sort_values.
    rewrite V. cbv beta iota. now rewrite V.
Qed.

End InitIdempotent.

(** X10 on the question with the values [1] and [2]. *)
Lemma init_idempotent_witness :
  ItemModel.__init__ Examples.bare_env [] (Some (VStr "n"))
    Nodes.pick_question
  = (Nodes.pick_question,
     Ok (Spec.item_of [] Nodes.pick_question)).
Proof.
  exact (init_idempotent Examples.bare_env [] (Some (VStr "n"))
           Nodes.pick_question Nodes.pick_question
           (Spec.item_of [] Nodes.pick_question)
           eq_refl eq_refl eq_refl eq_refl (or_introl eq_refl) eq_refl).
Defined.

(* ================================================================== *)
(** * Further properties of the scan                                   *)
(* ================================================================== *)

Section ScanQuestions.

Import ItemModel Engine Scan.

Variable env : Env.
Variable hm : option string.

(** Without [section] and [parameterize], [get_fqkey] gives back a text key
    as it is, whether passed or the node's own. *)
Lemma bare_fqkey (kd : string) (c : dict) (wp : list nat) (s : dict)
    (k : string) :
  bare_node kd c ->
  ItemModel.get_fqkey (Spec.item_of wp c) s (VStr k) = Ok (VStr k)
  /\ (dict_get c "key" = Some (VStr k) ->
      ItemModel.get_fqkey (Spec.item_of wp c) s VNone = Ok (VStr k)).
Proof.
  intros (_ & _ & _ & S & P). split.
  - unfold ItemModel.get_fqkey. simpl. rewrite S, P. simpl.
    now destruct (substringb "." k).
  - intro K. now apply fqkey_bare.
Qed.

(** The scan at a question: it stops there if the question is pending and
    goes on otherwise; the settings and the node stay as they are. *)
Lemma question_step
    (rec : value -> list nat -> dict -> value * dict * outcome)
    (wp : list nat) (i : nat) (c : dict) (k : string) (s : dict) :
  asks c k ->
  walk_item env hm rec wp i (VDict c) s
  = (VDict c, s,
     if pending s c k then Found (Spec.item_of wp c) else NotFound).
Proof.
  intros (B & K).
  assert (Bn : exists kd, bare_node kd c
                          /\ (kd = "question" \/ kd = "notice")).
  { destruct B; eauto. }
  destruct Bn as (kd & Bk & Kd).
  pose proof Bk as (P & Kn & D & _ & _).
  destruct (bare_fqkey kd c wp s k Bk) as [_ F]. specialize (F K).
  unfold walk_item. fold (flag c "disabled"). rewrite D, Kn.
  assert (L : item_cls_lookup (Some (VStr kd))
              = Ok (Some (if String.eqb kd "question" then Question
                          else Notice))).
  { destruct Kd as [-> | ->]; reflexivity. }
  rewrite L, (init_of_plain env wp c P).
  assert (E : set_if_needed env (if String.eqb kd "question" then Question
                                 else Notice) (Spec.item_of wp c) c s
              = (s, if pending s c k then Found (Spec.item_of wp c)
                    else NotFound)).
  { unfold set_if_needed, dict_mem, pending, flag, get. rewrite K, F.
    change (ItemModel.config (Spec.item_of wp c)) with c.
    destruct (Store.get s (VStr k)); simpl;
      destruct Kd as [-> | ->]; simpl;
      try destruct (match dict_get c "force" with
                    | Some f => py_bool f
                    | None => false
                    end); reflexivity. }
  destruct Kd as [-> | ->]; simpl in *; now rewrite E.
Qed.

(** X11. A scan over plain questions returns the first pending one and
    changes nothing.  The nodes are questions and notices that are enabled,
    have a string [key], no [section] and no [parameterize], and neither
    [values] nor one of the run-time fields [default_from_file],
    [values_from_directory], [values_from_file], [values_regexp], so that
    the constructor has nothing to rewrite in them.  For a sequence of such
    nodes [walk] stops at the first whose key is absent from the settings
    (or that sets [force]) and ends with none when there is no such node;
    settings and document are left as they were, and [next()] needs one
    scan. *)
Theorem scan_returns_first_pending (qs : list (dict * string)) (s : dict) :
  Forall (fun q => asks (fst q) (snd q)) qs ->
  (forall rec wp i,
     walk_items env hm rec wp i (map (fun q => VDict (fst q)) qs) s
     = (map (fun q => VDict (fst q)) qs, s, asked wp (first_pending s qs)))
  /\ (forall retries depth,
        next env (S retries) (S depth)
          (interview hm (map (fun q => VDict (fst q)) qs) s)
        = (interview hm (map (fun q => VDict (fst q)) qs) s,
           asked [] (first_pending s qs))).
Proof.
  intro F.
  assert (W : forall rec' wp i,
             walk_items env hm rec' wp i (map (fun q => VDict (fst q)) qs) s
             = (map (fun q => VDict (fst q)) qs, s,
                asked wp (first_pending s qs))).
  { intros rec' wp. induction F as [|[c k] qs A F IH]; intro i;
      [reflexivity|].
    simpl map. rewrite walk_items_cons.
    pose proof (question_step rec' wp i c k s A) as Q.
    rewrite Q. simpl first_pending.
    destruct (pending s c k); [reflexivity|].
    now rewrite IH. }
  split; [apply W|].
  intros retries depth. unfold interview.
  cbn [next walk home config settings py_iter]. rewrite W.
  now destruct (first_pending s qs).
Qed.

(** What [Item.set] commits depends on the item and the answer only: it
    is one value, written under [self.key] into whatever settings there
    are. *)
Lemma set_commits_one_value (it : Item) (v : value) (s s' : dict) :
  ItemModel.set env it v s = Ok s' ->
  exists k x, key it = Some k
              /\ forall s2, ItemModel.set env it v s2
                            = Store.__setitem__ s2 k x.
Proof.
  unfold ItemModel.set.
  destruct (dict_get (ItemModel.config it) "type"); [|discriminate].
  intro H. bind_inv H. bind_inv H. bind_inv H. bind_inv H.
  unfold commit in H. destruct (key it) as [k|]; [|discriminate].
  exists k, a0. split; [reflexivity|]. intro s2.
  rewrite Ha. cbn [bind]. rewrite Ha0. cbn [bind]. rewrite Ha1. cbn [bind].
  rewrite Ha2. reflexivity.
Qed.

(** X12. An answer settles its plain question and no other.  The node is a
    question or notice that is enabled, has a string [key], no [section],
    no [parameterize], no [force], and neither [values] nor one of the
    run-time fields [default_from_file], [values_from_directory],
    [values_from_file], [values_regexp].  After [Item.set] has succeeded on
    the item of such a node, the node is no longer pending and the scan
    passes it by, leaving the settings alone; and a node whose dotted key
    parts ways with the answered one is pending exactly if it was. *)
Theorem answer_settles_its_question (wp : list nat) (c : dict) (k : string)
    (v : value) (s s' : dict) :
  asks c k -> flag c "force" = false ->
  ItemModel.set env (Spec.item_of wp c) v s = Ok s' ->
  pending s' c k = false
  /\ (forall rec wp' i,
        walk_item env hm rec wp' i (VDict c) s' = (VDict c, s', NotFound))
  /\ (forall c2 k2,
        Shape.diverge (split_on Store.sep k2) (split_on Store.sep k) ->
        pending s' c2 k2 = pending s c2 k2).
Proof.
  intros A Fo St.
  destruct (set_writes_self_key env _ _ _ _ St) as (k' & x & Ky & W).
  destruct A as (B & K). simpl in Ky. rewrite K in Ky. injection Ky as <-.
  assert (P : pending s' c k = false).
  { unfold pending. apply setitem_find in W.
    unfold Store.get, Store.__contains__, Store.__getitem__. simpl.
    rewrite W, Fo. now destruct x. }
  split; [exact P|]. split.
  - intros rec wp' i.
    rewrite (question_step rec wp' i c k s' (conj B K)). now rewrite P.
  - intros c2 k2 D. unfold pending.
    now destruct (setitem_other_get s s' k k2 x W D) as [-> _].
Qed.

End ScanQuestions.

(** X11 on the single question of the design document's scenario. *)
Lemma scan_returns_first_pending_witness :
  Engine.next Examples.bare_env 1 1
    (Scan.interview None [VDict Examples.name_question] [])
  = (Scan.interview None [VDict Examples.name_question] [],
     Engine.Found (Spec.item_of [] Examples.name_question)).
Proof.
  refine (proj2 (scan_returns_first_pending Examples.bare_env None
                   [(Examples.name_question, "name")] [] _) 0%nat 0%nat).
  repeat constructor.
Defined.

(** X12 on that question, answered [alice]. *)
Lemma answer_settles_its_question_witness :
  Scan.pending [("name", VStr "alice")] Examples.name_question "name"
  = false.
Proof.
  refine (proj1 (answer_settles_its_question Examples.bare_env None []
                   Examples.name_question "name" (VStr "alice") []
                   [("name", VStr "alice")] _ eq_refl eq_refl)).
  repeat constructor.
Defined.

Section ScanBranches.

Import ItemModel Engine Scan.

Variable env : Env.
Variable hm : option string.

Lemma got_in_list (g : option Store.got) (l : list value) :
  got_in g (VList l) = Ok (member g l).
Proof. destruct g as [[v|d]|]; reflexivity. Qed.

(** X13. A plain conditional branch is entered or passed by on the current
    value of its [match_key] alone.  The branch is enabled, has no [key],
    no [section] and no [parameterize] (so that [match_key] is its own
    fully qualified key), neither [values] nor one of the run-time fields
    [default_from_file], [values_from_directory], [values_from_file],
    [values_regexp], a string [match_key], lists for those of
    [match_values] and [match_not_values] it declares, and an [interview].
    With [match_values] only, the scan enters the subtree exactly when the
    setting holds one of them; with [match_not_values] only, exactly when
    it holds none of them (an absent setting enters); with both, unless the
    value is outside [match_values] and inside [match_not_values]; with
    neither list the branch is never entered.  A branch passed by costs
    nothing: the subtree is not scanned.  A branch entered is scanned only
    if its subtree is not empty, and holds the subtree as that scan leaves
    it. *)
Theorem branch_entered_on_match
    (rec : value -> list nat -> dict -> value * dict * outcome)
    (wp : list nat) (i : nat) (c : dict) (mk : string)
    (mv mnv : option (list value)) (sub : value) (s : dict) :
  tests c mk mv mnv sub ->
  walk_item env hm rec wp i (VDict c) s
  = if passes_by s mk mv mnv then (VDict c, s, NotFound)
    else if py_bool sub
         then let '(sub', s', o) := rec sub (wp ++ [i]) s in
              (VDict (dict_set c "interview" sub'), s', o)
         else (VDict c, s, NotFound).
Proof.
  intros (B & K & Mk & Mv & Mn & Iv).
  pose proof B as (P & Kn & D & _ & _).
  destruct (bare_fqkey "branch" c wp s mk B) as [F _].
  unfold walk_item. fold (flag c "disabled"). rewrite D, Kn.
  cbn [item_cls_lookup String.eqb Ascii.eqb Bool.eqb].
  rewrite (init_of_plain env wp c P).
  assert (Sk : branch_skipped (Spec.item_of wp c) s
               = Ok (passes_by s mk mv mnv)).
  { unfold branch_skipped, get.
    change (ItemModel.config (Spec.item_of wp c)) with c.
    rewrite Mk. cbn [bind]. rewrite F. cbn [bind]. rewrite Mv, Mn.
    unfold passes_by.
    destruct mv as [l|]; destruct mnv as [l'|]; simpl;
      rewrite ?got_in_list; simpl;
      try destruct (member (Store.get s (VStr mk)) l); simpl;
      rewrite ?got_in_list; reflexivity. }
  rewrite Sk. destruct (passes_by s mk mv mnv); [reflexivity|].
  unfold set_if_needed, dict_mem. rewrite K.
  unfold enter_branch, get.
  change (ItemModel.config (Spec.item_of wp c)) with c. rewrite Iv.
  destruct (py_bool sub); [|reflexivity].
  now destruct (rec sub (wp ++ [i]) s) as [[sub' s'] o].
Qed.

End ScanBranches.

(** X13 on the branch of the design document's example, with the setting
    [os] at [debian]: the branch is passed by. *)
Lemma branch_entered_on_match_witness :
  Engine.walk_item Examples.bare_env None
    (Engine.walk Examples.bare_env None 1) [] 0 (VDict Nodes.os_branch)
    [("os", VStr "debian")]
  = (VDict Nodes.os_branch, [("os", VStr "debian")], Engine.NotFound).
Proof.
  refine (eq_trans
            (branch_entered_on_match Examples.bare_env None _ [] 0
               Nodes.os_branch "os" (Some [VStr "ubuntu"; VStr "centos"])
               None (VList [VDict Examples.name_question])
               [("os", VStr "debian")] _) eq_refl).
  repeat split.
Defined.

Section ScanIncludes.

Import ItemModel Engine Scan.

Variable env : Env.
Variable hm : option string.

Lemma load_resolved (p : string) :
  _load env hm (VStr p) = yaml_load env (resolved hm p).
Proof.
  unfold _load, resolved. destruct hm as [h|]; simpl;
    [destruct (substringb "/" p)|]; reflexivity.
Qed.

Variable c : dict.
Variable p : string.
Hypothesis c_plain : Spec.plain c.
Hypothesis c_kind : dict_get c "kind" = Some (VStr "include").
Hypothesis c_enabled : flag c "disabled" = false.
Hypothesis c_path : dict_get c "path" = Some (VStr p).

Lemma include_step
    (rec : value -> list nat -> dict -> value * dict * outcome)
    (wp : list nat) (i : nat) (s : dict) :
  walk_item env hm rec wp i (VDict c) s
  = match yaml_load env (resolved hm p) with
    | Ok sub => (VDict (included p sub), s, Raised RetryWalk)
    | Raise e => (VDict (half_included p), s, Raised e)
    end.
Proof.
  unfold walk_item. fold (flag c "disabled"). rewrite c_enabled, c_kind.
  cbn [item_cls_lookup String.eqb Ascii.eqb Bool.eqb].
  rewrite (init_of_plain env wp c c_plain).
  unfold do_include, get.
  change (ItemModel.config (Spec.item_of wp c)) with c. rewrite c_path.
  cbn [py_format]. rewrite load_resolved.
  now destruct (yaml_load env (resolved hm p)).
Qed.

(** X14. An [include] is expanded once, in place: when the file its [path]
    names (below the home directory if the path has no [/]) loads, the scan
    rewrites the node into a branch named [included-<path>] that holds the
    loaded document, and restarts; [next()] goes on as if the document had
    held that branch all along, and the branch is scanned like any other,
    with no further load. *)
Theorem include_expands_in_place (sub : value) (s : dict) :
  yaml_load env (resolved hm p) = Ok sub ->
  (forall rec wp i,
     walk_item env hm rec wp i (VDict c) s
     = (VDict (included p sub), s, Raised RetryWalk))
  /\ (forall retries depth rest,
        next env (S retries) (S depth) (interview hm (VDict c :: rest) s)
        = next env retries (S depth)
            (interview hm (VDict (included p sub) :: rest) s))
  /\ (forall rec wp i,
        walk_item env hm rec wp i (VDict (included p sub)) s
        = if py_bool sub
          then let '(sub', s', o) := rec sub (wp ++ [i]) s in
               (VDict (included p sub'), s', o)
          else (VDict (included p sub), s, NotFound)).
Proof.
  intro L. split; [|split].
  - intros rec wp i. now rewrite include_step, L.
  - intros retries depth rest. unfold interview.
    cbn [next walk home config settings py_iter].
    now rewrite walk_items_cons, include_step, L.
  - intros rec wp i. unfold walk_item, included. simpl.
    unfold enter_branch, get. simpl.
    destruct (py_bool sub); [|reflexivity].
    now destruct (rec sub (wp ++ [i]) s) as [[sub' s'] o].
Qed.

(** X15. An include that fails to load is not tried again: the exception
    of the loader ends [next()], the node is left as a branch with a name
    and no subtree, and every later scan that reaches it raises
    [TypeError]. *)
Theorem include_failure_leaves_a_stub (e : exn) (s : dict) :
  yaml_load env (resolved hm p) = Raise e -> e <> RetryWalk ->
  (forall retries depth rest,
     next env (S retries) (S depth) (interview hm (VDict c :: rest) s)
     = (interview hm (VDict (half_included p) :: rest) s, Raised e))
  /\ (forall retries depth rest s2,
        next env (S retries) (S depth)
          (interview hm (VDict (half_included p) :: rest) s2)
        = (interview hm (VDict (half_included p) :: rest) s2,
           Raised TypeError)).
Proof.
  intros L N. split.
  - intros retries depth rest. unfold interview.
    cbn [next walk home config settings py_iter].
    rewrite walk_items_cons, include_step, L.
    destruct e; try reflexivity. contradiction.
  - reflexivity.
Qed.

End ScanIncludes.

(** X14 on the include of [more.yaml] below [/etc]. *)
Lemma include_expands_in_place_witness :
  Engine.next Nodes.more_env 2 2
    (Scan.interview (Some "/etc") [VDict Nodes.more_include] [])
  = (Scan.interview (Some "/etc")
       [VDict (Scan.included "more.yaml"
                 (VList [VDict Examples.name_question]))] [],
     Engine.Found (Spec.item_of [0%nat] Examples.name_question)).
Proof.
  refine (eq_trans
            (proj1 (proj2 (include_expands_in_place Nodes.more_env
                             (Some "/etc") Nodes.more_include "more.yaml"
                             _ eq_refl eq_refl eq_refl
                             (VList [VDict Examples.name_question]) []
                             eq_refl)) 1%nat 1%nat []) eq_refl).
  repeat split.
Defined.

(** X15 on the same include where no file can be read. *)
Lemma include_failure_leaves_a_stub_witness :
  Engine.next Examples.bare_env 1 1
    (Scan.interview None [VDict Nodes.more_include] [])
  = (Scan.interview None [VDict (Scan.half_included "more.yaml")] [],
     Engine.Raised OSError).
Proof.
  refine (proj1 (include_failure_leaves_a_stub Examples.bare_env None
                   Nodes.more_include "more.yaml" _ eq_refl eq_refl eq_refl
                   OSError [] eq_refl _) 0%nat 0%nat []).
  - repeat split.
  - discriminate.
Defined.

Section ScanSets.

Import ItemModel Engine Scan.

Variable env : Env.
Variable hm : option string.
Variable c : dict.
Variable k : string.
Hypothesis c_sets : sets c k.

Lemma set_step
    (rec : value -> list nat -> dict -> value * dict * outcome)
    (wp : list nat) (i : nat) (s : dict) :
  walk_item env hm rec wp i (VDict c) s
  = if pending s c k
    then match ItemModel.set env (Spec.item_of [] c) (own_value c) s with
         | Ok s' => (VDict c, s', Raised RetryWalk)
         | Raise e => (VDict c, s, Raised e)
         end
    else (VDict c, s, NotFound).
Proof.
  destruct c_sets as (B & K). pose proof B as (P & Kn & D & _ & _).
  destruct (bare_fqkey "set" c wp s k B) as [_ F]. specialize (F K).
  unfold walk_item. fold (flag c "disabled"). rewrite D, Kn.
  cbn [item_cls_lookup String.eqb Ascii.eqb Bool.eqb].
  rewrite (init_of_plain env wp c P).
  unfold set_if_needed, dict_mem, get, pending, flag, own_value.
  change (ItemModel.config (Spec.item_of wp c)) with c. rewrite K, F.
  change (ItemModel.set env (Spec.item_of wp c))
    with (ItemModel.set env (Spec.item_of [] c)).
  destruct (Store.get s (VStr k)); simpl;
    try destruct (match dict_get c "force" with
                  | Some f => py_bool f
                  | None => false
                  end); simpl;
    try destruct (ItemModel.set env (Spec.item_of [] c) _ s); reflexivity.
Qed.

Lemma setitem_again (d d1 : dict) (key : string) (x : value) :
  Store.__setitem__ d (VStr key) x = Ok d1 ->
  Store.__setitem__ d1 (VStr key) x = Ok d1.
Proof.
  intro S. pose proof S as S'. rewrite setitem_unfold in S. cbv zeta in S.
  destruct (Store.setitem_path (VDict d) _ _ x) as [r|] eqn:P;
    [|discriminate].
  destruct r; try discriminate. injection S as ->.
  rewrite <- S'. rewrite !setitem_unfold. cbv zeta.
  now rewrite (setitem_path_twice _ x x _ _ _ P).
Qed.

(** What a successful commit of the node leaves: its key is there, and
    committing again changes nothing. *)
Lemma set_node_committed (s s' : dict) :
  ItemModel.set env (Spec.item_of [] c) (own_value c) s = Ok s' ->
  Store.get s' (VStr k) <> None
  /\ ItemModel.set env (Spec.item_of [] c) (own_value c) s' = Ok s'.
Proof.
  intro St. destruct c_sets as (_ & K).
  destruct (set_commits_one_value env _ _ _ _ St) as (k' & x & Ky & W).
  simpl in Ky. rewrite K in Ky. injection Ky as <-.
  rewrite W in St. split.
  - apply setitem_find in St.
    unfold Store.get, Store.__contains__, Store.__getitem__. simpl.
    rewrite St. now destruct x.
  - rewrite W. exact (setitem_again s s' k x St).
Qed.

(** X16. A plain [set] node commits once.  The node is enabled, has a
    string [key], no [section], no [parameterize], no [force], and neither
    [values] nor one of the run-time fields [default_from_file],
    [values_from_directory], [values_from_file], [values_regexp]; it
    stands first in the document, its key is absent from the settings and
    [Item.set] accepts its [value] ([None] without).  Then the scan commits
    the value and restarts; from then on every scan passes the node by and
    leaves the settings alone.  Alone in a document, the node makes
    [next()] scan twice and return none. *)
Theorem set_node_commits_once (s s' : dict) :
  flag c "force" = false ->
  Store.get s (VStr k) = None ->
  ItemModel.set env (Spec.item_of [] c) (own_value c) s = Ok s' ->
  (forall retries depth rest,
     next env (S retries) (S depth) (interview hm (VDict c :: rest) s)
     = next env retries (S depth) (interview hm (VDict c :: rest) s'))
  /\ (forall rec wp i rest,
        walk_items env hm rec wp i (VDict c :: rest) s'
        = let '(rest', s'', o) := walk_items env hm rec wp (S i) rest s' in
          (VDict c :: rest', s'', o))
  /\ (forall retries depth,
        next env (S (S retries)) (S depth) (interview hm [VDict c] s)
        = (interview hm [VDict c] s', NotFound)).
Proof.
  intros Fo G St.
  destruct (set_node_committed s s' St) as [G' _].
  assert (P : pending s c k = true) by (unfold pending; now rewrite G).
  assert (P' : pending s' c k = false).
  { unfold pending. destruct (Store.get s' (VStr k)); [exact Fo|].
    now elim G'. }
  assert (A : forall retries depth rest,
             next env (S retries) (S depth) (interview hm (VDict c :: rest) s)
             = next env retries (S depth)
                 (interview hm (VDict c :: rest) s')).
  { intros retries depth rest. unfold interview.
    cbn [next walk home config settings py_iter].
    now rewrite walk_items_cons, set_step, P, St. }
  assert (B : forall rec wp i rest,
             walk_items env hm rec wp i (VDict c :: rest) s'
             = let '(rest', s'', o) :=
                 walk_items env hm rec wp (S i) rest s' in
               (VDict c :: rest', s'', o)).
  { intros rec wp i rest. now rewrite walk_items_cons, set_step, P'. }
  split; [exact A|]. split; [exact B|].
  intros retries depth. rewrite A. unfold interview.
  cbn [next walk home config settings py_iter]. now rewrite B.
Qed.

(** X17. A plain forced [set] node at the top of the document keeps
    [next()] from returning.  The node is enabled, has a string [key], no
    [section], no [parameterize], a true [force], and neither [values] nor
    one of the run-time fields [default_from_file],
    [values_from_directory], [values_from_file], [values_regexp]; it
    stands first in the document and [Item.set] accepts its [value]
    ([None] without).  Then every scan commits the node again and
    restarts, so whatever number of scans is allowed runs out, with the
    settings as the first commit left them. *)
Theorem forced_set_never_returns (s s' : dict) :
  flag c "force" = true ->
  ItemModel.set env (Spec.item_of [] c) (own_value c) s = Ok s' ->
  forall retries depth rest,
    next env (S retries) (S depth) (interview hm (VDict c :: rest) s)
    = (interview hm (VDict c :: rest) s', OutOfFuel).
Proof.
  intros Fo St retries depth rest.
  destruct (set_node_committed s s' St) as [_ St'].
  assert (P : forall s0, pending s0 c k = true).
  { intro s0. unfold pending. rewrite Fo. now destruct (Store.get s0 _). }
  assert (A : forall n,
             next env n (S depth) (interview hm (VDict c :: rest) s')
             = (interview hm (VDict c :: rest) s', OutOfFuel)).
  { induction n as [|n IH]; [reflexivity|].
    unfold interview in *.
    cbn [next walk home config settings py_iter].
    rewrite walk_items_cons, set_step, P, St'. apply IH. }
  specialize (A retries). unfold interview in *.
  cbn [next walk home config settings py_iter].
  rewrite walk_items_cons, set_step, P, St. apply A.
Qed.

End ScanSets.

(** X16 on the node [stage_set] and the empty store. *)
Lemma set_node_commits_once_witness :
  Engine.next Examples.bare_env 2 1
    (Scan.interview None [VDict Nodes.stage_set] [])
  = (Scan.interview None [VDict Nodes.stage_set] [("stage", VInt 1)],
     Engine.NotFound).
Proof.
  refine (proj2 (proj2 (set_node_commits_once Examples.bare_env None
                          Nodes.stage_set "stage" _ [] [("stage", VInt 1)]
                          eq_refl eq_refl eq_refl)) 0%nat 0%nat).
  repeat split.
Defined.

(** X17 on the node [stage_forced], with a hundred scans allowed. *)
Lemma forced_set_never_returns_witness :
  Engine.next Examples.bare_env 100 1
    (Scan.interview None [VDict Nodes.stage_forced] [])
  = (Scan.interview None [VDict Nodes.stage_forced] [("stage", VInt 1)],
     Engine.OutOfFuel).
Proof.
  refine (forced_set_never_returns Examples.bare_env None
            Nodes.stage_forced "stage" _ [] [("stage", VInt 1)]
            eq_refl eq_refl 99%nat 0%nat []).
  repeat split.
Defined.

Section ScanUpdates.

Import ItemModel Engine Scan Spec.

Variable env : Env.
Variable hm : option string.
Variable k : string.


End ScanUpdates.


(* ================================================================== *)
(** * The command line                                                 *)
(* ================================================================== *)

Section CommandLine.

Import Cli.

(** A word without a leading dash is none of the options. *)
Lemma plain_word (w : string) :
  String.prefix "-" w = false ->
  String.eqb w "-h" = false /\ String.eqb w "--help" = false
  /\ String.eqb w "-o" = false /\ String.eqb w "-q" = false.
Proof.
  destruct w as [|c w]; [now repeat split|].
  cbn [String.prefix].
  destruct (ascii_dec "-" c) as [<-|N]; [destruct w; discriminate|].
  intros _.
  assert (E : Ascii.eqb c "-" = false).
  { apply Ascii.eqb_neq. congruence. }
  simpl. now rewrite E.
Qed.

(** One turn of the loop. *)
Lemma scan_cons (a : Args) (w : string) (more : list string) :
  scan a (w :: more)
  = if String.eqb w "-h" || String.eqb w "--help" then Stop Usage
    else if String.eqb w "-o" then
      match more with
      | [] => Stop (Fail "pop from empty list")
      | o :: more' => scan (with_output a o) more'
      end
    else if String.eqb w "-q" then scan (with_verbose a false) more
    else if String.prefix "-" w then Left a more
    else
      match more with
      | [] => Left (with_interview a w) []
      | x :: [] => Left (with_answers (with_interview a w) x) []
      | x :: y :: rest =>
          Left (with_results (with_answers (with_interview a w) x) y) rest
      end.
Proof. destruct more as [|x [|y rest]]; reflexivity. Qed.

(** The loop passes a sequence of options, keeping the last [-o]. *)
Lemma scan_options (opts : list opt) :
  forall a tail,
    verbose a = false ->
    scan a (flat_map words opts ++ tail)
    = scan {| answers_filename := answers_filename a;
              interview_filename := interview_filename a;
              output_filename := chosen_output opts (output_filename a);
              results_filename := results_filename a;
              verbose := false |} tail.
Proof.
  induction opts as [|[|o] opts IH]; intros a tail V.
  - destruct a; simpl in *. now subst.
  - change (scan a (flat_map words (Quiet :: opts) ++ tail))
      with (scan (with_verbose a false) (flat_map words opts ++ tail)).
    now rewrite IH.
  - change (scan a (flat_map words (Output o :: opts) ++ tail))
      with (scan (with_output a o) (flat_map words opts ++ tail)).
    now rewrite IH.
Qed.

(** Every command line is a sequence of options followed by a tail that
    does not begin with one. *)
Lemma options_then_tail (n : nat) :
  forall args, (length args <= n)%nat ->
    exists opts tail,
      args = flat_map words opts ++ tail
      /\ match tail with
         | [] => True
         | w :: more =>
             w <> "-q" /\ (w = "-o" -> more = [])
         end.
Proof.
  induction n as [|n IH]; intros args L.
  - destruct args; [|simpl in L; lia]. now exists [], [].
  - destruct args as [|w args]; [now exists [], []|].
    simpl in L.
    destruct (String.eqb w "-q") eqn:Q.
    + apply String.eqb_eq in Q as ->.
      destruct (IH args ltac:(lia)) as (opts & tail & -> & T).
      now exists (Quiet :: opts), tail.
    + apply String.eqb_neq in Q.
      destruct (String.eqb w "-o") eqn:O.
      * apply String.eqb_eq in O as ->.
        destruct args as [|o args].
        -- exists [], ["-o"]. repeat split; auto.
        -- simpl in L.
           destruct (IH args ltac:(lia)) as (opts & tail & -> & T).
           now exists (Output o :: opts), tail.
      * apply String.eqb_neq in O.
        exists [], (w :: args). repeat split; auto. now intros ->.
Qed.

(** X19. The command lines the script accepts are those of its usage line:
    any number of [-q] and [-o <output>], then an interview file that does
    not begin with a dash, then at most two more words, taken as they are
    for the answers file and the results file.  The last [-o] counts, and
    [verbose] is false on every accepted command line. *)
Theorem parse_accepts_usage_line (args : list string) (a : Args) :
  parse args = Run a
  <-> exists opts file more,
        args = command opts file more
        /\ String.prefix "-" file = false
        /\ (length more <= 2)%nat
        /\ a = described opts file more.
Proof.
  split.
  - intro P.
    destruct (options_then_tail _ args (le_n _)) as (opts & tail & -> & T).
    unfold parse in P. rewrite scan_options in P by reflexivity.
    destruct tail as [|w more]; [discriminate|].
    destruct T as [Q O].
    rewrite scan_cons in P.
    destruct (String.eqb w "-h" || String.eqb w "--help"); [discriminate|].
    destruct (String.eqb w "-o") eqn:Eo.
    { apply String.eqb_eq in Eo. rewrite (O Eo) in P. discriminate. }
    apply String.eqb_neq in Q. rewrite Q in P.
    destruct (String.prefix "-" w) eqn:D.
    { destruct more; discriminate. }
    exists opts, w, more. repeat split; auto.
    + destruct more as [|x [|y [|z more]]]; simpl; try lia. discriminate.
    + destruct more as [|x [|y [|z more]]]; simpl in P;
        try discriminate; now injection P as <-.
  - intros (opts & file & more & -> & D & L & ->).
    unfold parse, command. rewrite scan_options by reflexivity.
    destruct (plain_word file D) as (H1 & H2 & H3 & H4).
    rewrite scan_cons, H1, H2, H3, H4, D.
    destruct more as [|x [|y [|z more]]]; try reflexivity.
    simpl in L. lia.
Qed.

(** X19 on a command line with two [-o] and an answers file. *)
Lemma parse_accepts_usage_line_witness :
  parse ["-o"; "a.yaml"; "-q"; "-o"; "b.yaml"; "site.yaml"; "-q"]
  = Run {| answers_filename := Some "-q";
           interview_filename := Some "site.yaml";
           output_filename := Some "b.yaml";
           results_filename := None;
           verbose := false |}.
Proof.
  apply (proj2 (parse_accepts_usage_line _ _)).
  exists [Output "a.yaml"; Quiet; Output "b.yaml"], "site.yaml", ["-q"].
  repeat split. simpl. lia.
Defined.

(** X20. What the script does with every other command line.  After any
    options: [-h] or [--help] prints the usage and exits with 0, whatever
    follows; a last [-o] without its word fails on the empty list; no
    word at all, any other word with a leading dash, and more than three
    words from the interview file on, are bad arguments.  Every command
    line has one of these shapes or that of the usage line. *)
Theorem parse_rejects (opts : list opt) :
  (forall h tail, h = "-h" \/ h = "--help" ->
                  parse (flat_map words opts ++ h :: tail) = Usage)
  /\ parse (flat_map words opts ++ ["-o"]) = Fail "pop from empty list"
  /\ parse (flat_map words opts) = Fail "bad/missing arguments"
  /\ (forall w tail, stray w = true ->
                     parse (flat_map words opts ++ w :: tail)
                     = Fail "bad/missing arguments")
  /\ (forall file x y z more,
        String.prefix "-" file = false ->
        parse (command opts file (x :: y :: z :: more))
        = Fail "bad/missing arguments")
  /\ (forall args,
        exists opts' tail,
          args = flat_map words opts' ++ tail
          /\ match tail with
             | [] => True
             | w :: more =>
                 w = "-h" \/ w = "--help" \/ (w = "-o" /\ more = [])
                 \/ stray w = true \/ String.prefix "-" w = false
             end).
Proof.
  repeat split.
  - intros h tail [-> | ->]; unfold parse;
      now rewrite scan_options by reflexivity.
  - unfold parse. now rewrite scan_options by reflexivity.
  - rewrite <- (app_nil_r (flat_map words opts)). unfold parse.
    now rewrite scan_options by reflexivity.
  - intros w tail S. unfold parse. rewrite scan_options by reflexivity.
    unfold stray in S. apply andb_true_iff in S as [D S].
    apply negb_true_iff in S.
    apply orb_false_iff in S as [S Q]. apply orb_false_iff in S as [S O].
    rewrite scan_cons, S, O, Q, D. now destruct tail.
  - intros file x y z more D. unfold parse, command.
    rewrite scan_options by reflexivity.
    destruct (plain_word file D) as (H1 & H2 & H3 & H4).
    now rewrite scan_cons, H1, H2, H3, H4, D.
  - intro args.
    destruct (options_then_tail _ args (le_n _)) as (opts' & tail & -> & T).
    exists opts', tail. split; [reflexivity|].
    destruct tail as [|w more]; [exact I|]. destruct T as [Q O].
    destruct (String.eqb w "-h") eqn:H1;
      [apply String.eqb_eq in H1; auto|].
    destruct (String.eqb w "--help") eqn:H2;
      [apply String.eqb_eq in H2; auto|].
    destruct (String.eqb w "-o") eqn:H3;
      [apply String.eqb_eq in H3; right; right; left; auto|].
    apply String.eqb_neq in Q.
    unfold stray. rewrite H1, H2, H3, Q. simpl.
    destruct (String.prefix "-" w); auto.
Qed.

End CommandLine.

(* ================================================================== *)
(** * Sessions on prepared answers                                     *)
(* ================================================================== *)

Section StoreApart.

Import Store Shape Spec.

Lemma diverge_sym (p q : list string) : diverge p q -> diverge q p.
Proof.
  intros (c & a & b & p' & q' & -> & -> & N).
  exists c, b, a, q', p'. repeat split. congruence.
Qed.

(** A write leaves every path alone that parts ways with its key. *)
Lemma setitem_find_frame (d d' : dict) (key : string) (x : value)
    (p : list string) :
  __setitem__ d (VStr key) x = Ok d' ->
  diverge p (split_on sep key) ->
  _find (VDict d') p = _find (VDict d) p.
Proof.
  intros S D. rewrite setitem_unfold in S. cbv zeta in S.
  destruct (setitem_path _ _ _ _) as [r|] eqn:P; [|discriminate].
  destruct r; try discriminate. injection S as ->.
  rewrite <- (removelast_last_eq (split_on sep key) "") in D
    by apply split_on_not_nil.
  exact (setitem_path_frame _ _ _ _ _ _ P D).
Qed.

(** A write puts no leaf in the way of a key that parts ways with its
    own. *)
Lemma no_conflict_after (d d' : dict) (key other : string) (x : value) :
  __setitem__ d (VStr key) x = Ok d' ->
  diverge (split_on sep other) (split_on sep key) ->
  ~ conflict d (split_on sep other) ->
  ~ conflict d' (split_on sep other).
Proof.
  intros S D N (p & q & E & Np & Nq & v & F & L).
  pose proof D as (c & a & b & p' & q' & Eo & Ek & Nab).
  rewrite Eo in E.
  apply app_eq_app in E as (l & [[Ec El] | [Ep El]]).
  - (* [p] lies within the common beginning *)
    assert (Pk : exists z, _find (VDict d') p = Ok (VDict z)).
    { apply setitem_find in S. rewrite Ek, Ec, <- app_assoc in S.
      eapply (find_prefix_dict p (l ++ b :: q')); [|exact S].
      destruct l; discriminate. }
    destruct Pk as [z Pk]. rewrite Pk in F. injection F as <-.
    discriminate.
  - destruct l as [|a0 l].
    + (* [p] is the common beginning *)
      rewrite app_nil_r in Ep. subst p.
      assert (Pk : exists z, _find (VDict d') c = Ok (VDict z)).
      { apply setitem_find in S. rewrite Ek in S.
        eapply (find_prefix_dict c (b :: q')); [discriminate | exact S]. }
      destruct Pk as [z Pk]. rewrite Pk in F. injection F as <-.
      discriminate.
    + (* [p] reaches beyond it *)
      simpl in El. injection El as <- El.
      assert (Dp : diverge p (split_on sep key)).
      { exists c, a, b, l, q'. rewrite Ek. auto. }
      rewrite (setitem_find_frame _ _ _ _ _ S Dp) in F.
      apply N. exists p, q. repeat split; auto.
      * rewrite Eo, Ep, El. now rewrite <- app_assoc.
      * now exists v.
Qed.

(** The empty store holds nothing and is in the way of nothing. *)
Lemma empty_store (key : string) :
  get [] (VStr key) = None /\ ~ conflict [] (split_on sep key).
Proof.
  split.
  - unfold get, __contains__. simpl.
    destruct (split_on sep key) eqn:E; [now apply split_on_not_nil in E|].
    reflexivity.
  - intros (p & q & _ & Np & _ & v & F & _).
    destruct p; [contradiction | discriminate].
Qed.

End StoreApart.

Section Sessions.

Import ItemModel Engine Scan Session.

Variable env : Env.
Variable hm : option string.

(** What the inner loop pops is a beginning of the lines, not empty. *)
Lemma take_answer_suffix (lines : list string) (r : string)
    (rest : list string) :
  take_answer lines = Some (r, rest) ->
  exists used, lines = used ++ rest /\ used <> [].
Proof.
  induction lines as [|line lines IH]; [discriminate|].
  simpl. destruct (is_answer line).
  - intros [= <- <-]. exists [line]. split; [reflexivity | discriminate].
  - intro H. destruct (IH H) as (used & -> & _).
    exists (line :: used). split; [reflexivity | discriminate].
Qed.

Lemma take_answer_shorter (lines : list string) (r : string)
    (rest : list string) :
  take_answer lines = Some (r, rest) -> (length rest < length lines)%nat.
Proof.
  intro H. destruct (take_answer_suffix _ _ _ H) as (used & -> & N).
  rewrite length_app. destruct used; [contradiction | simpl; lia].
Qed.

(** The inner loop yields the replies of the lines one by one. *)
Lemma take_answer_replies (lines : list string) :
  match take_answer lines with
  | Some (r, rest) => replies lines = r :: replies rest
  | None => replies lines = []
  end.
Proof.
  induction lines as [|line lines IH]; [reflexivity|].
  unfold replies. simpl. destruct (is_answer line); [reflexivity|].
  exact IH.
Qed.

(** X21. On prepared answers the loop of [test] is bounded by them: each
    question returned takes at least one line, so that [test] ends within
    as many rounds as there are lines, plus one; and the answers it leaves
    are an end of those it was given. *)
Theorem test_ends_with_the_answers (rounds : nat) :
  forall retries depth itv answers itv' rest e,
    (length answers < rounds)%nat ->
    test env retries depth rounds itv answers = (itv', rest, e) ->
    e <> MoreRounds /\ exists used, answers = used ++ rest.
Proof.
  induction rounds as [|rounds IH]; intros retries depth itv answers itv'
    rest e L T; [lia|].
  simpl in T. destruct (next env retries depth itv) as [itv1 o].
  destruct o as [item| | |].
  - destruct (take_answer answers) as [[reply rest0]|] eqn:A.
    + pose proof (take_answer_shorter _ _ _ A) as Sh.
      destruct (take_answer_suffix _ _ _ A) as (used0 & -> & _).
      destruct (set env item (VStr reply) (settings itv1)) as [s'|e0].
      * assert (L' : (length rest0 < rounds)%nat) by lia.
        destruct (IH _ _ _ _ _ _ _ L' T) as (N & used & ->).
        split; [exact N|]. exists (used0 ++ used). now rewrite app_assoc.
      * destruct e0; injection T as <- <- <-;
          (split; [discriminate | now exists used0]).
    + injection T as <- <- <-. split; [discriminate|].
      exists answers. now rewrite app_nil_r.
  - injection T as <- <- <-. split; [discriminate | now exists []].
  - injection T as <- <- <-. split; [discriminate | now exists []].
  - injection T as <- <- <-. split; [discriminate | now exists []].
Qed.

(** The documents of questions. *)
Lemma scan_questions (qs : list (dict * string)) (s : dict) :
  Forall (fun q => asks (fst q) (snd q)) qs ->
  forall retries depth,
    next env (S retries) (S depth)
      (interview hm (map (fun q => VDict (fst q)) qs) s)
    = (interview hm (map (fun q => VDict (fst q)) qs) s,
       asked [] (first_pending s qs)).
Proof.
  intro F.
  assert (W : forall rec' wp i,
             walk_items env hm rec' wp i (map (fun q => VDict (fst q)) qs) s
             = (map (fun q => VDict (fst q)) qs, s,
                asked wp (first_pending s qs))).
  { intros rec' wp. induction F as [|[c k] qs A F IH]; intro i;
      [reflexivity|].
    simpl map. rewrite walk_items_cons.
    rewrite (question_step env hm rec' wp i c k s A).
    simpl first_pending.
    destruct (pending s c k); [reflexivity|].
    now rewrite IH. }
  intros retries depth. unfold interview.
  cbn [next walk home config settings py_iter]. rewrite W.
  now destruct (first_pending s qs).
Qed.

Lemma first_pending_app (s : dict) (done todo : list (dict * string)) :
  Forall (fun q => pending s (fst q) (snd q) = false) done ->
  first_pending s (done ++ todo) = first_pending s todo.
Proof.
  induction 1 as [|[c k] done P _ IH]; [reflexivity|].
  simpl in *. now rewrite P.
Qed.

Lemma free_text_asks (c : dict) (k : string) : free_text c k -> asks c k.
Proof. intros (B & K & _). split; [now left | exact K]. Qed.

(** A free-text question commits the reply as it is. *)
Lemma free_text_set (c : dict) (k : string) (wp : list nat) (r : string)
    (s : dict) :
  free_text c k ->
  set env (Spec.item_of wp c) (VStr r) s
  = Store.__setitem__ s (VStr k) (VStr r).
Proof.
  intros (B & K & T & D & Rx & Rg & _).
  destruct B as ((_ & _ & _ & _ & V) & Kd & _).
  unfold set.
  cbn [ItemModel.config ItemModel.kind ItemModel.key Spec.item_of].
  rewrite T, Kd, D, K. cbn [py_eq String.eqb Ascii.eqb Bool.eqb bind].
  simpl convert. cbn [bind]. 
  unfold validate. rewrite V, Rx, Rg.
  destruct (dict_get c "multivalue"); destruct (dict_get c "required");
    try destruct (py_bool v); try destruct (py_bool v0); reflexivity.
Qed.

(** The keys still to be answered are absent from the settings and free
    of conflict; those answered are there. *)
Lemma pending_frame (s s' : dict) (k k' : string) (x : value) (c' : dict) :
  Store.__setitem__ s (VStr k) x = Ok s' ->
  Shape.diverge (split_on Store.sep k') (split_on Store.sep k) ->
  pending s' c' k' = pending s c' k'.
Proof.
  intros W D. unfold pending.
  now destruct (setitem_other_get s s' k k' x W D) as [-> _].
Qed.

Lemma session_run (retries depth : nat) (todo : list (dict * string)) :
  forall done s lines rounds,
    Forall (fun q => free_text (fst q) (snd q)) (done ++ todo) ->
    Forall (fun q => pending s (fst q) (snd q) = false) done ->
    Forall (fun q => Store.get s (VStr (snd q)) = None
                     /\ ~ Spec.conflict s (split_on Store.sep (snd q)))
      todo ->
    Forall (fun q' =>
              Forall (fun q => Shape.diverge (split_on Store.sep (snd q'))
                                 (split_on Store.sep (snd q))) todo) done ->
    apart (map snd todo) ->
    (length todo <= length (replies lines))%nat ->
    (length lines < rounds)%nat ->
    exists s' rest u,
      test env (S retries) (S depth) rounds
        (interview hm (map (fun q => VDict (fst q)) (done ++ todo)) s) lines
      = (interview hm (map (fun q => VDict (fst q)) (done ++ todo)) s',
         rest, Finished u)
      /\ (forall i q r,
            nth_error todo i = Some q ->
            nth_error (replies lines) i = Some r ->
            Store.get s' (VStr (snd q)) = Some (Store.GValue (VStr r)))
      /\ (forall key,
            Forall (fun q => Shape.diverge (split_on Store.sep key)
                               (split_on Store.sep (snd q))) todo ->
            Store.get s' (VStr key) = Store.get s (VStr key)).
Proof.
  induction todo as [|[c k] todo IH];
    intros done s lines rounds Ft Dn Td Dt Ap Ln Rn.
  - destruct rounds as [|rounds]; [lia|].
    exists s, lines, (negb (is_nil lines)).
    split; [|split].
    + cbn [test]. rewrite scan_questions.
      * rewrite first_pending_app by exact Dn. reflexivity.
      * eapply Forall_impl; [|exact Ft]. intros [c k]. apply free_text_asks.
    + intros [|i] q r H; discriminate.
    + reflexivity.
  - destruct rounds as [|rounds]; [lia|].
    assert (Fc : free_text c k).
    { apply Forall_app in Ft as [_ Ft]. now inversion Ft. }
    inversion Td as [|? ? [Gk Nk] Td']; subst. simpl in Gk, Nk.
    destruct Ap as [Ak Ap]. rewrite Forall_forall in Ak.
    (* the reply *)
    pose proof (take_answer_replies lines) as Tr.
    destruct (take_answer lines) as [[r0 rest0]|] eqn:Ta;
      [|rewrite Tr in Ln; simpl in Ln; lia].
    pose proof (take_answer_shorter _ _ _ Ta) as Sh.
    (* the commit *)
    destruct (setitem_free s k (VStr r0) Nk) as [s1 W].
    assert (G1 : Store.get s1 (VStr k) = Some (Store.GValue (VStr r0))).
    { now destruct (setitem_get_items s s1 k (VStr r0) eq_refl W). }
    (* the rest of the session *)
    destruct (IH (done ++ [(c, k)]) s1 rest0 rounds) as (s' & rest & u & T & R & Fr).
    + now rewrite <- app_assoc.
    + apply Forall_app. split.
      * rewrite Forall_forall in *. intros [c' k'] I. simpl.
        specialize (Dt _ I). inversion Dt as [|? ? D _]; subst. simpl in D.
        rewrite (pending_frame s s1 k k' (VStr r0) c' W D).
        exact (Dn _ I).
      * constructor; [|constructor]. simpl. unfold pending. rewrite G1.
        now destruct Fc as (_ & _ & _ & _ & _ & _ & Fo).
    + rewrite Forall_forall in *. intros [c' k'] I. simpl.
      assert (D : Shape.diverge (split_on Store.sep k')
                    (split_on Store.sep k)).
      { apply (Ak k'). apply in_map_iff. now exists (c', k'). }
      destruct (Td' _ I) as [G N]. simpl in G, N. split.
      * now destruct (setitem_other_get s s1 k k' (VStr r0) W D) as [-> _].
      * exact (no_conflict_after s s1 k k' (VStr r0) W D N).
    + apply Forall_app. split.
      * eapply Forall_impl; [|exact Dt]. intros q' H. now inversion H.
      * constructor; [|constructor]. simpl.
        rewrite Forall_forall in *. intros [c' k'] I. simpl.
        apply diverge_sym. apply (Ak k'). apply in_map_iff.
        now exists (c', k').
    + exact Ap.
    + rewrite Tr in Ln. simpl in Ln. lia.
    + lia.
    + rewrite <- app_assoc in T. simpl app in T.
      exists s', rest, u. split; [|split].
      * cbn [test]. rewrite scan_questions.
        -- rewrite first_pending_app by exact Dn. simpl first_pending.
           unfold pending at 1. rewrite Gk. cbn [asked]. rewrite Ta.
           rewrite (free_text_set c k [] r0 _ Fc).
           cbn [settings interview]. rewrite W. exact T.
        -- eapply Forall_impl; [|exact Ft]. intros [c' k'].
           apply free_text_asks.
      * intros [|i] q r Hq Hr.
        -- injection Hq as <-. rewrite Tr in Hr. injection Hr as <-.
           simpl. rewrite <- G1. apply Fr.
           rewrite Forall_forall in *. intros [c' k'] I. simpl.
           apply diverge_sym. apply (Ak k'). apply in_map_iff.
           now exists (c', k').
        -- rewrite Tr in Hr. simpl in Hq, Hr. now apply (R i).
      * intros key Fk. inversion Fk as [|? ? D Fk']; subst. simpl in D.
        rewrite (Fr key Fk').
        now destruct (setitem_other_get s s1 k key (VStr r0) W D) as [-> _].
Qed.

(** X22. A script that holds a reply for every plain free-text question
    completes the interview.  The questions are enabled, of kind
    [question] and type [str], with a string [key], without [section],
    [parameterize] and [force], without [default], [values], [regexp] and
    [range], and without the run-time fields [default_from_file],
    [values_from_directory], [values_from_file], [values_regexp]; their
    dotted keys part ways pairwise.  For a document of such questions and
    lines with at least as many [answer:] lines as there are questions,
    [test] started on empty settings, with at least one scan and one level
    allowed and more rounds than lines, finishes, and the setting of the
    [i]-th question is the [i]-th reply: the text after [answer:],
    stripped.  The lines in between have no effect. *)
Theorem script_answers_in_order (qs : list (dict * string))
    (lines : list string) (retries depth rounds : nat) :
  Forall (fun q => free_text (fst q) (snd q)) qs ->
  apart (map snd qs) ->
  (length qs <= length (replies lines))%nat ->
  (length lines < rounds)%nat ->
  exists s' rest u,
    test env (S retries) (S depth) rounds
      (interview hm (map (fun q => VDict (fst q)) qs) []) lines
    = (interview hm (map (fun q => VDict (fst q)) qs) s', rest, Finished u)
    /\ forall i q r,
         nth_error qs i = Some q ->
         nth_error (replies lines) i = Some r ->
         Store.get s' (VStr (snd q)) = Some (Store.GValue (VStr r)).
Proof.
  intros Ft Ap Ln Rn.
  destruct (session_run retries depth qs [] [] lines rounds)
    as (s' & rest & u & T & R & _); auto.
  - rewrite Forall_forall. intros q _. apply empty_store.
  - now exists s', rest, u.
Qed.

(** The first segment of [a.b] is that of [a]. *)
Lemma hd_split_app (a b : string) :
  hd "" (split_on Store.sep (a ++ String Store.sep b))
  = hd "" (split_on Store.sep a).
Proof.
  induction a as [|c a IH]; [reflexivity|].
  simpl. destruct (Ascii.eqb c Store.sep); [reflexivity|].
  pose proof (split_on_not_nil Store.sep (a ++ String Store.sep b)) as N1.
  pose proof (split_on_not_nil Store.sep a) as N2.
  destruct (split_on Store.sep (a ++ String Store.sep b));
    [contradiction|].
  destruct (split_on Store.sep a); [contradiction|].
  simpl in *. now subst.
Qed.

(** The scan at a question with a section: it waits for [sec.k]. *)
Lemma sectioned_step
    (rec : value -> list nat -> dict -> value * dict * outcome)
    (wp : list nat) (i : nat) (c : dict) (sec k : string) (s : dict) :
  sectioned c sec k ->
  walk_item env hm rec wp i (VDict c) s
  = (VDict c, s,
     if pending s c (sec ++ String Store.sep k)
     then Found (Spec.item_of wp c) else NotFound).
Proof.
  intros (P & Kd & D & Sc & Pz & K & Nd).
  assert (F : ItemModel.get_fqkey (Spec.item_of wp c) s VNone
              = Ok (VStr (sec ++ String Store.sep k))).
  { unfold ItemModel.get_fqkey.
    cbn [ItemModel.config Spec.item_of]. rewrite Sc, K, Pz.
    cbn [py_in]. rewrite Nd. reflexivity. }
  unfold walk_item. fold (flag c "disabled"). rewrite D.
  assert (E : forall cls, cls = Question \/ cls = Notice ->
                set_if_needed env cls (Spec.item_of wp c) c s
                = (s, if pending s c (sec ++ String Store.sep k)
                      then Found (Spec.item_of wp c) else NotFound)).
  { intros cls Cl. unfold set_if_needed, dict_mem, pending, flag, get.
    rewrite K, F.
    change (ItemModel.config (Spec.item_of wp c)) with c.
    destruct (Store.get s (VStr (sec ++ String Store.sep k))); simpl;
      destruct Cl as [-> | ->]; simpl;
      try destruct (match dict_get c "force" with
                    | Some f => py_bool f
                    | None => false
                    end); reflexivity. }
  destruct Kd as [Kd | Kd]; rewrite Kd; cbn [item_cls_lookup String.eqb
    Ascii.eqb Bool.eqb]; rewrite (init_of_plain env wp c P);
    rewrite E by auto; reflexivity.
Qed.

(** X23. A plain question with a section cannot be completed from a
    script.  The node is a question or notice that is enabled, has a string
    [section], a string [key] without a dot, no [parameterize], and neither
    [values] nor one of the run-time fields [default_from_file],
    [values_from_directory], [values_from_file], [values_regexp]; the first
    segment of the section is not the key.  The scan waits for
    [section.key] while the reply is committed under [key]: when such a
    node stands first in the document and [section.key] is absent from the
    settings, [test] (with at least one scan and one level allowed and more
    rounds than lines) asks it again after every reply it accepts and never
    finishes: it ends with [sys.exit(1)], or on an answer that leaves the
    embedding, whatever the script holds, and [section.key] is still
    absent. *)
Theorem sectioned_question_blocks_script (c : dict) (sec k : string)
    (doc : list value) (rounds : nat) :
  sectioned c sec k ->
  hd "" (split_on Store.sep sec) <> k ->
  forall lines s retries depth,
    Store.get s (VStr (sec ++ String Store.sep k)) = None ->
    (length lines < rounds)%nat ->
    exists s' rest e,
      test env (S retries) (S depth) rounds
        (interview hm (VDict c :: doc) s) lines
      = (interview hm (VDict c :: doc) s', rest, e)
      /\ (e = Exit1 \/ e = Unmodelled)
      /\ Store.get s' (VStr (sec ++ String Store.sep k)) = None.
Proof.
  intros Sd Hd.
  assert (N : forall s retries depth,
             Store.get s (VStr (sec ++ String Store.sep k)) = None ->
             next env (S retries) (S depth) (interview hm (VDict c :: doc) s)
             = (interview hm (VDict c :: doc) s,
                Found (Spec.item_of [] c))).
  { intros s retries depth G. unfold interview.
    cbn [next walk home config settings py_iter].
    rewrite walk_items_cons, (sectioned_step _ [] 0%nat c sec k s Sd).
    unfold pending. now rewrite G. }
  induction rounds as [|rounds IH]; intros lines s retries depth G L; [lia|].
  cbn [test]. rewrite (N s retries depth G).
  destruct (take_answer lines) as [[r rest0]|] eqn:Ta.
  - pose proof (take_answer_shorter _ _ _ Ta) as Sh.
    cbn [settings interview].
    destruct (set env (Spec.item_of [] c) (VStr r) s) as [s1|e0] eqn:St.
    + destruct (set_writes_self_key env _ _ _ _ St) as (k0 & x & Ky & W).
      destruct Sd as (_ & _ & _ & _ & _ & K & Nd).
      cbn [ItemModel.key Spec.item_of] in Ky. rewrite K in Ky.
      injection Ky as <-.
      assert (D : Shape.diverge
                    (split_on Store.sep (sec ++ String Store.sep k))
                    (split_on Store.sep k)).
      { rewrite (split_on_plain k Nd).
        pose proof (hd_split_app sec k) as H.
        pose proof (split_on_not_nil Store.sep
                      (sec ++ String Store.sep k)) as Ne.
        destruct (split_on Store.sep (sec ++ String Store.sep k))
          as [|h t]; [contradiction|].
        simpl in H. exists [], h, k, t, []. repeat split. congruence. }
      destruct (setitem_other_get s s1 k _ x W D) as [G1 _].
      rewrite G in G1.
      apply (IH rest0 s1 retries depth G1). lia.
    + exists s, rest0. destruct e0; eexists; (split; [reflexivity|]); auto.
  - exists s, [], Exit1. auto.
Qed.

End Sessions.

(** X22 on two questions of the section [site] and a script with two
    replies. *)
Lemma script_answers_in_order_witness :
  exists s' rest u,
    Session.test Examples.bare_env 1 1 5
      (Scan.interview None
         [VDict Nodes.owner_question; VDict Nodes.contact_question] [])
      Nodes.site_script
    = (Scan.interview None
         [VDict Nodes.owner_question; VDict Nodes.contact_question] s',
       rest, Session.Finished u)
    /\ Store.get s' (VStr "site.contact")
       = Some (Store.GValue (VStr "ops@example.org")).
Proof.
  destruct (script_answers_in_order Examples.bare_env None
              [(Nodes.owner_question, "site.owner");
               (Nodes.contact_question, "site.contact")]
              Nodes.site_script 0 0 5) as (s' & rest & u & T & R).
  - repeat constructor.
  - simpl. repeat split; auto. constructor; [|constructor].
    exists ["site"], "contact", "owner", [], []. repeat split. discriminate.
  - simpl. lia.
  - simpl. lia.
  - exists s', rest, u. split; [exact T|].
    exact (R 1%nat (Nodes.contact_question, "site.contact")
             "ops@example.org" eq_refl eq_refl).
Defined.

(** X21 on one question and a script of two lines. *)
Lemma test_ends_with_the_answers_witness :
  Session.Finished false <> Session.MoreRounds
  /\ exists used, ["the name"; "answer: bob"] = used ++ [].
Proof.
  refine (test_ends_with_the_answers Examples.bare_env 3 1 1
            (Scan.interview None [VDict Examples.name_question] [])
            ["the name"; "answer: bob"] _ [] (Session.Finished false)
            _ eq_refl).
  simpl. lia.
Defined.

(** X23 on the question [host] of the section [net] and a script with two
    replies. *)
Lemma sectioned_question_blocks_script_witness :
  exists s' rest e,
    Session.test Examples.bare_env 1 1 3
      (Scan.interview None [VDict Examples.host_question] [])
      ["answer: alpha"; "answer: beta"]
    = (Scan.interview None [VDict Examples.host_question] s', rest, e)
    /\ (e = Session.Exit1 \/ e = Session.Unmodelled)
    /\ Store.get s' (VStr "net.host") = None.
Proof.
  refine (sectioned_question_blocks_script Examples.bare_env None
            Examples.host_question "net" "host" [] 3 _ _
            ["answer: alpha"; "answer: beta"] [] 0%nat 0%nat eq_refl _).
  - repeat split; auto.
  - discriminate.
  - simpl. lia.
Defined.

(* ================================================================== *)
(** * The report of [compare_results]                                  *)
(* ================================================================== *)

Section Reports.

Import Store Shape Report.

Lemma insert_In (k x : string) (l : list string) :
  In x (insert k l) <-> x = k \/ In x l.
Proof.
  induction l as [|k' l IH]; simpl.
  - intuition.
  - destruct (String.leb k k'); simpl; [intuition|].
    rewrite IH. intuition.
Qed.

Lemma sort_In (x : string) (l : list string) : In x (sort l) <-> In x l.
Proof.
  induction l as [|k l IH]; simpl; [reflexivity|].
  rewrite insert_In, IH. intuition.
Qed.

(** The report has a block for every key of either side, and no other. *)
Lemma all_keys_In (k : string) (ekeys rkeys : list string) :
  In k (all_keys ekeys rkeys) <-> In k ekeys \/ In k rkeys.
Proof.
  unfold all_keys. rewrite sort_In, nodup_In. apply in_app_iff.
Qed.

Lemma dict_keys_get (e : dict) (k : string) :
  In k (dict_keys e) <-> exists x, dict_get e k = Some x.
Proof.
  split.
  - induction e as [|[k' x'] e IH]; [contradiction|].
    simpl. destruct (String.eqb k k') eqn:E; [eauto|].
    intros [<-|I]; [now rewrite String.eqb_refl in E | auto].
  - intros [x G]. apply dict_get_In in G.
    apply in_map_iff. now exists (k, x).
Qed.

(** [get] hands out no dict as a plain value. *)
Lemma got_value_leaf (s : dict) (key : value) (y : value) :
  get s key = Some (GValue y) -> is_dict y = false.
Proof.
  unfold get, __getitem__. destruct (__contains__ s key); [|discriminate].
  destruct (keys <- split_key key ;; _find (VDict s) keys) as [v|];
    [|discriminate].
  destruct v; intros [= <-]; reflexivity.
Qed.

(** In a well-formed store the keys listed are those that [get] resolves
    to a leaf. *)
Lemma leaf_iff (s : dict) (k : string) (y : value) :
  wf (VDict s) = true ->
  In (k, y) (items s) <-> get s (VStr k) = Some (GValue y).
Proof.
  intro W. split.
  - intro I.
    destruct (walk_find _ (VDict s) None k y (le_n _) W I)
      as (ks & N & F & Fd & L & ->).
    destruct (flat_proper ks N F) as [E1 E2].
    unfold get, __contains__, __getitem__. simpl. rewrite E1, E2, Fd.
    now destruct y.
  - unfold get, __contains__, __getitem__. simpl.
    destruct (_find (VDict s) (split_on sep k)) as [v|] eqn:F;
      [|discriminate].
    intro H.
    assert (v = y /\ is_dict y = false) as [-> L]
      by (destruct v; inversion H; auto).
    unfold items, _walk. rewrite <- (flat_split k).
    + apply find_walk; [apply split_on_not_nil | exact F | exact L].
    + destruct (split_on sep k) as [|k0 ks] eqn:S;
        [now apply split_on_not_nil in S|].
      apply find_cons_dict in F as (d0 & child & [= <-] & G & _).
      destruct (wf_get s k0 child W G) as [K _].
      apply seg_ok_spec in K. simpl. tauto.
Qed.

Lemma clean_rows (s e : dict) (ks : list string) :
  clean (map (row_of s e) ks) = true
  <-> forall k, In k ks -> differs (dict_get e k) (get s (VStr k)) = false.
Proof.
  unfold clean. rewrite forallb_forall. split.
  - intros H k I. specialize (H (row_of s e k) (in_map _ _ _ I)).
    now apply negb_true_iff in H.
  - intros H r I. apply in_map_iff in I as (k & <- & I).
    apply negb_true_iff. now apply H.
Qed.

(** X24. An expected result that is itself a mapping never matches.  The
    report has a block for each key of the expected results taken as it
    is, the settings answer for a key that names a group with a new wrapper
    object, and a wrapper equals nothing: expected results written in the
    nested form of the settings are reported as mismatches throughout. *)
Theorem nested_expectation_never_matches (s e : dict) (k : string)
    (d : dict) :
  dict_get e k = Some (VDict d) ->
  exists rows,
    compare_results s (VDict e) = Ok rows
    /\ clean rows = false
    /\ exists r, In r rows /\ key r = k /\ evalue r = Some (VDict d)
                 /\ mismatch r = true.
Proof.
  intro G. eexists. split; [reflexivity|].
  assert (I : In k (all_keys (dict_keys e) (keys s))).
  { apply all_keys_In. left. apply dict_keys_get. eauto. }
  assert (M : differs (dict_get e k) (get s (VStr k)) = true).
  { rewrite G. unfold differs.
    destruct (get s (VStr k)) as [[y|w]|] eqn:R; try reflexivity.
    apply got_value_leaf in R. now destruct y. }
  split.
  - apply not_true_iff_false. intro C.
    rewrite clean_rows in C. rewrite (C k I) in M. discriminate.
  - exists (row_of s e k). repeat split; auto.
    now apply in_map.
Qed.

(** X24 on the settings [site.owner] and the same written as a group. *)
Lemma nested_expectation_never_matches_witness :
  exists rows,
    compare_results [("site", VDict [("owner", VStr "alice")])]
      (VDict [("site", VDict [("owner", VStr "alice")])]) = Ok rows
    /\ clean rows = false
    /\ exists r, In r rows /\ key r = "site"
                 /\ evalue r = Some (VDict [("owner", VStr "alice")])
                 /\ mismatch r = true.
Proof.
  exact (nested_expectation_never_matches
           [("site", VDict [("owner", VStr "alice")])]
           [("site", VDict [("owner", VStr "alice")])] "site"
           [("owner", VStr "alice")] eq_refl).
Defined.

(** X25. What a report without mismatch means.  For well-formed settings
    the report of [compare_results] shows no mismatch exactly when the
    expected results are the flat listing of the settings: every leaf of
    the settings is expected, under its dotted key, with an equal value,
    and every expected key is the dotted key of a leaf with an equal
    value. *)
Theorem clean_report_iff (s e : dict) :
  wf (VDict s) = true ->
  exists rows,
    compare_results s (VDict e) = Ok rows
    /\ (clean rows = true
        <-> (forall k y, In (k, y) (items s) ->
                         exists x, dict_get e k = Some x
                                   /\ py_eq x y = true)
            /\ (forall k x, dict_get e k = Some x ->
                            exists y, In (k, y) (items s)
                                      /\ py_eq x y = true)).
Proof.
  intro W. eexists. split; [reflexivity|].
  rewrite clean_rows. split.
  - intro C. split.
    + intros k y I.
      assert (Ik : In k (all_keys (dict_keys e) (keys s))).
      { apply all_keys_In. right. unfold keys.
        apply in_map_iff. now exists (k, y). }
      specialize (C k Ik). apply (leaf_iff s k y W) in I.
      rewrite I in C. unfold differs in C.
      destruct (dict_get e k) as [x|]; [|discriminate].
      exists x. split; [reflexivity|]. now apply negb_false_iff.
    + intros k x G.
      assert (Ik : In k (all_keys (dict_keys e) (keys s))).
      { apply all_keys_In. left. apply dict_keys_get. eauto. }
      specialize (C k Ik). rewrite G in C. unfold differs in C.
      destruct (get s (VStr k)) as [[y|w]|] eqn:R; try discriminate.
      exists y. split; [now apply leaf_iff | now apply negb_false_iff].
  - intros [A B] k Ik. apply all_keys_In in Ik as [Ik|Ik].
    + apply dict_keys_get in Ik as [x G].
      destruct (B k x G) as (y & I & E).
      apply (leaf_iff s k y W) in I. rewrite G, I. simpl. now rewrite E.
    + unfold keys in Ik. apply in_map_iff in Ik as ([k' y] & <- & I).
      simpl. destruct (A k' y I) as (x & G & E).
      apply (leaf_iff s k' y W) in I. rewrite G, I. simpl. now rewrite E.
Qed.

(** X25 on the settings [site.owner] and their flat listing. *)
Lemma clean_report_iff_witness :
  exists rows,
    compare_results [("site", VDict [("owner", VStr "alice")])]
      (VDict [("site.owner", VStr "alice")]) = Ok rows
    /\ (clean rows = true
        <-> (forall k y,
               In (k, y) (items [("site", VDict [("owner", VStr "alice")])]) ->
               exists x, dict_get [("site.owner", VStr "alice")] k = Some x
                         /\ py_eq x y = true)
            /\ (forall k x,
                  dict_get [("site.owner", VStr "alice")] k = Some x ->
                  exists y,
                    In (k, y)
                      (items [("site", VDict [("owner", VStr "alice")])])
                    /\ py_eq x y = true)).
Proof.
  exact (clean_report_iff [("site", VDict [("owner", VStr "alice")])]
           [("site.owner", VStr "alice")] eq_refl).
Defined.

End Reports.

(* ================================================================== *)
(** * Reset nodes with a list of keys                                  *)
(* ================================================================== *)

Section ResetKeys.

Import ItemModel Engine Scan.

Variable env : Env.
Variable hm : option string.

(** The loop over [reset_keys] stops with [AttributeError] at the first key
    that is set, and runs through when none is. *)
Lemma delete_keys_present (kd : string) (c : dict) (wp : list nat)
    (ks : list string) (s : dict) :
  bare_node kd c ->
  delete_keys (Spec.item_of wp c) (map VStr ks) s
  = (s, if existsb (fun k => Store.__contains__ s (VStr k)) ks
        then Raise AttributeError else Ok tt).
Proof.
  intro B. induction ks as [|k ks IH]; [reflexivity|].
  simpl. destruct (bare_fqkey kd c wp s k B) as [-> _].
  destruct (Store.__contains__ s (VStr k)); [reflexivity | exact IH].
Qed.

(** X26. A plain reset node with [reset_keys] either does nothing or
    fails.  The node is enabled, has no [section], no [parameterize] and no
    [key], neither [values] nor one of the run-time fields
    [default_from_file], [values_from_directory], [values_from_file],
    [values_regexp], and a list of strings as [reset_keys].  When none of
    them is in the settings the scan goes on with the next sibling, with
    the settings as they were; when one is, the scan ends with
    [AttributeError], the store having no [__delitem__], and so does
    [next()] when the node stands first in the document, again with the
    settings as they were. *)
Theorem reset_keys_idle_or_raises
    (rec : value -> list nat -> dict -> value * dict * outcome)
    (wp : list nat) (i : nat) (c : dict) (ks : list string) (s : dict) :
  bare_node "reset" c ->
  dict_get c "key" = None ->
  dict_get c "reset_keys" = Some (VList (map VStr ks)) ->
  walk_item env hm rec wp i (VDict c) s
  = (VDict c, s,
     if existsb (fun k => Store.__contains__ s (VStr k)) ks
     then Raised AttributeError else NotFound)
  /\ (existsb (fun k => Store.__contains__ s (VStr k)) ks = true ->
      forall doc retries depth,
        next env (S retries) (S depth) (interview hm (VDict c :: doc) s)
        = (interview hm (VDict c :: doc) s, Raised AttributeError)).
Proof.
  intros B K R.
  assert (W : forall rec' wp' i',
             walk_item env hm rec' wp' i' (VDict c) s
             = (VDict c, s,
                if existsb (fun k => Store.__contains__ s (VStr k)) ks
                then Raised AttributeError else NotFound)).
  { intros rec' wp' i'. pose proof B as (P & Kd & D & _ & _).
    unfold walk_item. fold (flag c "disabled"). rewrite D, Kd.
    cbn [item_cls_lookup String.eqb Ascii.eqb Bool.eqb].
    rewrite (init_of_plain env wp' c P).
    unfold reset_deletions, get.
    cbn [ItemModel.config Spec.item_of]. rewrite R. cbn [py_iter].
    rewrite (delete_keys_present "reset" c wp' ks s B).
    destruct (existsb _ ks); [reflexivity|].
    unfold set_if_needed, dict_mem. now rewrite K. }
  split; [apply W|].
  intros E doc retries depth. unfold interview.
  cbn [next walk home config settings py_iter].
  now rewrite walk_items_cons, W, E.
Qed.

End ResetKeys.

(** X26 on a reset of the key [keep] and the store of the reset scenario. *)
Lemma reset_keys_idle_or_raises_witness :
  Engine.next Examples.bare_env 1 1
    (Scan.interview None [VDict Nodes.keep_reset] Examples.temp_store)
  = (Scan.interview None [VDict Nodes.keep_reset] Examples.temp_store,
     Engine.Raised AttributeError).
Proof.
  refine (proj2 (reset_keys_idle_or_raises Examples.bare_env None
                   (Engine.walk Examples.bare_env None 0) [] 0
                   Nodes.keep_reset ["keep"] Examples.temp_store
                   _ eq_refl eq_refl) eq_refl [] 0%nat 0%nat).
  repeat split.
Defined.

(* ================================================================== *)
(** * A default read from a file                                       *)
(* ================================================================== *)

Section DefaultFromFile.

Import ItemModel Scan.

Variable env : Env.

(** The constructor on a node that names a file for its default and whose
    values, if any, are declared. *)
Lemma init_default_from_file (wp : list nat) (k : option value) (c : dict)
    (path text : string) :
  dict_get c "default_from_file" = Some (VStr path) ->
  file_read env path = Ok text ->
  dict_get c "values_from_directory" = None ->
  dict_get c "values_from_file" = None ->
  dict_get c "values_regexp" = None ->
  dict_get c "type" = Some (VStr "str") ->
  dict_get c "values_sort" = None ->
  __init__ env wp k c
  = (with_default c text,
     Ok {| walkpath := wp; key := k; config := with_default c text;
           kind := match dict_get c "kind" with
                   | Some v => v
                   | None => VNone
                   end |}).
Proof.
  intros F R Vd Vf Vr T Vs.
  assert (O : forall f, f <> "default" ->
                dict_get (with_default c text) f = dict_get c f).
  { intros f N. now apply dict_get_set_other. }
  unfold __init__, init_config, step_default_from_file.
  rewrite F. cbn [open_read]. rewrite R. cbn [and_then].
  fold (with_default c text).
  unfold step_values_from_directory. rewrite O, Vd by discriminate.
  cbn [and_then].
  unfold step_values_from_file. rewrite O, Vf by discriminate.
  cbn [and_then].
  unfold step_values_regexp. rewrite O, Vr by discriminate.
  cbn [and_then].
  unfold step_convert_values. rewrite !O by discriminate.
  destruct (dict_get c "values") as [vals|] eqn:V.
  - rewrite T. cbn [str_is String.eqb Ascii.eqb Bool.eqb and_then].
    unfold step_sort_values. rewrite !O by discriminate.
    rewrite V, Vs. cbn beta iota. now rewrite O by discriminate.
  - cbn [and_then]. unfold step_sort_values. rewrite !O by discriminate.
    rewrite V. cbn beta iota. now rewrite O by discriminate.
Qed.

(** X27. A default read from a file is used as the file holds it.  For a
    node of type [str] with [default_from_file] (no other run-time field,
    no [values_sort], [regexp] or [range]) whose file reads as [text]: the
    constructor stores [text] as the node's [default], in place of any
    declared one, and yields the same at every later scan; an empty answer
    then commits [text] unchanged, its line end included, and with
    declared [values] the answer is refused unless [text], as it is, is
    one of them. *)
Theorem default_from_file_verbatim (wp : list nat) (k : option value)
    (c : dict) (path text : string) (vals : option (list value))
    (s : dict) :
  dict_get c "default_from_file" = Some (VStr path) ->
  file_read env path = Ok text ->
  dict_get c "values_from_directory" = None ->
  dict_get c "values_from_file" = None ->
  dict_get c "values_regexp" = None ->
  dict_get c "type" = Some (VStr "str") ->
  dict_get c "values_sort" = None ->
  dict_get c "regexp" = None ->
  dict_get c "range" = None ->
  dict_get c "values" = option_map VList vals ->
  exists it,
    __init__ env wp k c = (with_default c text, Ok it)
    /\ __init__ env wp k (with_default c text)
       = (with_default c text, Ok it)
    /\ get it "default" = Some (VStr text)
    /\ set env it (VStr "") s
       = match vals with
         | Some vs =>
             if existsb (py_eq (VStr text)) vs
             then commit s k (VStr text) else Raise ValueError
         | None => commit s k (VStr text)
         end.
Proof.
  intros F R Vd Vf Vr T Vs Rx Rg V.
  assert (O : forall f, f <> "default" ->
                dict_get (with_default c text) f = dict_get c f).
  { intros f N. now apply dict_get_set_other. }
  assert (D : dict_get (with_default c text) "default" = Some (VStr text))
    by apply dict_get_set_same.
  eexists. split; [|split; [|split]].
  - apply (init_default_from_file wp k c path text); assumption.
  - rewrite (init_default_from_file wp k _ path text);
      rewrite ?O by discriminate; try assumption.
    unfold with_default. now rewrite dict_set_set.
  - exact D.
  - unfold set. cbn [config kind key]. rewrite D.
    rewrite !O by discriminate. rewrite T.
    assert (E : forall v0 : value,
               (v0 = VNone \/ v0 = VStr "") ->
               convert (VStr "str")
                 (if is_none_or_empty v0 then VStr text else v0)
               = Ok (VStr text)).
    { intros v0 [-> | ->]; reflexivity. }
    assert (Vd' : validate env (with_default c text) (VStr "str")
                    [VStr text]
                  = match vals with
                    | Some vs =>
                        if existsb (py_eq (VStr text)) vs
                        then Ok tt else Raise ValueError
                    | None => Ok tt
                    end).
    { unfold validate. rewrite !O by discriminate. rewrite Rx, Rg, V.
      assert (Q : (match dict_get c "required" with
                   | Some r => py_bool r
                   | None => false
                   end && negb (py_bool (VList [VStr text]))) = false)
        by apply andb_false_r.
      rewrite Q. destruct vals as [vs|]; [|reflexivity].
      cbn [option_map check_each py_in bind].
      now destruct (existsb (py_eq (VStr text)) vs). }
    destruct (py_eq _ (VStr "notice")); cbn [bind];
      rewrite E by auto; cbn [bind]; rewrite Vd';
      destruct vals as [vs|];
      try destruct (existsb (py_eq (VStr text)) vs); reflexivity.
Qed.

End DefaultFromFile.

(** X27 on a question with the values [bash] and [zsh] whose default file
    holds the line [bash]: the empty answer is refused. *)
Lemma default_from_file_verbatim_witness :
  exists it,
    ItemModel.__init__ Nodes.shell_env [] (Some (VStr "shell"))
      Nodes.shell_question
    = (Scan.with_default Nodes.shell_question Nodes.shell_text, Ok it)
    /\ ItemModel.__init__ Nodes.shell_env [] (Some (VStr "shell"))
         (Scan.with_default Nodes.shell_question Nodes.shell_text)
       = (Scan.with_default Nodes.shell_question Nodes.shell_text, Ok it)
    /\ ItemModel.get it "default" = Some (VStr Nodes.shell_text)
    /\ ItemModel.set Nodes.shell_env it (VStr "") [] = Raise ValueError.
Proof.
  exact (default_from_file_verbatim Nodes.shell_env []
           (Some (VStr "shell")) Nodes.shell_question "/etc/shell"
           Nodes.shell_text (Some [VStr "bash"; VStr "zsh"]) []
           eq_refl eq_refl eq_refl eq_refl eq_refl eq_refl eq_refl eq_refl
           eq_refl eq_refl).
Defined.
